(** * Order orchestration and webhook reconciliation: a shallow embedding

    The development follows the backend of the Telegram shop:
    - [JS]          : the JavaScript values the code computes with
                      (binary64 numbers, strings, truthiness);
    - [Erp]         : the rows the ERP returns and the read side of
                      mosklad.ts, the ERP itself being an oracle;
    - [DemandPdf]   : demand-pdf.ts, [buildDemandPdfData];
    - [Backend]     : the local store, mosklad.ts
                      [getOrCreateCounterparty] and [createCustomerOrder],
                      reminders.ts [createOrderReminders], routes/api.ts
                      (the draft-order endpoint and the webhook handler)
                      and bot.ts (the order actions);
    - [Scenario]    : the stores and ERP answers of the examples;
    - [Gateway]     : mosklad.ts, the paged listings, the stock cache and
                      the hrefs of custom entities;
    - [Text]        : the HTML escaping and the item table of bot.ts;
    - [Telegraf], [AdminPanel], [Worker] : the requests of a handler to
                      Telegram, the panel of the administrators in
                      bot.ts and the reminder worker of reminders.ts;
    - [Endpoints]   : routes/api.ts, liked products and the receipt on
                      request.

    The properties and their proofs follow the model.

    Numbers are IEEE 754 binary64 values, given by the [spec_float]
    specification of the Standard Library at precision 53 and maximal
    exponent 1024; every arithmetic operation of the source is the
    correctly rounded operation of that specification. *)

From Stdlib Require Import ZArith List Bool Lia SpecFloat Ascii.
From stdpp Require Import gmap strings list pretty.

Local Open Scope Z_scope.

(* ===================================================================== *)
(** * JavaScript values                                                    *)
(* ===================================================================== *)

Module JS.

(** ** Numbers *)

Definition number := spec_float.
Definition prec : Z := 53.
Definition emax : Z := 1024.

(** A numeric literal or an integer read from JSON. *)
Definition of_Z (n : Z) : number := binary_normalize prec emax n 0 false.

Definition add : number -> number -> number := SFadd prec emax.
Definition sub : number -> number -> number := SFsub prec emax.
Definition mul : number -> number -> number := SFmul prec emax.
Definition div : number -> number -> number := SFdiv prec emax.

Definition zero : number := S754_zero false.

Definition is_nan (x : number) : bool :=
  match x with S754_nan => true | _ => false end.

(** [x > y], [x < y]: false as soon as one side is NaN. *)
Definition ltb (x y : number) : bool := SFltb x y.
Definition gtb (x y : number) : bool := SFltb y x.
Definition leb (x y : number) : bool := SFleb x y.

(** ToBoolean on a number: [0], [-0] and [NaN] are falsy. *)
Definition truthy (x : number) : bool :=
  match x with
  | S754_zero _ | S754_nan => false
  | _ => true
  end.

(** [Math.max(a, b)]: NaN if one argument is NaN, [+0] above [-0]. *)
Definition Math_max (a b : number) : number :=
  if is_nan a || is_nan b then S754_nan
  else if ltb a b then b
  else if ltb b a then a
  else match a, b with
       | S754_zero true, S754_zero false => b
       | _, _ => a
       end.

(** [Math.round(x)]: the integer nearest to [x], ties towards [+∞];
    the result keeps the sign of [x] when it is zero. *)
Definition Math_round (x : number) : number :=
  match x with
  | S754_finite s m (Zneg k) =>
      let half := Z.shiftl 1 (Zpos k - 1) in
      let n := Z.shiftr ((if s then Z.neg m else Z.pos m) + half) (Zpos k) in
      binary_normalize prec emax n 0 s
  | _ => x
  end.

(** [x || d] and [x ?? d] on an optional number ([None] is [undefined]). *)
Definition or_default (o : option number) (d : number) : number :=
  match o with
  | Some x => if truthy x then x else d
  | None => d
  end.

(** ** Strings (sequences of 8-bit code units) *)

Definition str_truthy (s : string) : bool :=
  match s with EmptyString => false | _ => true end.

Definition opt_str_truthy (o : option string) : bool :=
  match o with Some s => str_truthy s | None => false end.

Definition opt_num_truthy (o : option number) : bool :=
  match o with Some x => truthy x | None => false end.

Fixpoint chars (s : string) : list ascii :=
  match s with
  | EmptyString => []
  | String c s' => c :: chars s'
  end.

Fixpoint of_chars (l : list ascii) : string :=
  match l with
  | [] => EmptyString
  | c :: l' => String c (of_chars l')
  end.

(** The white space of [\s] and [trim] among the 8-bit code units. *)
Definition is_space (c : ascii) : bool :=
  match nat_of_ascii c with
  | 9%nat | 10%nat | 11%nat | 12%nat | 13%nat | 32%nat => true
  | _ => false
  end.

Definition lower_char (c : ascii) : ascii :=
  let n := nat_of_ascii c in
  if (Nat.leb 65 n && Nat.leb n 90)%bool then ascii_of_nat (n + 32) else c.

Definition upper_char (c : ascii) : ascii :=
  let n := nat_of_ascii c in
  if (Nat.leb 97 n && Nat.leb n 122)%bool then ascii_of_nat (n - 32) else c.

Definition toLowerCase (s : string) : string := of_chars (map lower_char (chars s)).
Definition toUpperCase (s : string) : string := of_chars (map upper_char (chars s)).

Fixpoint drop_spaces (l : list ascii) : list ascii :=
  match l with
  | c :: l' => if is_space c then drop_spaces l' else l
  | [] => []
  end.

Definition trim_chars (l : list ascii) : list ascii :=
  rev (drop_spaces (rev (drop_spaces l))).

Definition trim (s : string) : string := of_chars (trim_chars (chars s)).

(** [s.replace(/\s+/g, " ")]: every maximal run of white space becomes
    one space; [in_run] tells that the previous unit was white space. *)
Fixpoint collapse_run (in_run : bool) (l : list ascii) : list ascii :=
  match l with
  | [] => []
  | c :: l' =>
      if is_space c
      then (if in_run then collapse_run true l' else " "%char :: collapse_run true l')
      else c :: collapse_run false l'
  end.

Definition collapse_spaces (l : list ascii) : list ascii := collapse_run false l.

Fixpoint starts_with (p l : list ascii) : bool :=
  match p, l with
  | [], _ => true
  | a :: p', b :: l' => if Ascii.eqb a b then starts_with p' l' else false
  | _ :: _, [] => false
  end.

(** [l.indexOf(p)] and the rest of [l] after the first occurrence. *)
Fixpoint after_first (p l : list ascii) : option (list ascii) :=
  if starts_with p l then Some (drop (length p) l)
  else match l with
       | [] => None
       | _ :: l' => after_first p l'
       end.

Definition includes (s sub : string) : bool :=
  match after_first (chars sub) (chars s) with Some _ => true | None => false end.

Definition startsWith (s p : string) : bool := starts_with (chars p) (chars s).

(** [s.split(c)[0]] *)
Fixpoint before_char (c : ascii) (l : list ascii) : list ascii :=
  match l with
  | [] => []
  | a :: l' => if Ascii.eqb a c then [] else a :: before_char c l'
  end.

End JS.

(* ===================================================================== *)
(** * The ERP gateway (mosklad.ts), read side                              *)
(* ===================================================================== *)

(** A promise either resolves or rejects with an [Error] whose message is
    kept; [await] on a rejected promise throws. *)
Inductive Outcome (A : Type) : Type :=
  | Ok (a : A)
  | Throw (msg : string).
Arguments Ok {A} a.
Arguments Throw {A} msg.

(** [p.catch(() => d)] *)
Definition catch_default {A} (o : Outcome A) (d : A) : A :=
  match o with Ok a => a | Throw _ => d end.

Module Erp.
Import JS.

(** Rows of [/entity/customerorder/:id/positions] and
    [/entity/demand/:id/positions], prices in minor units. *)
Record PositionRow := {
  row_quantity : number;
  row_price : option number;
  row_assortmentName : option string;
  row_assortmentHref : option string
}.

(** What [listCustomerOrderPositions] and [listDemandPositions] return. *)
Record Position := {
  assortmentId : option string;
  name : string;
  quantity : number;
  price : option number
}.

Record DemandRef := { dr_id : string }.

Record CustomerOrder := {
  o_id : string;
  o_name : string;
  o_applicable : option bool;
  o_sum : option number;
  o_payedSum : option number;
  o_agentHref : option string;
  o_demands : option (list DemandRef)
}.

Record Demand := {
  d_id : string;
  d_name : string;
  d_applicable : option bool;
  d_sum : option number;
  d_agentHref : option string;
  d_customerOrderHref : option string
}.

Record Payment := {
  pay_sum : option number;
  pay_agentHref : option string
}.

Record SalePrice := {
  sp_value : number;
  sp_priceTypeName : option string
}.

Record MoyskladProduct := {
  mp_id : string;
  mp_name : string;
  mp_salePrices : option (list SalePrice)
}.

(** What [mapProduct] keeps of a product for the order flow. *)
Record Product := {
  prod_id : string;
  prod_name : string;
  prod_price : number
}.

(** The body of [POST /entity/customerorder] as far as the order flow
    decides it. *)
Record OrderPositionBody := {
  ob_productId : string;
  ob_quantity : number;
  ob_price : option number
}.

Record OrderBody := {
  ob_agent : string;
  ob_positions : list OrderPositionBody;
  ob_deliveryMethod : option string;
  ob_orderNote : option string;
  ob_addressText : option string;
  ob_locationLat : option number;
  ob_locationLng : option number;
  ob_addressExtra : option string
}.

Record CreatedOrder := { co_id : string; co_name : string }.

(** The ERP as the backend sees it during one request: the outcome of
    each [moskladFetch] (a missing token, a network fault and a non-2xx
    status all reject). *)
Record Env := {
  fetch_counterparty : string -> Outcome unit;
  fetch_counterpartyByPhone : string -> Outcome (list string);
  post_counterparty : string -> string -> string -> Outcome string;
  put_counterparty : string -> Outcome unit;
  post_customerorder : OrderBody -> Outcome CreatedOrder;
  fetch_customerorder : string -> Outcome CustomerOrder;
  fetch_orderPositions : string -> Outcome (list PositionRow);
  fetch_orderDemands : string -> Outcome unit;
  fetch_demand : string -> Outcome Demand;
  fetch_demandPositions : string -> Outcome (list PositionRow);
  fetch_paymentin : string -> Outcome Payment;
  fetch_cashin : string -> Outcome Payment;
  fetch_balance : string -> Outcome (option number);
  fetch_currency : Outcome (option string);
  fetch_stock : Outcome unit;
  fetch_product : string -> Outcome MoyskladProduct;
  fetch_defaultOrganization : Outcome (option string);
  fetch_defaultStore : Outcome (option string)
}.

(** [extractIdFromHref(href)] of mosklad.ts: the last path segment,
    without its query string. *)
Fixpoint last_segment (cur : list ascii) (l : list ascii) : list ascii :=
  match l with
  | [] => cur
  | c :: l' => if Ascii.eqb c "/"%char then last_segment [] l' else last_segment (cur ++ [c]) l'
  end.

Definition extractIdFromHref (href : option string) : option string :=
  match href with
  | None => None
  | Some h =>
      if str_truthy h then
        let last := last_segment [] (chars h) in
        match last with
        | [] => None
        | _ => Some (of_chars (before_char "?"%char last))
        end
      else None
  end.

Definition mapPosition (row : PositionRow) : Position :=
  {| assortmentId := extractIdFromHref (row_assortmentHref row);
     name := match row_assortmentName row with
             | Some n => if str_truthy n then n else "Item"
             | None => "Item"
             end;
     quantity := row_quantity row;
     price := match row_price row with
              | Some p => Some (div p (of_Z 100))
              | None => None
              end |}.

Section Gateway.
Variable env : Env.

Definition listCustomerOrderPositions (orderId : string) : Outcome (list Position) :=
  match fetch_orderPositions env orderId with
  | Ok rows => Ok (map mapPosition rows)
  | Throw m => Throw m
  end.

Definition listDemandPositions (demandId : string) : Outcome (list Position) :=
  match fetch_demandPositions env demandId with
  | Ok rows => Ok (map mapPosition rows)
  | Throw m => Throw m
  end.

Definition getCustomerOrder (orderId : string) : Outcome CustomerOrder :=
  fetch_customerorder env orderId.

Definition getDemand (demandId : string) : Outcome Demand :=
  fetch_demand env demandId.

(** [(data.balance ?? 0) / 100] *)
Definition getCustomerBalance (counterpartyId : string) : Outcome number :=
  match fetch_balance env counterpartyId with
  | Ok b => Ok (div (match b with Some x => x | None => zero end) (of_Z 100))
  | Throw m => Throw m
  end.

Definition getBaseCurrencyCode : Outcome (option string) := fetch_currency env.
End Gateway.
End Erp.

(* ===================================================================== *)
(** * demand-pdf.ts                                                        *)
(* ===================================================================== *)

Module DemandPdf.
Import JS Erp.

Record DemandPdfPosition := {
  pdf_assortmentId : option string;
  pdf_name : string;
  pdf_quantity : number;
  pdf_price : option number;
  remainingQty : option number;
  remainingSum : option number
}.

Record PdfData := {
  positions : list DemandPdfPosition;
  leftToPay : option number
}.

Definition normalizeName (name : string) : string :=
  if str_truthy name
  then toLowerCase (of_chars (collapse_spaces (trim_chars (chars name))))
  else "".

(** [extractIdFromHref(href, marker)] of demand-pdf.ts and api.ts. *)
Definition extractIdFromHref (href : option string) (marker : string) : option string :=
  match href with
  | None => None
  | Some h =>
      if str_truthy h then
        match after_first (chars marker) (chars h) with
        | None => None
        | Some rest =>
            let seg := before_char "/"%char (before_char "?"%char rest) in
            match seg with [] => None | _ => Some (of_chars seg) end
        end
      else None
  end.

(** [m.set(k, (m.get(k) || 0) + q)] *)
Definition bump (m : gmap string number) (k : string) (q : number) : gmap string number :=
  <[k := add (or_default (m !! k) zero) q]> m.

Definition bumpByName (m : gmap string number) (pos : Position) : gmap string number :=
  let key := normalizeName (name pos) in
  if str_truthy key then bump m key (quantity pos) else m.

Definition bumpById (m : gmap string number) (pos : Position) : gmap string number :=
  if opt_str_truthy (assortmentId pos)
  then bump m (default "" (assortmentId pos)) (quantity pos)
  else m.

Definition setPrice (m : gmap string number) (k : string) (pos : Position) : gmap string number :=
  match price pos with
  | Some p => <[k := p]> m
  | None => m
  end.

Definition qtyByName (l : list Position) : gmap string number := fold_left bumpByName l ∅.
Definition qtyById (l : list Position) : gmap string number := fold_left bumpById l ∅.

Definition priceByNameStep (m : gmap string number) (pos : Position) : gmap string number :=
  let key := normalizeName (name pos) in
  if str_truthy key then setPrice m key pos else m.

Definition priceByIdStep (m : gmap string number) (pos : Position) : gmap string number :=
  if opt_str_truthy (assortmentId pos)
  then setPrice m (default "" (assortmentId pos)) pos
  else m.

Definition priceByName (l : list Position) : gmap string number := fold_left priceByNameStep l ∅.
Definition priceById (l : list Position) : gmap string number := fold_left priceByIdStep l ∅.

(** The ids of [order.demands], each once, in the order of first
    appearance ([demandRefs] is a [Map] keyed by id). *)
Fixpoint demandRefIds (seen : gset string) (l : list DemandRef) : list string :=
  match l with
  | [] => []
  | d :: l' =>
      if str_truthy (dr_id d) && negb (bool_decide (dr_id d ∈ seen))
      then dr_id d :: demandRefIds ({[dr_id d]} ∪ seen) l'
      else demandRefIds seen l'
  end.

(** The unit price the shipped total uses for a shipment line. *)
Definition shippedUnitPrice (orderPriceById orderPriceByName : gmap string number)
    (pos : Position) : option number :=
  let key := normalizeName (name pos) in
  let byName := match orderPriceByName !! key with
                | Some p => Some p
                | None => price pos
                end in
  if opt_str_truthy (assortmentId pos)
  then match orderPriceById !! default "" (assortmentId pos) with
       | Some p => Some p
       | None => byName
       end
  else byName.

Definition shippedTotalStep (orderPriceById orderPriceByName : gmap string number)
    (total : number) (pos : Position) : number :=
  match shippedUnitPrice orderPriceById orderPriceByName pos with
  | Some u => add total (mul u (quantity pos))
  | None => total
  end.

Definition computedTotalStep (sum : number) (pos : Position) : number :=
  match price pos with
  | Some p => add sum (mul p (quantity pos))
  | None => sum
  end.

Definition orderTotalOf (order : CustomerOrder) (orderPositions : list Position) : option number :=
  let rawOrderTotal := match o_sum order with
                       | Some s => Some (div s (of_Z 100))
                       | None => None
                       end in
  let computedTotal := fold_left computedTotalStep orderPositions zero in
  match rawOrderTotal with
  | Some r =>
      if truthy r && gtb r zero then Some r
      else if gtb computedTotal zero then Some computedTotal else None
  | None => if gtb computedTotal zero then Some computedTotal else None
  end.

Definition orderLine (orderPositions shipped demandPositions : list Position)
    (pos : Position) : DemandPdfPosition :=
  let key := normalizeName (name pos) in
  let hasIdMatch :=
    opt_str_truthy (assortmentId pos)
    && bool_decide (is_Some (qtyById orderPositions !! default "" (assortmentId pos))) in
  let lookup (byId byName : gmap string number) : number :=
    if hasIdMatch
    then default zero (byId !! default "" (assortmentId pos))
    else default zero (byName !! key) in
  let orderedQty := lookup (qtyById orderPositions) (qtyByName orderPositions) in
  let shippedQty := lookup (qtyById shipped) (qtyByName shipped) in
  let currentQty := lookup (qtyById demandPositions) (qtyByName demandPositions) in
  let remaining := Math_max zero (sub orderedQty shippedQty) in
  let unitPrice := match price pos with
                   | Some p => Some p
                   | None => priceByName orderPositions !! key
                   end in
  {| pdf_assortmentId := assortmentId pos;
     pdf_name := name pos;
     pdf_quantity := currentQty;
     pdf_price := unitPrice;
     remainingQty := Some remaining;
     remainingSum := match unitPrice with
                     | Some u => Some (mul remaining u)
                     | None => None
                     end |}.

Definition unmatched (orderPositions : list Position) (pos : Position) : bool :=
  let key := normalizeName (name pos) in
  let hasIdMatch :=
    opt_str_truthy (assortmentId pos)
    && bool_decide (is_Some (qtyById orderPositions !! default "" (assortmentId pos))) in
  let hasNameMatch :=
    str_truthy key && bool_decide (is_Some (qtyByName orderPositions !! key)) in
  negb (hasIdMatch || hasNameMatch).

Definition plainLine (pos : Position) : DemandPdfPosition :=
  {| pdf_assortmentId := assortmentId pos;
     pdf_name := name pos;
     pdf_quantity := quantity pos;
     pdf_price := price pos;
     remainingQty := None;
     remainingSum := None |}.

(** The body of the [try] block once the three fetches have resolved. *)
Definition reconcile (order : CustomerOrder) (orderPositions : list Position)
    (demandPositionLists : list (list Position)) (demandPositions : list Position) : PdfData :=
  let shipped := concat demandPositionLists in
  let shippedTotal :=
    fold_left (shippedTotalStep (priceById orderPositions) (priceByName orderPositions))
              shipped zero in
  let left :=
    match orderTotalOf order orderPositions with
    | Some t =>
        Some (Math_max zero
                (div (Math_round (mul (sub t shippedTotal) (of_Z 100))) (of_Z 100)))
    | None => None
    end in
  {| positions := map (orderLine orderPositions shipped demandPositions) orderPositions
                  ++ map plainLine (filter (fun p => unmatched orderPositions p = true) demandPositions);
     leftToPay := left |}.

Definition fallback (demandPositions : list Position) : PdfData :=
  {| positions := map plainLine demandPositions; leftToPay := None |}.

Definition buildDemandPdfData (env : Env) (demand : Demand)
    (demandPositions : list Position) : PdfData :=
  match extractIdFromHref (d_customerOrderHref demand) "/entity/customerorder/" with
  | None => fallback demandPositions
  | Some orderId =>
      match getCustomerOrder env orderId with
      | Throw _ => fallback demandPositions
      | Ok order =>
          let orderPositions := catch_default (listCustomerOrderPositions env orderId) [] in
          let ids := demandRefIds ∅ (default [] (o_demands order)) in
          let lists := map (fun i => catch_default (listDemandPositions env i) []) ids in
          reconcile order orderPositions lists demandPositions
      end
  end.

End DemandPdf.

(* ===================================================================== *)
(** * The backend: local store, effects, handlers                          *)
(* ===================================================================== *)

Module Backend.
Import JS Erp.

(** ** The local store (the Prisma models the order flow touches) *)

Record User := {
  u_id : string;
  telegramId : string;
  phoneNumber : option string;
  language : option string;
  moskladCounterpartyId : option string;
  defaultAddress : option string;
  pendingState : option string;
  firstName : option string;
  username : option string;
  lastOrderAt : option Z
}.

Record DraftOrderItem := {
  productId : string;
  item_name : string;
  item_price : number;
  item_quantity : number
}.

Record DraftOrder := {
  draft_id : string;
  draft_userId : string;
  deliveryMethod : option string;
  orderNote : option string;
  addressText : option string;
  locationLat : option number;
  locationLng : option number;
  items : list DraftOrderItem
}.

Record Reminder := {
  rem_userId : string;
  dueAt : number;
  sentAt : option number
}.

Record AdminSettings := {
  notifyNewUser : bool;
  notifyNewOrder : bool;
  notifyOrderStatus : bool;
  notifyOrderUpdate : bool;
  notifyPayment : bool
}.

Inductive AdminType := newUser | newOrder | orderUpdate | payment.

(** ** Observable effects *)

(** Messages of routes/api.ts, by what they announce. *)
Inductive Notice :=
  | NCounterpartyDeleted
  | NDemandCreated (demandName : string)
  | NDemandUpdated (demandName : string)
  | NPayment
  | NOrderCreated (orderName : string)
  | NOrderUpdated (orderName : string)
  | NOrderReceived
  | NAddressRequest
  | NAdmin (type : AdminType).

(** Replies of bot.ts, by translation key. *)
Inductive Reply :=
  | RRegisterPrompt
  | RCartEmpty
  | RChooseDelivery
  | RSendAddress
  | ROrderSummary
  | ROrderCreated
  | ROrderCancelled
  | RCounterpartyDeleted
  | RLocationSaved
  | RMenuHint
  | RShareContactHint
  | RNotRegistered
  | RRegistered
  | RWelcome
  | RContactSelfOnly
  | RTryLater.

Inductive Effect :=
  | TgSend (chat : string) (n : Notice)
  | PdfReceiptJob (chat : string) (demandName : string) (data : DemandPdf.PdfData)
  | BotReply (chat : string) (r : Reply)
  | BotAnswerCbQuery (chat : string)
  | ErpOrderCreated (body : OrderBody) (created : CreatedOrder)
  | ErpCounterpartyCreated (phone : string) (id : string)
  | ConsoleError (msg : string).

Record World := {
  users : list User;
  drafts : gmap string DraftOrder;
  reminders : list Reminder;
  adminSettings : gmap string AdminSettings;
  cache : gmap string Z;
  now : Z;
  next_id : N;
  trace : list Effect
}.

Definition with_users (us : list User) (w : World) : World :=
  {| users := us; drafts := drafts w; reminders := reminders w;
     adminSettings := adminSettings w; cache := cache w; now := now w;
     next_id := next_id w; trace := trace w |}.

Definition with_drafts (ds : gmap string DraftOrder) (w : World) : World :=
  {| users := users w; drafts := ds; reminders := reminders w;
     adminSettings := adminSettings w; cache := cache w; now := now w;
     next_id := next_id w; trace := trace w |}.

Definition with_reminders (rs : list Reminder) (w : World) : World :=
  {| users := users w; drafts := drafts w; reminders := rs;
     adminSettings := adminSettings w; cache := cache w; now := now w;
     next_id := next_id w; trace := trace w |}.

Definition with_cache (c : gmap string Z) (w : World) : World :=
  {| users := users w; drafts := drafts w; reminders := reminders w;
     adminSettings := adminSettings w; cache := c; now := now w;
     next_id := next_id w; trace := trace w |}.

Definition with_next_id (n : N) (w : World) : World :=
  {| users := users w; drafts := drafts w; reminders := reminders w;
     adminSettings := adminSettings w; cache := cache w; now := now w;
     next_id := n; trace := trace w |}.

Definition with_trace (t : list Effect) (w : World) : World :=
  {| users := users w; drafts := drafts w; reminders := reminders w;
     adminSettings := adminSettings w; cache := cache w; now := now w;
     next_id := next_id w; trace := t |}.

(** ** Configuration and the messaging channel *)

Record Config := {
  BOT_TOKEN : option string;
  ADMIN_TELEGRAM_IDS : option string;
  REMINDER_DAYS_AFTER_ORDER : option string;
  MOSKLAD_ORGANIZATION_ID : option string;
  MOSKLAD_STORE_ID : option string;
  MOSKLAD_COUNTERPARTY_USERNAME_ATTR : option string;
  MOSKLAD_COUNTERPARTY_TELEGRAM_ID_ATTR : option string
}.

(** [sys_tg_rejects e] tells that the request behind [e] to the
    messaging channel rejects. *)
Record Sys := {
  sys_erp : Env;
  sys_cfg : Config;
  sys_tg_rejects : Effect -> bool;
  (** [String(x)] on a number *)
  sys_numberToString : number -> string;
  (** [parseLatLng] and [formatAddress] of bot.ts: text helpers whose
      results the order flow stores or compares, never inspects *)
  sys_parseLatLng : string -> option (number * number);
  sys_formatAddress : string -> string;
  (** [getCounterpartyLocation]: a gateway read that never throws *)
  sys_counterpartyLocation : string -> option (number * number)
}.

(** ** Asynchronous code as state passing with exceptions *)

Definition M (A : Type) : Type := World -> Outcome A * World.

#[export] Instance M_ret : MRet M := fun A a w => (Ok a, w).
#[export] Instance M_bind : MBind M := fun A B f m w =>
  match m w with
  | (Ok a, w') => f a w'
  | (Throw msg, w') => (Throw msg, w')
  end.

Definition throw {A} (msg : string) : M A := fun w => (Throw msg, w).

(** [try { m } catch (err) { h err.message }] *)
Definition try_catch {A} (m : M A) (h : string -> M A) : M A := fun w =>
  match m w with
  | (Ok a, w') => (Ok a, w')
  | (Throw msg, w') => h msg w'
  end.

Definition get : M World := fun w => (Ok w, w).
Definition modify (f : World -> World) : M unit := fun w => (Ok tt, f w).
Definition emit (e : Effect) : M unit := modify (fun w => with_trace (trace w ++ [e]) w).

(** [await p] for a gateway promise. *)
Definition await {A} (o : Outcome A) : M A := fun w => (o, w).

Definition when (b : bool) (m : M unit) : M unit := if b then m else mret tt.

(** [for (const x of l) { body x }] *)
Fixpoint for_each {A} (l : list A) (body : A -> M unit) : M unit :=
  match l with
  | [] => mret tt
  | x :: l' => _ ← body x; for_each l' body
  end.

(** ** Store queries *)

Definition findUnique_telegramId (tid : string) (w : World) : option User :=
  find (fun u => String.eqb (telegramId u) tid) (users w).

Definition findUnique_id (uid : string) (w : World) : option User :=
  find (fun u => String.eqb (u_id u) uid) (users w).

Definition links (k : string) (u : User) : bool :=
  match moskladCounterpartyId u with
  | Some c => String.eqb c k
  | None => false
  end.

(** [prisma.user.findFirst({ where: { moskladCounterpartyId } })] *)
Definition findFirst_counterparty (k : string) (w : World) : option User :=
  find (links k) (users w).

Definition update_where (p : User -> bool) (f : User -> User) (w : World) : World :=
  with_users (map (fun u => if p u then f u else u) (users w)) w.

Definition set_counterparty (c : option string) (u : User) : User :=
  {| u_id := u_id u; telegramId := telegramId u; phoneNumber := phoneNumber u;
     language := language u; moskladCounterpartyId := c;
     defaultAddress := defaultAddress u; pendingState := pendingState u;
     firstName := firstName u; username := username u; lastOrderAt := lastOrderAt u |}.

Definition set_counterparty_pending (c : option string) (u : User) : User :=
  {| u_id := u_id u; telegramId := telegramId u; phoneNumber := phoneNumber u;
     language := language u; moskladCounterpartyId := c;
     defaultAddress := defaultAddress u; pendingState := None;
     firstName := firstName u; username := username u; lastOrderAt := lastOrderAt u |}.

(** [{ moskladCounterpartyId: null, phoneNumber: null, defaultAddress:
    null, pendingState: null }] *)
Definition reset_registration (u : User) : User :=
  {| u_id := u_id u; telegramId := telegramId u; phoneNumber := None;
     language := language u; moskladCounterpartyId := None;
     defaultAddress := None; pendingState := None;
     firstName := firstName u; username := username u; lastOrderAt := lastOrderAt u |}.

Definition set_defaultAddress (a : option string) (u : User) : User :=
  {| u_id := u_id u; telegramId := telegramId u; phoneNumber := phoneNumber u;
     language := language u; moskladCounterpartyId := moskladCounterpartyId u;
     defaultAddress := a; pendingState := pendingState u;
     firstName := firstName u; username := username u; lastOrderAt := lastOrderAt u |}.

Definition set_lastOrderAt (t : Z) (u : User) : User :=
  {| u_id := u_id u; telegramId := telegramId u; phoneNumber := phoneNumber u;
     language := language u; moskladCounterpartyId := moskladCounterpartyId u;
     defaultAddress := defaultAddress u; pendingState := pendingState u;
     firstName := firstName u; username := username u; lastOrderAt := Some t |}.

Definition set_language (l : option string) (u : User) : User :=
  {| u_id := u_id u; telegramId := telegramId u; phoneNumber := phoneNumber u;
     language := l; moskladCounterpartyId := moskladCounterpartyId u;
     defaultAddress := defaultAddress u; pendingState := pendingState u;
     firstName := firstName u; username := username u; lastOrderAt := lastOrderAt u |}.

Definition has_telegramId (tid : string) (u : User) : bool := String.eqb (telegramId u) tid.
Definition has_id (uid : string) (u : User) : bool := String.eqb (u_id u) uid.

(** [user.language || "uz"] *)
Definition lang_of (u : User) : string :=
  match language u with
  | Some l => if str_truthy l then l else "uz"
  | None => "uz"
  end.


(** ** Text helpers of the configuration *)

(** [s.split(c)] *)
Fixpoint split_on (c : ascii) (cur : list ascii) (l : list ascii) : list (list ascii) :=
  match l with
  | [] => [cur]
  | a :: l' =>
      if Ascii.eqb a c then cur :: split_on c [] l'
      else split_on c (cur ++ [a]) l'
  end.

(** [(v || "").split(",").map((s) => s.trim()).filter(Boolean)] *)
Definition envList (v : option string) : list string :=
  filter (fun s => str_truthy s = true)
    (map (fun l => of_chars (trim_chars l))
         (split_on ","%char [] (chars (default "" v)))).

Definition digit_value (radix : Z) (c : ascii) : option Z :=
  let n := Z.of_nat (nat_of_ascii c) in
  let v := if (48 <=? n) && (n <=? 57) then Some (n - 48)
           else if (97 <=? n) && (n <=? 122) then Some (n - 87)
           else if (65 <=? n) && (n <=? 90) then Some (n - 55)
           else None in
  match v with
  | Some d => if d <? radix then Some d else None
  | None => None
  end.

(** The value of the longest prefix of digits; [None] when it is empty. *)
Fixpoint digits_prefix (radix : Z) (acc : option Z) (l : list ascii) : option Z :=
  match l with
  | [] => acc
  | c :: l' =>
      match digit_value radix c with
      | Some d => digits_prefix radix (Some (default 0 acc * radix + d)) l'
      | None => acc
      end
  end.

(** [parseInt(s)] without a radix; [None] is [NaN]. *)
Definition parseInt (s : string) : option Z :=
  let l := drop_spaces (chars s) in
  let '(neg, l1) :=
    match l with
    | c :: r => if Ascii.eqb c "-"%char then (true, r)
                else if Ascii.eqb c "+"%char then (false, r) else (false, l)
    | [] => (false, l)
    end in
  let '(radix, l2) :=
    match l1 with
    | z :: x :: r =>
        if Ascii.eqb z "0"%char && (Ascii.eqb x "x"%char || Ascii.eqb x "X"%char)
        then (16, r) else (10, l1)
    | _ => (10, l1)
    end in
  match digits_prefix radix None l2 with
  | Some v => Some (if neg then - v else v)
  | None => None
  end.

(** ** mosklad.ts, write side and counterparty resolution *)

Record OrderItem := {
  oi_id : string;
  oi_quantity : number;
  oi_price : option number
}.

Record DeliveryInfo := {
  di_deliveryMethod : option string;
  di_orderNote : option string;
  di_addressText : option string;
  di_locationLat : option number;
  di_locationLng : option number;
  di_addressExtra : option string
}.

(** [a || b] on optional strings. *)
Definition or_str (a b : option string) : option string :=
  if opt_str_truthy a then a else b.

Definition truthy_str (a : option string) : option string :=
  if opt_str_truthy a then a else None.

Definition pickSalePrice (prices : option (list SalePrice)) : number :=
  match prices with
  | None | Some [] => zero
  | Some (first :: rest) =>
      let named (f : string -> bool) (p : SalePrice) : bool :=
        f (default "" (truthy_str (sp_priceTypeName p))) in
      let preferred :=
        match find (named (fun n => String.eqb n "Цена продажи")) (first :: rest) with
        | Some p => Some p
        | None => find (named (fun n => includes (toLowerCase n) "sale")) (first :: rest)
        end in
      let chosen := default first preferred in
      if truthy (sp_value chosen) then div (sp_value chosen) (of_Z 100) else zero
  end.

Definition mapProduct (row : MoyskladProduct) : Product :=
  {| prod_id := mp_id row; prod_name := mp_name row;
     prod_price := pickSalePrice (mp_salePrices row) |}.

(** [Array.from(new Set(ids))] *)
Fixpoint unique (seen : gset string) (l : list string) : list string :=
  match l with
  | [] => []
  | x :: l' =>
      if bool_decide (x ∈ seen) then unique seen l'
      else x :: unique ({[x]} ∪ seen) l'
  end.

(** [Promise.all(l.map(f))] *)
Fixpoint all_of {A B} (f : A -> Outcome B) (l : list A) : Outcome (list B) :=
  match l with
  | [] => Ok []
  | x :: l' =>
      match f x with
      | Throw m => Throw m
      | Ok b => match all_of f l' with
                | Ok bs => Ok (b :: bs)
                | Throw m => Throw m
                end
      end
  end.

Section WithSys.
Variable sys : Sys.

Let env : Env := sys_erp sys.
Let cfg : Config := sys_cfg sys.

Definition getProductsByIds (ids : list string) : Outcome (list Product) :=
  let uniqueIds := filter (fun i => str_truthy i = true) (unique ∅ ids) in
  match all_of (fetch_product env) uniqueIds with
  | Throw m => Throw m
  | Ok rows =>
      match fetch_stock env with
      | Throw m => Throw m
      | Ok _ =>
          match getBaseCurrencyCode env with
          | Throw m => Throw m
          | Ok _ => Ok (map mapProduct rows)
          end
      end
  end.

(** [search.rows[0]?.id || null] *)
Definition findCounterpartyByPhone (phone : string) : Outcome (option string) :=
  match fetch_counterpartyByPhone env phone with
  | Throw m => Throw m
  | Ok rows => Ok (truthy_str (head rows))
  end.

Definition updateCounterpartyAttrs (counterpartyId tid : string)
    (uname : option string) : M unit :=
  let telegramIdAttr := opt_str_truthy (MOSKLAD_COUNTERPARTY_TELEGRAM_ID_ATTR cfg) in
  let usernameAttr := opt_str_truthy (MOSKLAD_COUNTERPARTY_USERNAME_ATTR cfg) in
  if negb usernameAttr && negb telegramIdAttr then mret tt
  else if telegramIdAttr || (usernameAttr && opt_str_truthy uname)
       then await (put_counterparty env counterpartyId)
       else mret tt.

Definition createCounterparty (tid phone cname : string) (uname : option string) : M string :=
  created ← await (post_counterparty env tid phone cname);
  _ ← emit (ErpCounterpartyCreated phone created);
  _ ← modify (update_where (has_telegramId tid) (set_counterparty (Some created)));
  mret created.

Definition getOrCreateCounterparty (tid phone : string)
    (cname uname : option string) : M string :=
  w ← get;
  match findUnique_telegramId tid w with
  | None => throw "User not found"
  | Some user =>
      if opt_str_truthy (moskladCounterpartyId user) then
        let cached := default "" (moskladCounterpartyId user) in
        match fetch_counterparty env cached with
        | Ok _ => mret cached
        | Throw msg =>
            if includes msg "404" then
              _ ← modify (update_where (has_telegramId tid) (set_counterparty None));
              throw "COUNTERPARTY_DELETED"
            else throw msg
        end
      else
        existing ← await (findCounterpartyByPhone phone);
        match existing with
        | Some k =>
            _ ← modify (update_where (has_telegramId tid) (set_counterparty (Some k)));
            _ ← updateCounterpartyAttrs k tid uname;
            mret k
        | None =>
            createCounterparty tid phone
              (default phone (or_str cname (or_str (firstName user) (username user))))
              uname
        end
  end.

Definition orderPosition (item : OrderItem) : OrderPositionBody :=
  {| ob_productId := oi_id item;
     ob_quantity := oi_quantity item;
     ob_price := match oi_price item with
                 | Some p => Some (Math_round (mul p (of_Z 100)))
                 | None => None
                 end |}.

Definition createCustomerOrder (counterpartyId : string) (its : list OrderItem)
    (info : DeliveryInfo) : M CreatedOrder :=
  organizationId ←
    (if opt_str_truthy (MOSKLAD_ORGANIZATION_ID cfg)
     then mret (MOSKLAD_ORGANIZATION_ID cfg)
     else o ← await (fetch_defaultOrganization env); mret (truthy_str o));
  if negb (opt_str_truthy organizationId)
  then throw "No organization found for order creation"
  else
    _ ← (if opt_str_truthy (MOSKLAD_STORE_ID cfg)
         then mret (MOSKLAD_STORE_ID cfg)
         else o ← await (fetch_defaultStore env); mret (truthy_str o));
    let body :=
      {| ob_agent := counterpartyId;
         ob_positions := map orderPosition its;
         ob_deliveryMethod := di_deliveryMethod info;
         ob_orderNote := truthy_str (option_map trim (di_orderNote info));
         ob_addressText := di_addressText info;
         ob_locationLat := di_locationLat info;
         ob_locationLng := di_locationLng info;
         ob_addressExtra := di_addressExtra info |} in
    created ← await (post_customerorder env body);
    _ ← emit (ErpOrderCreated body created);
    mret created.

(** ** reminders.ts: [createOrderReminders] *)

Definition day_ms : number := of_Z 86400000.

(** [days * 24 * 60 * 60 * 1000] *)
Definition days_to_ms (days : number) : number :=
  mul (mul (mul (mul days (of_Z 24)) (of_Z 60)) (of_Z 60)) (of_Z 1000).

(** A [Date] is valid when its time value is within ±8.64e15 ms. *)
Definition valid_time (t : number) : bool :=
  leb (SFabs t) (of_Z 8640000000000000).

Definition reminderDays : list number :=
  let reminderDaysStr := default "1,2,3,6" (truthy_str (REMINDER_DAYS_AFTER_ORDER cfg)) in
  omap (fun l => option_map of_Z (parseInt (of_chars (trim_chars l))))
       (split_on ","%char [] (chars reminderDaysStr)).

Definition owned_by (userId : string) (r : Reminder) : bool :=
  String.eqb (rem_userId r) userId.

Definition createOrderReminders (userId : string) : M unit :=
  try_catch
    (_ ← modify (fun w => with_reminders
                   (filter (fun r => owned_by userId r = false) (reminders w)) w);
     w ← get;
     let fresh := map (fun days =>
                    {| rem_userId := userId;
                       dueAt := add (of_Z (now w)) (days_to_ms days);
                       sentAt := None |}) reminderDays in
     if forallb (fun r => valid_time (dueAt r)) fresh
     then modify (fun w => with_reminders (reminders w ++ fresh) w)
     else throw "Invalid Date")
    (fun msg => emit (ConsoleError "Error creating order reminders:")).

(** ** Sends of routes/api.ts *)

Definition tg_request (e : Effect) : M unit :=
  if opt_str_truthy (BOT_TOKEN cfg) then
    _ ← emit e;
    if sys_tg_rejects sys e then throw "fetch failed" else mret tt
  else mret tt.

Definition sendTelegramMessage (chat : string) (n : Notice) : M unit :=
  tg_request (TgSend chat n).

Definition adminIds : list string := envList (ADMIN_TELEGRAM_IDS cfg).

Definition shouldNotify (s : AdminSettings) (type : AdminType) : bool :=
  match type with
  | newUser => notifyNewUser s
  | newOrder => notifyNewOrder s
  | orderUpdate => notifyOrderUpdate s || notifyOrderStatus s
  | payment => notifyPayment s
  end.

Definition notifyAdminsByType (type : AdminType) : M unit :=
  for_each adminIds (fun adminId =>
    w ← get;
    match findUnique_telegramId adminId w with
    | None => mret tt
    | Some user =>
        match adminSettings w !! u_id user with
        | None => mret tt
        | Some settings =>
            when (shouldNotify settings type) (sendTelegramMessage adminId (NAdmin type))
        end
    end).

(** ** routes/api.ts: [POST /api/draft-order] *)

Record RequestItem := {
  ri_id : string;
  ri_quantity : number
}.

Record DraftOrderRequest := {
  rq_telegramId : string;
  rq_items : option (list RequestItem);
  rq_language : option string;
  rq_deliveryMethod : option string;
  rq_orderNote : option string;
  rq_locationLat : option number;
  rq_locationLng : option number;
  rq_addressDetails : option string;
  rq_addressExtra : option string
}.

Inductive Response :=
  | Http400 (error : string)
  | RespOrderName (orderName : string)
  | RespDraftId (draftId : string) (awaitingLocation : bool).

Definition fresh_id (w : World) : string := "id" +:+ pretty (next_id w).

(** [prisma.user.upsert({ where: { telegramId }, update: { language:
    body.language || undefined }, create: { ... } })] *)
Definition upsertUser (tid : string) (lang : option string) : M User :=
  w ← get;
  match findUnique_telegramId tid w with
  | Some u =>
      let u' := if opt_str_truthy lang then set_language lang u else u in
      _ ← modify (update_where (has_telegramId tid)
                    (fun x => if opt_str_truthy lang then set_language lang x else x));
      mret u'
  | None =>
      let u := {| u_id := fresh_id w; telegramId := tid; phoneNumber := None;
                  language := Some (default "uz" (truthy_str lang));
                  moskladCounterpartyId := None; defaultAddress := None;
                  pendingState := None; firstName := None; username := None;
                  lastOrderAt := None |} in
      _ ← modify (fun w => with_next_id (N.succ (next_id w)) (with_users (users w ++ [u]) w));
      mret u
  end.

(** [productMap.get(id)] for [new Map(products.map((p) => [p.id, p]))]:
    the last product carrying the id. *)
Definition productMap_get (products : list Product) (i : string) : option Product :=
  find (fun p => String.eqb (prod_id p) i) (rev products).

Definition draftItem (products : list Product) (item : RequestItem) : option DraftOrderItem :=
  match productMap_get products (ri_id item) with
  | None => None
  | Some product =>
      Some {| productId := prod_id product;
              item_name := prod_name product;
              item_price := Math_round (mul (prod_price product) (of_Z 100));
              item_quantity := Math_max (of_Z 1) (Math_round (ri_quantity item)) |}
  end.

Definition draftItems (products : list Product) (its : list RequestItem) : list DraftOrderItem :=
  omap (draftItem products) its.

Definition upsertDraft (user : User) (body : DraftOrderRequest)
    (note : option string) (its : list DraftOrderItem) : M DraftOrder :=
  w ← get;
  let did := match drafts w !! u_id user with
             | Some d => draft_id d
             | None => fresh_id w
             end in
  let d := {| draft_id := did; draft_userId := u_id user;
              deliveryMethod := truthy_str (rq_deliveryMethod body);
              orderNote := note;
              addressText := rq_addressDetails body;
              locationLat := rq_locationLat body;
              locationLng := rq_locationLng body;
              items := its |} in
  _ ← modify (fun w =>
         with_next_id (match drafts w !! u_id user with
                       | Some _ => next_id w
                       | None => N.succ (next_id w)
                       end)
           (with_drafts (<[u_id user := d]> (drafts w)) w));
  mret d.

(** [prisma.draftOrder.delete({ where: { userId } }).catch(() => {})] *)
Definition deleteDraft (userId : string) : M unit :=
  modify (fun w => with_drafts (delete userId (drafts w)) w).

Definition toOrderItem (i : DraftOrderItem) : OrderItem :=
  {| oi_id := productId i;
     oi_quantity := item_quantity i;
     oi_price := Some (div (item_price i) (of_Z 100)) |}.

Definition is_method (m : string) (o : option string) : bool :=
  match o with Some s => String.eqb s m | None => false end.

(** The end of the handler, once the draft is stored: the two
    immediate submissions, the address request through the bot, or
    the plain draft. [updateCounterpartyAddress(...).catch(() => {})]
    changes nothing here and is left out. *)
Definition submitDraft (user : User) (body : DraftOrderRequest)
    (note : option string) (its : list DraftOrderItem) (draft : DraftOrder) : M Response :=
  if is_method "pickup" (rq_deliveryMethod body) && opt_str_truthy (phoneNumber user) then
    try_catch
      (counterpartyId ← getOrCreateCounterparty (telegramId user)
          (default "" (phoneNumber user))
          (truthy_str (firstName user)) (truthy_str (username user));
       order ← createCustomerOrder counterpartyId (map toOrderItem its)
          {| di_deliveryMethod := Some "pickup"; di_orderNote := note;
             di_addressText := None; di_locationLat := None;
             di_locationLng := None; di_addressExtra := None |};
       _ ← deleteDraft (u_id user);
       _ ← sendTelegramMessage (telegramId user) NOrderReceived;
       mret (RespOrderName (co_name order)))
      (fun msg =>
         _ ← emit (ConsoleError "Failed to create pickup order:");
         mret (RespDraftId (draft_id draft) false))
  else if is_method "delivery" (rq_deliveryMethod body)
          && opt_str_truthy (phoneNumber user)
          && opt_num_truthy (rq_locationLat body)
          && opt_num_truthy (rq_locationLng body) then
    try_catch
      (counterpartyId ← getOrCreateCounterparty (telegramId user)
          (default "" (phoneNumber user))
          (truthy_str (firstName user)) (truthy_str (username user));
       order ← createCustomerOrder counterpartyId (map toOrderItem its)
          {| di_deliveryMethod := Some "delivery"; di_orderNote := note;
             di_addressText := truthy_str (rq_addressDetails body);
             di_locationLat := rq_locationLat body;
             di_locationLng := rq_locationLng body;
             di_addressExtra := truthy_str (rq_addressExtra body) |};
       _ ← deleteDraft (u_id user);
       _ ← sendTelegramMessage (telegramId user) NOrderReceived;
       let gpsString :=
         sys_numberToString sys (default zero (rq_locationLat body)) +:+ "," +:+
         sys_numberToString sys (default zero (rq_locationLng body)) in
       _ ← modify (update_where (has_id (u_id user))
                     (set_defaultAddress (Some gpsString)));
       mret (RespOrderName (co_name order)))
      (fun msg =>
         _ ← emit (ConsoleError "Failed to create delivery order:");
         mret (RespDraftId (draft_id draft) false))
  else if is_method "delivery" (rq_deliveryMethod body)
          && opt_str_truthy (phoneNumber user) then
    _ ← sendTelegramMessage (telegramId user) NAddressRequest;
    mret (RespDraftId (draft_id draft) true)
  else mret (RespDraftId (draft_id draft) false).

Definition touchLastOrder (userId : string) : M unit :=
  w ← get; modify (update_where (has_id userId) (set_lastOrderAt (now w))).

Definition postDraftOrder (body : DraftOrderRequest) : M Response :=
  user ← upsertUser (rq_telegramId body) (rq_language body);
  match rq_items body with
  | None | Some [] => mret (Http400 "Cart is empty")
  | Some reqItems =>
      products ← await (getProductsByIds (map ri_id reqItems));
      let its := draftItems products reqItems in
      match its with
      | [] => mret (Http400 "No valid items")
      | _ =>
          let note := truthy_str (option_map trim (rq_orderNote body)) in
          draft ← upsertDraft user body note its;
          _ ← touchLastOrder (u_id user);
          _ ← createOrderReminders (u_id user);
          submitDraft user body note its draft
      end
  end.

(** ** routes/api.ts: [POST /api/webhooks/mosklad] *)

Record Event := {
  ev_metaHref : option string;
  ev_href : option string;
  ev_entityHref : option string;
  ev_metaType : option string;
  ev_action : option string;
  ev_eventType : option string;
  ev_updatedFields : option (list string);
  ev_orderId : option string;
  ev_entityId : option string
}.

(** [href.match(/\/entity\/([^/?]+)/)] *)
Fixpoint extractType_chars (l : list ascii) : option (list ascii) :=
  match l with
  | [] => None
  | _ :: l' =>
      if starts_with (chars "/entity/") l then
        match before_char "/"%char (before_char "?"%char (drop 8 l)) with
        | [] => extractType_chars l'
        | seg => Some seg
        end
      else extractType_chars l'
  end.

Definition extractTypeFromHref (href : option string) : option string :=
  match truthy_str href with
  | None => None
  | Some h => option_map of_chars (extractType_chars (chars h))
  end.

Definition event_href (ev : Event) : option string :=
  or_str (ev_metaHref ev) (or_str (ev_href ev) (ev_entityHref ev)).

Definition eventAction (ev : Event) : string :=
  toUpperCase (default "" (truthy_str (or_str (ev_action ev) (ev_eventType ev)))).

Definition entityType (ev : Event) : option string :=
  or_str (ev_metaType ev) (extractTypeFromHref (event_href ev)).

Definition updatedFieldSet (ev : Event) : gset string :=
  list_to_set (map toLowerCase (default [] (ev_updatedFields ev))).

Definition has_field (ev : Event) (f : string) : bool :=
  bool_decide (f ∈ updatedFieldSet ev).

(** Modelled from the spec: cache.js is not among the sources. A marker
    set with a time to live of [ttl] seconds is found until it
    expires. *)
Definition cache_set (key : string) (ttl : Z) : M unit :=
  modify (fun w => with_cache (<[key := now w + ttl * 1000]> (cache w)) w).

Definition cache_get (key : string) (w : World) : bool :=
  match cache w !! key with
  | Some expiry => now w <? expiry
  | None => false
  end.

Definition entity_id (ev : Event) (marker : string) : option string :=
  or_str (ev_orderId ev)
    (or_str (ev_entityId ev) (DemandPdf.extractIdFromHref (event_href ev) marker)).

Definition counterpartyDeleteEvent (ev : Event) : M unit :=
  match DemandPdf.extractIdFromHref (event_href ev) "/entity/counterparty/" with
  | None => mret tt
  | Some counterpartyId =>
      w ← get;
      match findFirst_counterparty counterpartyId w with
      | None => mret tt
      | Some user =>
          _ ← modify (update_where (has_id (u_id user)) reset_registration);
          sendTelegramMessage (telegramId user) NCounterpartyDeleted
      end
  end.

Definition demandEvent (created : gset string) (ev : Event) : M (gset string) :=
  match truthy_str (entity_id ev "/entity/demand/") with
  | None => mret created
  | Some demandId =>
      if String.eqb (eventAction ev) "DELETE" then mret created
      else if has_field ev "applicable" then mret created
      else if has_field ev "payments" || has_field ev "payedsum" then mret created
      else
        demand ← await (getDemand env demandId);
        let demandPositions := catch_default (listDemandPositions env demandId) [] in
        match DemandPdf.extractIdFromHref (d_agentHref demand) "/entity/counterparty/" with
        | None => mret created
        | Some counterpartyId =>
            if bool_decide (d_applicable demand = Some false) then mret created
            else
              w ← get;
              match findFirst_counterparty counterpartyId w with
              | None => mret created
              | Some user =>
                  if String.eqb (eventAction ev) "CREATE" then
                    _ ← cache_set ("demand_created:" +:+ counterpartyId) 60;
                    _ ← sendTelegramMessage (telegramId user) (NDemandCreated (d_name demand));
                    _ ← emit (PdfReceiptJob (telegramId user) (d_name demand)
                                (DemandPdf.buildDemandPdfData env demand demandPositions));
                    _ ← notifyAdminsByType newOrder;
                    mret ({[counterpartyId]} ∪ created)
                  else
                    _ ← sendTelegramMessage (telegramId user) (NDemandUpdated (d_name demand));
                    mret created
              end
        end
  end.

Definition paymentEvent (isPaymentIn : bool) (ev : Event) : M unit :=
  if negb (String.eqb (eventAction ev) "CREATE") then mret tt
  else
    let marker := if isPaymentIn then "/entity/paymentin/" else "/entity/cashin/" in
    match DemandPdf.extractIdFromHref (event_href ev) marker with
    | None => mret tt
    | Some paymentId =>
        pay ← await (if isPaymentIn then fetch_paymentin env paymentId
                     else fetch_cashin env paymentId);
        match DemandPdf.extractIdFromHref (pay_agentHref pay) "/entity/counterparty/" with
        | None => mret tt
        | Some counterpartyId =>
            w ← get;
            match findFirst_counterparty counterpartyId w with
            | None => mret tt
            | Some user =>
                _ ← sendTelegramMessage (telegramId user) NPayment;
                notifyAdminsByType payment
            end
        end
    end.

Definition orderEvent (created : gset string) (ev : Event) : M unit :=
  match truthy_str (entity_id ev "/entity/customerorder/") with
  | None => mret tt
  | Some orderId =>
      if String.eqb (eventAction ev) "DELETE" then mret tt
      else
        order ← await (getCustomerOrder env orderId);
        if bool_decide (o_applicable order = Some false) then mret tt
        else
          match DemandPdf.extractIdFromHref (o_agentHref order) "/entity/counterparty/" with
          | None => mret tt
          | Some counterpartyId =>
              w ← get;
              match findFirst_counterparty counterpartyId w with
              | None => mret tt
              | Some user =>
                  if String.eqb (eventAction ev) "CREATE" then
                    _ ← sendTelegramMessage (telegramId user) (NOrderCreated (o_name order));
                    notifyAdminsByType newOrder
                  else if negb (bool_decide (counterpartyId ∈ created))
                          && negb (cache_get ("demand_created:" +:+ counterpartyId) w)
                          && negb (has_field ev "demands")
                          && negb (has_field ev "shipments")
                          && negb (has_field ev "payments")
                          && negb (has_field ev "payedsum") then
                    _ ← sendTelegramMessage (telegramId user) (NOrderUpdated (o_name order));
                    notifyAdminsByType orderUpdate
                  else mret tt
              end
          end
  end.

Definition is_type (t : string) (o : option string) : bool :=
  match o with Some s => String.eqb s t | None => false end.

(** The body of the [for (const event of events)] loop; [created] is
    [demandCreatedCounterparties]. *)
Definition processEvent (created : gset string) (ev : Event) : M (gset string) :=
  if is_type "counterparty" (entityType ev) && String.eqb (eventAction ev) "DELETE" then
    _ ← counterpartyDeleteEvent ev; mret created
  else if is_type "demand" (entityType ev) then demandEvent created ev
  else if is_type "paymentin" (entityType ev) then
    _ ← paymentEvent true ev; mret created
  else if is_type "cashin" (entityType ev) then
    _ ← paymentEvent false ev; mret created
  else
    _ ← orderEvent created ev; mret created.

Fixpoint processEvents (created : gset string) (events : list Event) : M unit :=
  match events with
  | [] => mret tt
  | ev :: rest => created' ← processEvent created ev; processEvents created' rest
  end.

Definition postWebhook (events : list Event) : M unit := processEvents ∅ events.

(** ** bot.ts: the order actions *)

Inductive Method := Pickup | Delivery.

Definition method_name (m : Method) : string :=
  match m with Pickup => "pickup" | Delivery => "delivery" end.

(** The updates of the order flow, after Telegraf has routed them:
    the inline buttons [delivery:(pickup|delivery)], [addr:useSaved],
    [order:(confirm|cancel)], a shared location, a shared contact, and a
    text message that reaches [bot.on("text")]. *)
Inductive Action :=
  | ADelivery (m : Method)
  | AUseSaved
  | AConfirm
  | ACancel
  | ALocation (lat lng : number)
  | AText (text : string)
  | AContact (own : bool) (phone : string) (first uname : option string).

Definition is_callback (a : Action) : bool :=
  match a with
  | ADelivery _ | AUseSaved | AConfirm | ACancel => true
  | _ => false
  end.

(** [ctx.reply(...)] *)
Definition reply (chat : string) (r : Reply) : M unit :=
  _ ← emit (BotReply chat r);
  if sys_tg_rejects sys (BotReply chat r) then throw "telegram request failed" else mret tt.

(** [ctx.answerCbQuery()] *)
Definition answerCbQuery (chat : string) : M unit :=
  _ ← emit (BotAnswerCbQuery chat);
  if sys_tg_rejects sys (BotAnswerCbQuery chat) then throw "telegram request failed" else mret tt.

Definition ignore_failure (m : M unit) : M unit := try_catch m (fun _ => mret tt).

Definition getUser (from : string) : M (option User) :=
  w ← get; mret (findUnique_telegramId from w).

Definition getDraftOrder (userId : string) : M (option DraftOrder) :=
  w ← get; mret (drafts w !! userId).

Definition clearDraft (userId : string) : M unit := deleteDraft userId.

Definition update_draft (userId : string) (f : DraftOrder -> DraftOrder) : M unit :=
  modify (fun w => with_drafts (alter f userId (drafts w)) w).

Definition choose_method (m : string) (d : DraftOrder) : DraftOrder :=
  {| draft_id := draft_id d; draft_userId := draft_userId d;
     deliveryMethod := Some m; orderNote := orderNote d;
     addressText := None; locationLat := None; locationLng := None;
     items := items d |}.

Definition set_address (a : option string) (loc : option (number * number))
    (d : DraftOrder) : DraftOrder :=
  {| draft_id := draft_id d; draft_userId := draft_userId d;
     deliveryMethod := deliveryMethod d; orderNote := orderNote d;
     addressText := a;
     locationLat := match loc with Some (lat, _) => Some lat | None => locationLat d end;
     locationLng := match loc with Some (_, lng) => Some lng | None => locationLng d end;
     items := items d |}.

Definition set_location (lat lng : number) (d : DraftOrder) : DraftOrder :=
  {| draft_id := draft_id d; draft_userId := draft_userId d;
     deliveryMethod := deliveryMethod d; orderNote := orderNote d;
     addressText := addressText d;
     locationLat := Some lat; locationLng := Some lng;
     items := items d |}.

(** [draft.deliveryMethod === "delivery" && !draft.addressText &&
    !draft.locationLat] *)
Definition needsAddress (d : DraftOrder) : bool :=
  is_method "delivery" (deliveryMethod d)
  && negb (opt_str_truthy (addressText d))
  && negb (opt_num_truthy (locationLat d)).

Definition isMenuText (text lang : string) : bool :=
  let cleaned := trim text in
  let base := ["📦 Buyurtmalar"; "📦 Буюртмалар"; "📦 Заказы"; "💰 Balans"; "💰 Баланс";
               "🌐 Til"; "🌐 Тил"; "🌐 Язык"; "⚙️ Sozlamalar"; "⚙️ Созламалар";
               "⚙️ Настройки"]
              ++ (if String.eqb lang "uz" then ["🛍 Do'konni ochish"] else [])
              ++ (if String.eqb lang "uzc" then ["🛍 Дўконни очиш"] else [])
              ++ (if String.eqb lang "ru" then ["🛍 Открыть магазин"] else []) in
  existsb (String.eqb cleaned) base.

Definition isSavedAddressChoice (text address : string) : bool :=
  String.eqb (trim text) (sys_formatAddress sys address).

Definition sendOrderConfirmation (chat userId : string) : M unit :=
  draft ← getDraftOrder userId;
  match draft with
  | None => reply chat RCartEmpty
  | Some d =>
      match items d with
      | [] => reply chat RCartEmpty
      | _ => reply chat ROrderSummary
      end
  end.

Definition askForAddressOrLocation (chat : string) : M unit := reply chat RSendAddress.

Definition handleCounterpartyDeleted (from : string) : M unit :=
  _ ← modify (update_where (has_telegramId from) reset_registration);
  reply from RCounterpartyDeleted.

Definition onDelivery (from : string) (m : Method) : M unit :=
  user ← getUser from;
  match user with
  | None => reply from RRegisterPrompt
  | Some u =>
      if negb (opt_str_truthy (phoneNumber u)) then reply from RRegisterPrompt
      else
        draft ← getDraftOrder (u_id u);
        match draft with
        | None => reply from RCartEmpty
        | Some _ =>
            _ ← update_draft (u_id u) (choose_method (method_name m));
            _ ← answerCbQuery from;
            match m with
            | Pickup => sendOrderConfirmation from (u_id u)
            | Delivery => askForAddressOrLocation from
            end
        end
  end.

Definition savedLocation (u : User) : option (number * number) :=
  if opt_str_truthy (moskladCounterpartyId u)
  then sys_counterpartyLocation sys (default "" (moskladCounterpartyId u))
  else None.

Definition onUseSaved (from : string) : M unit :=
  user ← getUser from;
  match user with
  | None => answerCbQuery from
  | Some u =>
      if negb (opt_str_truthy (defaultAddress u)) then answerCbQuery from
      else
        draft ← getDraftOrder (u_id u);
        match draft with
        | None => answerCbQuery from
        | Some d =>
            if negb (is_method "delivery" (deliveryMethod d)) then answerCbQuery from
            else if opt_str_truthy (addressText d) || opt_num_truthy (locationLat d)
            then answerCbQuery from
            else
              _ ← update_draft (u_id u) (set_address (defaultAddress u) (savedLocation u));
              _ ← answerCbQuery from;
              sendOrderConfirmation from (u_id u)
        end
  end.

Definition onCancel (from : string) : M unit :=
  user ← getUser from;
  match user with
  | None => reply from RRegisterPrompt
  | Some u =>
      if negb (opt_str_truthy (phoneNumber u)) then reply from RRegisterPrompt
      else
        _ ← clearDraft (u_id u);
        _ ← answerCbQuery from;
        reply from ROrderCancelled
  end.

Definition draftOrderItem (i : DraftOrderItem) : OrderItem := toOrderItem i.

Definition onConfirm (from : string) : M unit :=
  user ← getUser from;
  match user with
  | None => reply from RRegisterPrompt
  | Some u =>
      if negb (opt_str_truthy (phoneNumber u)) then reply from RRegisterPrompt
      else
        draft ← getDraftOrder (u_id u);
        match draft with
        | None => reply from RCartEmpty
        | Some d =>
            match items d with
            | [] => reply from RCartEmpty
            | _ =>
                if negb (opt_str_truthy (deliveryMethod d))
                then reply from RChooseDelivery
                else if needsAddress d then askForAddressOrLocation from
                else
                  resolved ←
                    try_catch
                      (k ← getOrCreateCounterparty (telegramId u)
                             (default "" (phoneNumber u))
                             (truthy_str (firstName u)) (truthy_str (username u));
                       mret (Some k))
                      (fun msg =>
                         if String.eqb msg "COUNTERPARTY_DELETED" then
                           _ ← answerCbQuery from;
                           _ ← handleCounterpartyDeleted from;
                           mret None
                         else throw msg);
                  match resolved with
                  | None => mret tt
                  | Some counterpartyId =>
                      _ ← createCustomerOrder counterpartyId (map draftOrderItem (items d))
                            {| di_deliveryMethod := deliveryMethod d;
                               di_orderNote := truthy_str (orderNote d);
                               di_addressText := addressText d;
                               di_locationLat := locationLat d;
                               di_locationLng := locationLng d;
                               di_addressExtra := None |};
                      _ ← clearDraft (u_id u);
                      _ ← answerCbQuery from;
                      reply from ROrderCreated
                  end
            end
        end
  end.

Definition onLocation (from : string) (lat lng : number) : M unit :=
  user ← getUser from;
  match user with
  | None => reply from RRegisterPrompt
  | Some u =>
      if negb (opt_str_truthy (phoneNumber u)) then reply from RRegisterPrompt
      else
        draft ← getDraftOrder (u_id u);
        match draft with
        | None => mret tt
        | Some d =>
            if negb (is_method "delivery" (deliveryMethod d)) then mret tt
            else
              _ ← update_draft (u_id u) (set_location lat lng);
              _ ← reply from RLocationSaved;
              sendOrderConfirmation from (u_id u)
        end
  end.

Definition onText (from : string) (textRaw : string) : M unit :=
  let text := trim textRaw in
  if startsWith text "/" then mret tt
  else
    user ← getUser from;
    match user with
    | None => reply from RShareContactHint
    | Some u =>
        if negb (opt_str_truthy (phoneNumber u)) then reply from RShareContactHint
        else
          draft ← getDraftOrder (u_id u);
          match draft with
          | Some d =>
              if needsAddress d then
                if isMenuText text (lang_of u) then clearDraft (u_id u)
                else
                  let usingSaved :=
                    opt_str_truthy (defaultAddress u)
                    && isSavedAddressChoice text (default "" (defaultAddress u)) in
                  let addressToSave :=
                    if usingSaved then default "" (defaultAddress u) else text in
                  let loc :=
                    if usingSaved then savedLocation u
                    else sys_parseLatLng sys addressToSave in
                  _ ← update_draft (u_id u) (set_address (Some addressToSave) loc);
                  sendOrderConfirmation from (u_id u)
              else reply from RMenuHint
          | None => reply from RMenuHint
          end
    end.

(** [notifyAdminsByType] of bot.ts: a failed send is swallowed. *)
Definition botNotifyAdmins (type : AdminType) : M unit :=
  for_each adminIds (fun adminId =>
    w ← get;
    match findUnique_telegramId adminId w with
    | None => mret tt
    | Some user =>
        match adminSettings w !! u_id user with
        | None => mret tt
        | Some settings =>
            when (shouldNotify settings type) (emit (TgSend adminId (NAdmin type)))
        end
    end).

Definition set_contact (phone : string) (first uname : option string) (u : User) : User :=
  {| u_id := u_id u; telegramId := telegramId u; phoneNumber := Some phone;
     language := language u; moskladCounterpartyId := moskladCounterpartyId u;
     defaultAddress := defaultAddress u; pendingState := pendingState u;
     firstName := truthy_str first; username := truthy_str uname;
     lastOrderAt := lastOrderAt u |}.

Definition upsertContact (tid phone : string) (first uname : option string) : M unit :=
  w ← get;
  match findUnique_telegramId tid w with
  | Some _ => modify (update_where (has_telegramId tid) (set_contact phone first uname))
  | None =>
      let u := {| u_id := fresh_id w; telegramId := tid; phoneNumber := Some phone;
                  language := None; moskladCounterpartyId := None;
                  defaultAddress := None; pendingState := None;
                  firstName := truthy_str first; username := truthy_str uname;
                  lastOrderAt := None |} in
      modify (fun w => with_next_id (N.succ (next_id w)) (with_users (users w ++ [u]) w))
  end.

Definition onContact (from : string) (own : bool) (phone : string)
    (first uname : option string) : M unit :=
  if negb own then reply from RContactSelfOnly
  else
    _ ← upsertContact from phone first uname;
    let existingId := catch_default (findCounterpartyByPhone phone) None in
    match existingId with
    | Some existing =>
        _ ← modify (update_where
                      (fun u => links existing u && negb (has_telegramId from u))
                      (set_counterparty None));
        _ ← modify (update_where (has_telegramId from)
                      (set_counterparty_pending (Some existing)));
        _ ← ignore_failure (updateCounterpartyAttrs existing from (truthy_str uname));
        _ ← botNotifyAdmins newUser;
        _ ← reply from RRegistered;
        reply from RWelcome
    | None =>
        _ ← try_catch
              (k ← createCounterparty from phone
                     (default phone (truthy_str first)) (truthy_str uname);
               modify (update_where (has_telegramId from) (set_counterparty (Some k))))
              (fun _ => emit (ConsoleError "Failed to create counterparty on registration:"));
        _ ← botNotifyAdmins newUser;
        _ ← reply from RRegistered;
        reply from RWelcome
    end.

(** The registration guard: everything but [/start], the language
    buttons and a shared contact needs a linked counterparty. *)
Definition registered (from : string) (a : Action) : M bool :=
  match a with
  | AContact _ _ _ _ => mret true
  | _ =>
      let start := match a with AText t => startsWith t "/start" | _ => false end in
      if start then mret true
      else
        user ← getUser from;
        match user with
        | Some u =>
            if opt_str_truthy (moskladCounterpartyId u) then mret true
            else
              _ ← when (is_callback a) (ignore_failure (answerCbQuery from));
              _ ← reply from RNotRegistered; mret false
        | None =>
            _ ← when (is_callback a) (ignore_failure (answerCbQuery from));
            _ ← reply from RNotRegistered; mret false
        end
  end.

(** The second middleware: a command or menu entry sent while an
    address is awaited discards the draft. *)
Definition draftCancel (from : string) (a : Action) : M unit :=
  match a with
  | AText textRaw =>
      let text := trim textRaw in
      if negb (str_truthy text) then mret tt
      else
        user ← getUser from;
        match user with
        | None => mret tt
        | Some u =>
            draft ← getDraftOrder (u_id u);
            match draft with
            | Some d =>
                if needsAddress d
                then when (startsWith text "/" || isMenuText text (lang_of u))
                          (clearDraft (u_id u))
                else mret tt
            | None => mret tt
            end
        end
  | _ => mret tt
  end.

Definition route (from : string) (a : Action) : M unit :=
  match a with
  | ADelivery m => onDelivery from m
  | AUseSaved => onUseSaved from
  | AConfirm => onConfirm from
  | ACancel => onCancel from
  | ALocation lat lng => onLocation from lat lng
  | AText t => onText from t
  | AContact own phone first uname => onContact from own phone first uname
  end.

(** One update, middlewares first, under [bot.catch]. *)
Definition botUpdate (from : string) (a : Action) : M unit :=
  try_catch
    (ok ← registered from a;
     match ok with
     | true => _ ← draftCancel from a; route from a
     | false => mret tt
     end)
    (fun msg =>
       _ ← emit (ConsoleError msg);
       emit (BotReply from RTryLater)).

End WithSys.
End Backend.

(* ===================================================================== *)
(** * Concrete systems and stores used by the examples                     *)
(* ===================================================================== *)

Module Scenario.
Import JS Erp Backend.


Definition row (id nm : string) (qty priceMinor : Z) : PositionRow :=
  {| row_quantity := of_Z qty;
     row_price := Some (of_Z priceMinor);
     row_assortmentName := Some nm;
     row_assortmentHref := Some ("https://api.moysklad.ru/api/remap/1.2/entity/product/" +:+ id) |}.

Definition counterpartyHref (k : string) : string :=
  "https://api.moysklad.ru/api/remap/1.2/entity/counterparty/" +:+ k.

Definition orderHref (o : string) : string :=
  "https://api.moysklad.ru/api/remap/1.2/entity/customerorder/" +:+ o.

Definition demandHref (d : string) : string :=
  "https://api.moysklad.ru/api/remap/1.2/entity/demand/" +:+ d.

(** Order [O1] of counterparty [K1]: lines (A, 10, 100.00) and
    (B, 5, 200.00); shipments [D1] = [(A, 4)] and [D2] = [(A, 3), (B, 5)];
    a third shipment [D3] is being issued. *)
Definition order1 (sum : option number) (applicable : option bool) : CustomerOrder :=
  {| o_id := "O1"; o_name := "00001"; o_applicable := applicable;
     o_sum := sum; o_payedSum := None;
     o_agentHref := Some (counterpartyHref "K1");
     o_demands := Some [ {| dr_id := "D1" |}; {| dr_id := "D2" |} ] |}.

Definition demand3 : Demand :=
  {| d_id := "D3"; d_name := "00003"; d_applicable := Some true;
     d_sum := Some (of_Z 30000);
     d_agentHref := Some (counterpartyHref "K1");
     d_customerOrderHref := Some (orderHref "O1") |}.

Definition product (id nm : string) (priceMinor : Z) : MoyskladProduct :=
  {| mp_id := id; mp_name := nm;
     mp_salePrices := Some [ {| sp_value := of_Z priceMinor;
                                sp_priceTypeName := Some "Цена продажи" |} ] |}.

(** A reachable ERP holding the order above, two products and the
    counterparty [K1] (phone [+998901112233]). *)
Definition erp1 (sum : option number) (applicable : option bool) : Env :=
  {| fetch_counterparty := fun k =>
       if String.eqb k "K1" then Ok tt else Throw "Mosklad request failed: 404 not found";
     fetch_counterpartyByPhone := fun p =>
       if String.eqb p "+998901112233" then Ok ["K1"] else Ok [];
     post_counterparty := fun _ phone _ => Ok ("new-" +:+ phone);
     put_counterparty := fun _ => Ok tt;
     post_customerorder := fun _ => Ok {| co_id := "O9"; co_name := "00009" |};
     fetch_customerorder := fun o =>
       if String.eqb o "O1" then Ok (order1 sum applicable)
       else Throw "Mosklad request failed: 404 not found";
     fetch_orderPositions := fun o =>
       if String.eqb o "O1" then Ok [row "A" "Widget A" 10 10000; row "B" "Widget B" 5 20000]
       else Throw "Mosklad request failed: 404 not found";
     fetch_orderDemands := fun _ => Ok tt;
     fetch_demand := fun d =>
       if String.eqb d "D3" then Ok demand3
       else Throw "Mosklad request failed: 404 not found";
     fetch_demandPositions := fun d =>
       if String.eqb d "D1" then Ok [row "A" "Widget A" 4 10000]
       else if String.eqb d "D2" then Ok [row "A" "Widget A" 3 10000; row "B" "Widget B" 5 20000]
       else if String.eqb d "D3" then Ok [row "A" "Widget A" 1 10000]
       else Throw "Mosklad request failed: 404 not found";
     fetch_paymentin := fun p =>
       if String.eqb p "P1"
       then Ok {| pay_sum := Some (of_Z 50000); pay_agentHref := Some (counterpartyHref "K1") |}
       else Throw "Mosklad request failed: 404 not found";
     fetch_cashin := fun _ => Throw "Mosklad request failed: 404 not found";
     fetch_balance := fun _ => Ok (Some (of_Z (-30000)));
     fetch_currency := Ok (Some "UZS");
     fetch_stock := Ok tt;
     fetch_product := fun i =>
       if String.eqb i "A" then Ok (product "A" "Widget A" 10000)
       else if String.eqb i "B" then Ok (product "B" "Widget B" 20000)
       else Throw "Mosklad request failed: 404 not found";
     fetch_defaultOrganization := Ok (Some "org");
     fetch_defaultStore := Ok (Some "store") |}.

Definition config : Config :=
  {| BOT_TOKEN := Some "123:abc";
     ADMIN_TELEGRAM_IDS := Some "900, 901";
     REMINDER_DAYS_AFTER_ORDER := None;
     MOSKLAD_ORGANIZATION_ID := None;
     MOSKLAD_STORE_ID := None;
     MOSKLAD_COUNTERPARTY_USERNAME_ATTR := None;
     MOSKLAD_COUNTERPARTY_TELEGRAM_ID_ATTR := None |}.

Definition system (e : Env) : Sys :=
  {| sys_erp := e; sys_cfg := config;
     sys_tg_rejects := fun _ => false;
     sys_numberToString := fun _ => "0";
     sys_parseLatLng := fun _ => None;
     sys_formatAddress := fun a => a;
     sys_counterpartyLocation := fun _ => None |}.

Definition sys1 : Sys := system (erp1 None None).


Definition mkUser (uid tid : string) (phone cp : option string) : User :=
  {| u_id := uid; telegramId := tid; phoneNumber := phone; language := Some "uz";
     moskladCounterpartyId := cp; defaultAddress := Some "Tashkent, Amir Temur 1";
     pendingState := None; firstName := Some "Ali"; username := None;
     lastOrderAt := None |}.

Definition alice : User := mkUser "u1" "100" (Some "+998901112233") (Some "K1").
Definition bob : User := mkUser "u2" "200" (Some "+998901112233") None.
Definition admin : User := mkUser "u9" "900" (Some "+998909999999") (Some "K9").

Definition allOn : AdminSettings :=
  {| notifyNewUser := true; notifyNewOrder := true; notifyOrderStatus := true;
     notifyOrderUpdate := true; notifyPayment := true |}.

Definition world (us : list User) (ds : list DraftOrder) : World :=
  {| users := us;
     drafts := list_to_map (map (fun d => (draft_userId d, d)) ds);
     reminders := [];
     adminSettings := {[ "u9" := allOn ]};
     cache := ∅;
     now := 1700000000000;
     next_id := 1;
     trace := [] |}.

Definition item (id nm : string) (priceMinor qty : Z) : DraftOrderItem :=
  {| productId := id; item_name := nm; item_price := of_Z priceMinor;
     item_quantity := of_Z qty |}.

Definition draftOf (uid : string) (method : option string) (addr : option string)
    (lat : option number) : DraftOrder :=
  {| draft_id := "d1"; draft_userId := uid; deliveryMethod := method;
     orderNote := None; addressText := addr; locationLat := lat; locationLng := lat;
     items := [item "A" "Widget A" 50000 1; item "B" "Widget B" 30000 2] |}.

Definition event (type action : string) (href : string) (fields : list string) : Event :=
  {| ev_metaHref := Some href; ev_href := None; ev_entityHref := None;
     ev_metaType := Some type; ev_action := Some action; ev_eventType := None;
     ev_updatedFields := Some fields; ev_orderId := None; ev_entityId := None |}.

Definition request (tid : string) (its : list RequestItem) (method : option string) : DraftOrderRequest :=
  {| rq_telegramId := tid; rq_items := Some its; rq_language := None;
     rq_deliveryMethod := method; rq_orderNote := None;
     rq_locationLat := None; rq_locationLng := None;
     rq_addressDetails := None; rq_addressExtra := None |}.

Definition tg_sends (chat : string) (t : list Effect) : list Notice :=
  omap (fun e => match e with
                 | TgSend c n => if String.eqb c chat then Some n else None
                 | _ => None
                 end) t.
End Scenario.

(* ===================================================================== *)
(** * mosklad.ts: paging, categories, the stock cache, hrefs               *)
(* ===================================================================== *)

Module Gateway.
Import JS Erp.

(** ** [fetchAllPages] *)

(** One answer of a listing: [meta.size], when the answer has it, and
    [rows]. *)
Record Page (T : Type) := {
  pg_size : option nat;
  pg_rows : list T
}.
Arguments pg_size {T} _.
Arguments pg_rows {T} _.

Section Paging.
Context {T : Type}.

(** [moskladFetch(`${basePath}${sep}limit=${limit}&offset=${offset}`)]
    for the path at hand. *)
Variable fetch : nat -> nat -> Outcome (Page T).

(** The [while (true)] loop, [fuel] iterations of it; [None] when the
    loop has not left by then. *)
Fixpoint fetchAllPages_from (fuel offset : nat) (allRows : list T) : option (Outcome (list T)) :=
  match fuel with
  | O => None
  | S fuel' =>
      match fetch 100 offset with
      | Throw m => Some (Throw m)
      | Ok data =>
          let allRows' := allRows ++ pg_rows data in
          let offset' := (offset + length (pg_rows data))%nat in
          if (length (pg_rows data) =? 0)%nat || (default 0%nat (pg_size data) <=? offset')%nat
          then Some (Ok allRows')
          else fetchAllPages_from fuel' offset' allRows'
      end
  end.

Definition fetchAllPages (fuel : nat) : option (Outcome (list T)) :=
  fetchAllPages_from fuel 0 [].
End Paging.

(** ** [listCategories] *)

Record Category := { cat_id : string; cat_name : string }.

Definition listCategories (fetch : nat -> nat -> Outcome (Page Category)) (fuel : nat)
    : option (Outcome (list Category)) :=
  match fetchAllPages fetch fuel with
  | None => None
  | Some (Throw m) => Some (Throw m)
  | Some (Ok []) => Some (Ok [ {| cat_id := "all"; cat_name := "All products" |} ])
  | Some (Ok rows) =>
      Some (Ok (map (fun row => {| cat_id := cat_id row; cat_name := cat_name row |}) rows))
  end.

(** ** [getStockMap] and its cache *)

(** [Math.floor(x)]: the greatest integer not above [x]. *)
Definition Math_floor (x : number) : number :=
  match x with
  | S754_finite s m (Zneg k) =>
      binary_normalize prec emax (Z.shiftr (if s then Z.neg m else Z.pos m) (Zpos k)) 0 s
  | _ => x
  end.

Record StockRow := {
  sr_type : string;
  sr_href : string;
  sr_stock : number
}.

(** [_stockCache] *)
Record StockCache := {
  sc_data : gmap string number;
  sc_expiresAt : Z
}.

(** [parts[parts.length - 1].split("?")[0]] for [parts = href.split("/")] *)
Definition lastSegmentId (href : string) : string :=
  of_chars (before_char "?"%char (last_segment [] (chars href))).

(** The body of [for (const row of data.rows)]. *)
Definition stockStep (map : gmap string number) (row : StockRow) : gmap string number :=
  if negb (String.eqb (sr_type row) "product") then map
  else
    let id := lastSegmentId (sr_href row) in
    if str_truthy id
    then <[id := Math_max zero (Math_floor (sr_stock row))]> map
    else map.

(** [getStockMap()] at the time [now], [fetch] being the answer of the ERP
    to the stock report should it be asked; the result comes with the new
    value of [_stockCache]. *)
Definition getStockMap (now : Z) (fetch : Outcome (list StockRow))
    (cache : option StockCache) : Outcome (gmap string number) * option StockCache :=
  let refresh :=
    match fetch with
    | Throw m => (Throw m, cache)
    | Ok rows =>
        let map := fold_left stockStep rows ∅ in
        (Ok map, Some {| sc_data := map; sc_expiresAt := now + 5 * 60 * 1000 |})
    end in
  match cache with
  | Some c => if now <? sc_expiresAt c then (Ok (sc_data c), cache) else refresh
  | None => refresh
  end.

(** ** [buildCustomEntityHref] *)

Section Hrefs.
(** [process.env.MOSKLAD_BASE_URL || "https://api.moysklad.ru/api/remap/1.2"] *)
Variable baseUrl : string.

End Hrefs.

End Gateway.

(* ===================================================================== *)
(** * bot.ts and routes/api.ts: text for HTML messages                     *)
(* ===================================================================== *)

Module Text.
Import JS Erp.

(** [l.replace(/c/g, by)] for a single code unit [c]. *)
Definition replaceAll (c : ascii) (by_ : string) (l : list ascii) : list ascii :=
  flat_map (fun x => if Ascii.eqb x c then chars by_ else [x]) l.

Definition escapeHtml (text : string) : string :=
  of_chars (replaceAll ">"%char "&gt;"
              (replaceAll "<"%char "&lt;"
                 (replaceAll "&"%char "&amp;" (chars text)))).

(** [s.padEnd(n, " ")] *)
Definition padEnd (s : string) (n : nat) : string :=
  s +:+ of_chars (replicate (n - String.length s) " "%char).

(** [s.slice(0, n)] for [n >= 0] *)
Definition slice0 (s : string) (n : nat) : string := of_chars (take n (chars s)).

Definition newline : string := String (ascii_of_nat 10) EmptyString.

(** [lines.join("\n")] *)
Definition joinLines (lines : list string) : string := String.concat newline lines.

(** [Math.min(40, items.reduce((max, item) => Math.max(max, item.name.length), 0))] *)
Definition maxNameLen (items : list Position) : nat :=
  Nat.min 40 (fold_left (fun mx item => Nat.max mx (String.length (name item))) items 0%nat).

(** The name of a row, cut and padded to the width of the column;
    [Math.max(0, maxNameLen - 3)] is the subtraction of [nat]. *)
Definition paddedName (width : nat) (item : Position) : string :=
  let trimmed :=
    if (width <? String.length (name item))%nat
    then slice0 (name item) (width - 3) +:+ "..."
    else name item in
  padEnd trimmed width.

Section Tables.
(** [String(x)] on a number *)
Variable numberToString : number -> string.

(** [rows] of [formatOrderItemsTable] *)
Definition tableRows (items : list Position) : list string :=
  map (fun item => paddedName (maxNameLen items) item +:+ "  x"
                   +:+ numberToString (quantity item)) items.

(** [formatOrderItemsTable(items, title)] of bot.ts *)
Definition formatOrderItemsTable (items : list Position) (title : string) : string :=
  let safeTitle := escapeHtml title in
  let safeRows := joinLines (map escapeHtml (tableRows items)) in
  "<b>" +:+ safeTitle +:+ ":</b>" +:+ newline +:+ "<pre>" +:+ safeRows +:+ "</pre>".
End Tables.

End Text.

(* ===================================================================== *)
(** * Telegraf: what a handler of bot.ts or a worker asks of Telegram       *)
(* ===================================================================== *)

Module Telegraf.
Import JS Erp Backend.

(** [Markup.button.callback(text, data)] *)
Record Button := { bt_text : string; bt_data : string }.

(** The requests of a handler to Telegram. *)
Inductive Call :=
  | AnswerCbQuery (chat : string)
  | Reply (chat text : string) (keyboard : list (list Button))
  | EditMessageText (chat text : string) (keyboard : list (list Button))
  | SendMessage (chat text : string).

(** The store, and the requests made so far. *)
Record Chat := { store : World; calls : list Call }.

(** A handler: state passing with exceptions, as [M] is over [World]. *)
Definition Handler (A : Type) : Type := Chat -> Outcome A * Chat.

Definition ret {A} (a : A) : Handler A := fun s => (Ok a, s).

Definition bind {A B} (m : Handler A) (f : A -> Handler B) : Handler B := fun s =>
  match m s with
  | (Ok a, s') => f a s'
  | (Throw msg, s') => (Throw msg, s')
  end.

(** [try { m } catch { h }] *)
Definition orElse {A} (m : Handler A) (h : Handler A) : Handler A := fun s =>
  match m s with
  | (Ok a, s') => (Ok a, s')
  | (Throw _, s') => h s'
  end.

Definition read : Handler World := fun s => (Ok (store s), s).

Definition write (f : World -> World) : Handler unit := fun s =>
  (Ok tt, {| store := f (store s); calls := calls s |}).

(** [rejects c] tells that the request [c] rejects. *)
Definition call (rejects : Call -> bool) (c : Call) : Handler unit := fun s =>
  let s' := {| store := store s; calls := calls s ++ [c] |} in
  if rejects c then (Throw "telegram request failed", s') else (Ok tt, s').

(** [console.error(msg, err)] *)
Definition consoleError (msg : string) : Handler unit :=
  write (fun w => with_trace (trace w ++ [ConsoleError msg]) w).

End Telegraf.

(* ===================================================================== *)
(** * bot.ts: the panel of the administrators                              *)
(* ===================================================================== *)

Module AdminPanel.
Import JS Erp Backend Telegraf.

Record AdminPanelStates := {
  st_newUser : bool;
  st_newOrder : bool;
  st_orderUpdate : bool;
  st_payment : bool
}.

(** [${b ? 1 : 0}] *)
Definition digit (b : bool) : string := if b then "1" else "0".

Definition encodeAdminStates (s : AdminPanelStates) : string :=
  "nu" +:+ digit (st_newUser s) +:+ "no" +:+ digit (st_newOrder s)
  +:+ "ou" +:+ digit (st_orderUpdate s) +:+ "pm" +:+ digit (st_payment s).

Definition decodeAdminStates (code : string) : AdminPanelStates :=
  {| st_newUser := includes code "nu1";
     st_newOrder := includes code "no1";
     st_orderUpdate := includes code "ou1";
     st_payment := includes code "pm1" |}.

(** [states[field]] and [states[field] = !states[field]], the fields
    being named as the notices are. *)
Definition field (f : AdminType) (s : AdminPanelStates) : bool :=
  match f with
  | newUser => st_newUser s
  | newOrder => st_newOrder s
  | orderUpdate => st_orderUpdate s
  | payment => st_payment s
  end.

Definition toggle (f : AdminType) (s : AdminPanelStates) : AdminPanelStates :=
  match f with
  | newUser => {| st_newUser := negb (st_newUser s); st_newOrder := st_newOrder s;
                  st_orderUpdate := st_orderUpdate s; st_payment := st_payment s |}
  | newOrder => {| st_newUser := st_newUser s; st_newOrder := negb (st_newOrder s);
                   st_orderUpdate := st_orderUpdate s; st_payment := st_payment s |}
  | orderUpdate => {| st_newUser := st_newUser s; st_newOrder := st_newOrder s;
                      st_orderUpdate := negb (st_orderUpdate s); st_payment := st_payment s |}
  | payment => {| st_newUser := st_newUser s; st_newOrder := st_newOrder s;
                  st_orderUpdate := st_orderUpdate s; st_payment := negb (st_payment s) |}
  end.

Record Labels := {
  lb_title : string;
  lb_newUser : string;
  lb_newOrder : string;
  lb_orderUpdate : string;
  lb_payment : string;
  lb_save : string;
  lb_back : string;
  lb_saved : string
}.

Definition getAdminPanelLabels (lang : string) : Labels :=
  if String.eqb lang "ru" then
    {| lb_title := "⚙️ Настройки уведомлений:";
       lb_newUser := "Новый пользователь";
       lb_newOrder := "Новый заказ";
       lb_orderUpdate := "Обновление заказа";
       lb_payment := "Платёж получен";
       lb_save := "Сохранить";
       lb_back := "Назад";
       lb_saved := "✅ Настройки сохранены." |}
  else if String.eqb lang "uzc" then
    {| lb_title := "⚙️ Билдиришнома созламалари:";
       lb_newUser := "Янги фойдаланувчи";
       lb_newOrder := "Янги буюртма";
       lb_orderUpdate := "Буюртма янгиланди";
       lb_payment := "Тўлов қабул қилинди";
       lb_save := "Сақлаш";
       lb_back := "Орқага";
       lb_saved := "✅ Созламалар сақланди." |}
  else
    {| lb_title := "⚙️ Bildirishnoma sozlamalari:";
       lb_newUser := "Yangi foydalanuvchi";
       lb_newOrder := "Yangi buyurtma";
       lb_orderUpdate := "Buyurtma yangilandi";
       lb_payment := "To'lov qabul qilindi";
       lb_save := "Saqlash";
       lb_back := "Orqaga";
       lb_saved := "✅ Sozlamalar saqlandi." |}.

#[local] Notation "x ← m ; k" := (bind m (fun x => k))
  (at level 20, m at level 100, k at level 200, only parsing).

Section Handlers.
Variable sys : Sys.

Variable rejects : Call -> bool.

(** [getAdminIds().includes(String(telegramId))] *)
Definition isAdmin (telegramId : string) : bool :=
  bool_decide (telegramId ∈ adminIds sys).

(** [baseStates] of [showAdminPanel] *)
Definition baseStates (settings : option AdminSettings) : AdminPanelStates :=
  match settings with
  | Some s => {| st_newUser := notifyNewUser s;
                 st_newOrder := notifyNewOrder s;
                 st_orderUpdate := notifyOrderUpdate s || notifyOrderStatus s;
                 st_payment := notifyPayment s |}
  | None => {| st_newUser := false; st_newOrder := false;
               st_orderUpdate := false; st_payment := false |}
  end.

Definition flag (v : bool) : string := if v then "✅" else "❌".

Definition keyboardOf (labels : Labels) (base states : AdminPanelStates)
    : list (list Button) :=
  let hasChanges :=
    negb (Bool.eqb (st_newUser states) (st_newUser base))
    || negb (Bool.eqb (st_newOrder states) (st_newOrder base))
    || negb (Bool.eqb (st_orderUpdate states) (st_orderUpdate base))
    || negb (Bool.eqb (st_payment states) (st_payment base)) in
  let stateCode := encodeAdminStates states in
  [ [ {| bt_text := "👤 " +:+ lb_newUser labels +:+ ": " +:+ flag (st_newUser states);
         bt_data := "admin:toggle:newUser:" +:+ stateCode |} ];
    [ {| bt_text := "🛒 " +:+ lb_newOrder labels +:+ ": " +:+ flag (st_newOrder states);
         bt_data := "admin:toggle:newOrder:" +:+ stateCode |} ];
    [ {| bt_text := "🔄 " +:+ lb_orderUpdate labels +:+ ": " +:+ flag (st_orderUpdate states);
         bt_data := "admin:toggle:orderUpdate:" +:+ stateCode |} ];
    [ {| bt_text := "💰 " +:+ lb_payment labels +:+ ": " +:+ flag (st_payment states);
         bt_data := "admin:toggle:payment:" +:+ stateCode |} ];
    [ if hasChanges
      then {| bt_text := "💾 " +:+ lb_save labels; bt_data := "admin:save:" +:+ stateCode |}
      else {| bt_text := "⬅️ " +:+ lb_back labels; bt_data := "admin:back" |} ] ].

Definition showAdminPanel (from : string) (edit : bool)
    (pendingStates : option AdminPanelStates) : Handler unit :=
  w ← read;
  match findUnique_telegramId from w with
  | None => ret tt
  | Some user =>
      let labels := getAdminPanelLabels (lang_of user) in
      let base := baseStates (adminSettings w !! u_id user) in
      let states := match pendingStates with Some p => p | None => base end in
      let keyboard := keyboardOf labels base states in
      if edit
      then orElse (call rejects (EditMessageText from (lb_title labels) keyboard))
                  (call rejects (Reply from (lb_title labels) keyboard))
      else call rejects (Reply from (lb_title labels) keyboard)
  end.

(** [bot.hears(["⚙️ Sozlamalar", ...])] *)
Definition onSettings (from : string) : Handler unit :=
  if negb (isAdmin from) then ret tt else showAdminPanel from false None.

(** [bot.action(/admin:toggle:(newUser|newOrder|orderUpdate|payment):([a-z0-9]+)/)],
    with the two groups of the match. *)
Definition onToggle (from : string) (f : AdminType) (code : string) : Handler unit :=
  if negb (isAdmin from) then call rejects (AnswerCbQuery from)
  else
    _ ← call rejects (AnswerCbQuery from);
    showAdminPanel from true (Some (toggle f (decodeAdminStates code))).

(** The row [adminSettings.upsert] writes, whether it updates or
    creates. *)
Definition settingsOf (states : AdminPanelStates) : AdminSettings :=
  {| notifyNewUser := st_newUser states;
     notifyNewOrder := st_newOrder states;
     notifyOrderStatus := st_orderUpdate states;
     notifyOrderUpdate := st_orderUpdate states;
     notifyPayment := st_payment states |}.

Definition with_adminSettings (a : gmap string AdminSettings) (w : World) : World :=
  {| users := users w; drafts := drafts w; reminders := reminders w;
     adminSettings := a; cache := cache w; now := now w;
     next_id := next_id w; trace := trace w |}.

(** [bot.action(/admin:save:([a-z0-9]+)/)], with the group of the match. *)
Definition onSave (from : string) (code : string) : Handler unit :=
  if negb (isAdmin from) then call rejects (AnswerCbQuery from)
  else
    _ ← call rejects (AnswerCbQuery from);
    w ← read;
    match findUnique_telegramId from w with
    | None => ret tt
    | Some user =>
        let states := decodeAdminStates code in
        _ ← write (fun w => with_adminSettings
                     (<[u_id user := settingsOf states]> (adminSettings w)) w);
        call rejects (Reply from (lb_saved (getAdminPanelLabels (lang_of user))) [])
    end.
End Handlers.

End AdminPanel.

(* ===================================================================== *)
(** * reminders.ts: the worker that sends the order reminders              *)
(* ===================================================================== *)

Module Worker.
Import JS Erp Backend Telegraf.

#[local] Notation "x ← m ; k" := (bind m (fun x => k))
  (at level 20, m at level 100, k at level 200, only parsing).

Definition orderReminderText (language : option string) : string :=
  match language with
  | Some "ru" => "Довольны заказом? Готовы заказать ещё? 🛒"
  | Some "uzc" => "Буюртмангиздан мамнунмисиз? Яна буюртма беришга тайёрмисиз? 🛒"
  | _ => "Buyurtmangizdan mamnunmisiz? Yana buyurtma berishga tayyormisiz? 🛒"
  end.

(** [where: { dueAt: { lte: now }, sentAt: null }] *)
Definition isDue (now : Z) (r : Reminder) : bool :=
  leb (dueAt r) (of_Z now) && match sentAt r with None => true | Some _ => false end.

(** A row of [findMany] with [include: { user: true }]: its place in the
    table, the reminder and its user. *)
Record DueReminder := { due_place : nat; due_reminder : Reminder; due_user : option User }.

Definition dueReminders (now : Z) (w : World) : list DueReminder :=
  take 100 (omap (fun ir => if isDue now ir.2
                            then Some {| due_place := ir.1; due_reminder := ir.2;
                                         due_user := findUnique_id (rem_userId ir.2) w |}
                            else None)
                 (imap pair (reminders w))).

(** [data: { sentAt: now }] *)
Definition markSent (now : Z) (r : Reminder) : Reminder :=
  {| rem_userId := rem_userId r; dueAt := dueAt r; sentAt := Some (of_Z now) |}.

(** [where: { sentAt: { not: null, lt: thirtyDaysAgo } }] *)
Definition isStale (thirtyDaysAgo : number) (r : Reminder) : bool :=
  match sentAt r with
  | Some s => ltb s thirtyDaysAgo
  | None => false
  end.

Section Reminders.
Variable rejects : Call -> bool.

Definition sendReminder (now : Z) (reminder : DueReminder) : Handler unit :=
  orElse
    (match due_user reminder with
     | None => fun s => (Throw "Cannot read properties of null", s)
     | Some user =>
         _ ← call rejects (SendMessage (telegramId user) (orderReminderText (language user)));
         write (fun w => with_reminders
                  (alter (markSent now) (due_place reminder) (reminders w)) w)
     end)
    (consoleError "Error sending reminder").

Fixpoint sendReminders (now : Z) (l : list DueReminder) : Handler unit :=
  match l with
  | [] => ret tt
  | reminder :: rest => _ ← sendReminder now reminder; sendReminders now rest
  end.

Definition processOrderReminders (now : Z) : Handler unit :=
  orElse
    (w ← read;
     _ ← sendReminders now (dueReminders now w);
     let thirtyDaysAgo := sub (of_Z now) (of_Z (30 * 24 * 60 * 60 * 1000)) in
     if valid_time thirtyDaysAgo
     then write (fun w => with_reminders
                   (filter (fun r => isStale thirtyDaysAgo r = false) (reminders w)) w)
     else fun s => (Throw "Invalid Date", s))
    (consoleError "Error processing order reminders:").
End Reminders.

End Worker.

(* ===================================================================== *)
(** * routes/api.ts: liked products and the receipt on request             *)
(* ===================================================================== *)

Module Endpoints.
Import JS Erp Backend.

(** ** [GET] and [POST /api/liked] *)

(** A row of the [likedProduct] table; a row is told from the others by
    its place. *)
Record LikedProduct := { lk_userId : string; lk_productId : string }.

Inductive LikedResponse :=
  | LikedBadRequest
  | LikedUserNotFound
  | LikedIds (productIds : list string)
  | Liked (liked : bool).

Definition is_row (userId productId : string) (l : LikedProduct) : bool :=
  String.eqb (lk_userId l) userId && String.eqb (lk_productId l) productId.

(** [prisma.likedProduct.delete({ where: { id } })] for the row that
    [findUnique] returned, the first one of its key. *)
Fixpoint delete_row (userId productId : string) (table : list LikedProduct)
    : list LikedProduct :=
  match table with
  | [] => []
  | l :: rest =>
      if is_row userId productId l then rest
      else l :: delete_row userId productId rest
  end.

Definition getLiked (w : World) (table : list LikedProduct)
    (telegramId : option string) : LikedResponse :=
  match truthy_str telegramId with
  | None => LikedBadRequest
  | Some tid =>
      match findUnique_telegramId tid w with
      | None => LikedIds []
      | Some user =>
          LikedIds (map lk_productId
                      (filter (fun l => String.eqb (lk_userId l) (u_id user) = true) table))
      end
  end.

Definition postLiked (w : World) (table : list LikedProduct)
    (telegramId productId : option string) : LikedResponse * list LikedProduct :=
  match truthy_str telegramId, truthy_str productId with
  | Some tid, Some pid =>
      match findUnique_telegramId tid w with
      | None => (LikedUserNotFound, table)
      | Some user =>
          match find (is_row (u_id user) pid) table with
          | Some existing => (Liked false, delete_row (u_id user) pid table)
          | None =>
              (Liked true, table ++ [ {| lk_userId := u_id user; lk_productId := pid |} ])
          end
      end
  | _, _ => (LikedBadRequest, table)
  end.

(** ** [POST /api/demands/:demandId/pdf] *)

Inductive PdfResponse :=
  | PdfBadRequest
  | PdfUserNotFound
  | PdfForbidden
  | PdfFailed
  | PdfSent.

(** The argument of [generateDemandPdf], as far as the gateway records
    carry it. *)
Record PdfParams := {
  pdf_demand : Demand;
  pdf_sum : option number;
  pdf_data : DemandPdf.PdfData;
  pdf_firstName : option string;
  pdf_phoneNumber : option string;
  pdf_lang : string;
  pdf_currencyCode : option string;
  pdf_balanceBefore : option number;
  pdf_balanceAfter : option number
}.

Section Receipts.
Variable sys : Sys.

(** [generateDemandPdf] draws the document; the model keeps whether it
    throws. *)
Variable generateDemandPdf : PdfParams -> Outcome unit.

Definition postDemandPdf (demandId : string) (telegramId : option string)
    : M PdfResponse :=
  match truthy_str telegramId with
  | None => mret PdfBadRequest
  | Some tid =>
      w ← get;
      match findUnique_telegramId tid w with
      | None => mret PdfUserNotFound
      | Some user =>
          try_catch
            (demand ← await (getDemand (sys_erp sys) demandId);
             let positions := catch_default (listDemandPositions (sys_erp sys) demandId) [] in
             let currencyCode := catch_default (getBaseCurrencyCode (sys_erp sys)) None in
             match DemandPdf.extractIdFromHref (d_agentHref demand) "/entity/counterparty/" with
             | None => mret PdfForbidden
             | Some demandCounterpartyId =>
                 if negb (bool_decide (moskladCounterpartyId user = Some demandCounterpartyId))
                 then mret PdfForbidden
                 else
                   let demandSum := option_map (fun s => div s (of_Z 100)) (d_sum demand) in
                   let balanceAfter :=
                     match getCustomerBalance (sys_erp sys) demandCounterpartyId with
                     | Ok b => Some b
                     | Throw _ => None
                     end in
                   let balanceBefore :=
                     match balanceAfter, demandSum with
                     | Some a, Some s => Some (add a s)
                     | _, _ => None
                     end in
                   let data := DemandPdf.buildDemandPdfData (sys_erp sys) demand positions in
                   _ ← await (generateDemandPdf
                                {| pdf_demand := demand;
                                   pdf_sum := demandSum;
                                   pdf_data := data;
                                   pdf_firstName := firstName user;
                                   pdf_phoneNumber := phoneNumber user;
                                   pdf_lang := lang_of user;
                                   pdf_currencyCode := currencyCode;
                                   pdf_balanceBefore := balanceBefore;
                                   pdf_balanceAfter := balanceAfter |});
                   _ ← tg_request sys (PdfReceiptJob (Backend.telegramId user) (d_name demand) data);
                   mret PdfSent
             end)
            (fun _ => _ ← emit (ConsoleError "demand PDF error:"); mret PdfFailed)
      end
  end.
End Receipts.

End Endpoints.

(* ===================================================================== *)
(** * The properties, as predicates over the model                         *)
(* ===================================================================== *)

Import JS Erp Backend Scenario.

(** ** Frames: what a handler leaves related between its two stores *)

(** [keeps R m]: whatever [m] returns or throws, the store it leaves is
    [R]-related to the store it started from. *)
Definition keeps (R : World -> World -> Prop) {A} (m : M A) : Prop :=
  forall w, R w (m w).2.


(** [appends P m]: [m] returns and only adds effects satisfying [P]. *)
Definition appends (P : Effect -> Prop) (m : M unit) : Prop :=
  forall w, exists t, m w = (Ok tt, with_trace (trace w ++ t) w) /\ Forall P t.

(** ** Reconciliation of an order with its shipments *)







(** ** Webhook notifications *)

(** The notice an effect delivers to the customer at [chat]; the notices
    for administrators are not customer notices. *)
Definition customer_notice (chat : string) (e : Effect) : option Notice :=
  match e with
  | TgSend c n =>
      if String.eqb c chat
      then match n with NAdmin _ => None | _ => Some n end
      else None
  | _ => None
  end.

Definition customer_notices (chat : string) (t : list Effect) : list Notice :=
  omap (customer_notice chat) t.

Definition admin_notice (e : Effect) : Prop :=
  exists c ty, e = TgSend c (NAdmin ty).

Definition orderDemandsUpdate : Event :=
  event "customerorder" "UPDATE" (orderHref "O1") ["demands"].
Definition demandCreate : Event :=
  event "demand" "CREATE" (demandHref "D3") [].


(** ** The bot's order actions *)





(** ** Failures of a submission *)








Definition oneWidget : list RequestItem := [ {| ri_id := "A"; ri_quantity := of_Z 1 |} ].
Definition ghostItem : RequestItem := {| ri_id := "ghost"; ri_quantity := of_Z 1 |}.

(** ** Reminders *)

(** The batch [createOrderReminders] builds for [uid] at time [t]. *)
Definition batch (sys : Sys) (uid : string) (t : Z) : list Reminder :=
  map (fun days => {| rem_userId := uid;
                      dueAt := add (of_Z t) (days_to_ms days);
                      sentAt := None |}) (reminderDays sys).



(** ** Numbers: where a shifted mantissa lies *)

(** [located N D mrs]: the record holds the integral part of [N / D], its
    round bit tells whether the rest reaches one half, and its sticky bit
    whether the rest is neither zero nor one half. *)
Definition located (N D : Z) (mrs : shr_record) : Prop :=
  0 <= shr_m mrs
  /\ shr_m mrs * D <= N < (shr_m mrs + 1) * D
  /\ (shr_r mrs = true <-> D <= 2 * (N - shr_m mrs * D))
  /\ (shr_s mrs = true <-> (N - shr_m mrs * D <> 0 /\ 2 * (N - shr_m mrs * D) <> D)).

(* ===================================================================== *)
(** * Further properties of the model                                      *)
(* ===================================================================== *)

(** A list without white space at its head. *)
Definition no_head_space (l : list ascii) : Prop :=
  match l with c :: _ => is_space c = false | [] => True end.


(** What may follow an id in an href: nothing, a further path or a query. *)
Definition id_end (rest : string) : Prop :=
  rest = "" \/ startsWith rest "/" = true \/ startsWith rest "?" = true.

(** The marker first occurs in [base ++ marker] at its end. *)
Definition marker_at_end (base marker : string) : Prop :=
  after_first (chars marker) (chars (base +:+ marker)) = Some [].

(** An event that carries nothing but the href of its entity. *)
Definition hrefEvent (href action : string) : Event :=
  {| ev_metaHref := Some href; ev_href := None; ev_entityHref := None;
     ev_metaType := None; ev_action := Some action; ev_eventType := None;
     ev_updatedFields := None; ev_orderId := None; ev_entityId := None |}.

Definition entityHref (base ty id : string) : string :=
  base +:+ "/entity/" +:+ ty +:+ "/" +:+ id.

(** An entry as [envList] returns it: not empty, trimmed, without a comma. *)
Definition clean_entry (s : string) : Prop :=
  s <> "" /\ trim s = s /\ ","%char ∉ chars s.


Definition never_negative (o : option number) : Prop :=
  forall q, o = Some q -> ltb q zero = false.

(** [adds P w w']: the trace of [w'] extends the one of [w] by effects
    that satisfy [P]. *)
Definition adds (P : Effect -> Prop) (w w' : World) : Prop :=
  exists t, trace w' = trace w ++ t /\ Forall P t.

(** A message or a document for a chat. *)
Definition notification (e : Effect) : Prop :=
  match e with
  | TgSend _ _ | PdfReceiptJob _ _ _ => True
  | _ => False
  end.

(** What the webhook may do: reset registrations and set markers, and
    notify. *)
Definition notifies_only (w w' : World) : Prop :=
  drafts w' = drafts w /\ reminders w' = reminders w
  /\ adminSettings w' = adminSettings w
  /\ map u_id (users w') = map u_id (users w)
  /\ map telegramId (users w') = map telegramId (users w)
  /\ adds notification w w'.

(** An order as the web application may submit it: for pickup, or for
    delivery with both coordinates. *)
Definition web_order (e : Effect) : Prop :=
  match e with
  | ErpOrderCreated b _ =>
      ob_deliveryMethod b = Some "pickup"
      \/ (ob_deliveryMethod b = Some "delivery"
          /\ opt_num_truthy (ob_locationLat b) = true
          /\ opt_num_truthy (ob_locationLng b) = true)
  | _ => True
  end.

(** The users linked to the counterparty [k]. *)
Definition linked_to (k : string) (w : World) : list User :=
  filter (fun u => links k u = true) (users w).

Definition same_users (w w' : World) : Prop := users w' = users w.

(** The users once [from] has shared the phone of counterparty [k]. *)
Definition claimed (from k : string) (us : list User) : list User :=
  map (fun u => if has_telegramId from u then set_counterparty_pending (Some k) u else u)
    (map (fun u => if links k u && negb (has_telegramId from u)
                   then set_counterparty None u else u) us).

(** What the bot tells the sender, and what it logs. *)
Definition own_reply (from : string) (e : Effect) : Prop :=
  match e with
  | BotReply c _ | BotAnswerCbQuery c => c = from
  | ConsoleError _ => True
  | _ => False
  end.

(** The sender has no linked counterparty. *)
Definition unlinked (from : string) (w : World) : Prop :=
  forall u, findUnique_telegramId from w = Some u ->
            opt_str_truthy (moskladCounterpartyId u) = false.

(** The updates the registration guard holds back from an unlinked
    sender. *)
Definition guarded (a : Action) : Prop :=
  match a with
  | AContact _ _ _ _ => False
  | AText t => startsWith t "/start" = false
  | _ => True
  end.

(** The registration fields are empty. *)
Definition unregistered (u : User) : Prop :=
  phoneNumber u = None /\ moskladCounterpartyId u = None
  /\ defaultAddress u = None /\ pendingState u = None.

(** The chat and the id of every user, in the order of the table. *)
Definition identities (w : World) : list (string * string) :=
  map (fun u => (telegramId u, u_id u)) (users w).

(** The id of the user of chat [from]. *)
Definition sender_id (from : string) (ids : list (string * string)) : option string :=
  option_map snd (find (fun p => String.eqb p.1 from) ids).

(** [aside from key ids w w']: from a store with the identities [ids],
    in which [key] is not the id of the sender, the step keeps the
    identities and the draft filed under [key]. *)
Definition aside (key : string) (ids : list (string * string)) (w w' : World) : Prop :=
  identities w = ids -> identities w' = ids /\ drafts w' !! key = drafts w !! key.

Definition same_drafts (w w' : World) : Prop := drafts w' = drafts w.

Section GatewayProps.
Import Gateway.

(** A listing of [all] that answers a request with the rows from the
    offset on, at most [cap] of them whatever the limit asked for. *)
Definition serves {T} (fetch : nat -> nat -> Outcome (Page T)) (all : list T) (cap : nat) : Prop :=
  forall limit offset,
    fetch limit offset
    = Ok {| pg_size := Some (length all);
            pg_rows := take (Nat.min limit cap) (drop offset all) |}.

(** A listing that serves [all] in pages of at most [cap] rows. *)
Definition paged {T} (all : list T) (cap : nat) (limit offset : nat) : Outcome (Page T) :=
  Ok {| pg_size := Some (length all);
        pg_rows := take (Nat.min limit cap) (drop offset all) |}.

(** A stock map as the catalogue shows it: no entry under the empty id,
    no quantity below zero. *)
Definition sound_stock (m : gmap string number) : Prop :=
  forall id v, m !! id = Some v -> id <> "" /\ ltb v zero = false.


(** A stock report: 2.5 units short of a product, and a service. *)
Definition stockReport : list StockRow :=
  [ {| sr_type := "product"; sr_href := "https://erp/entity/product/A?x=1";
       sr_stock := div (of_Z (-5)) (of_Z 2) |};
    {| sr_type := "service"; sr_href := "https://erp/entity/service/S";
       sr_stock := of_Z 3 |} ].

End GatewayProps.

Section TextProps.
Import Text.

(** One code unit after the three replacements. *)
Definition escaped (c : ascii) : list ascii :=
  if Ascii.eqb c "&"%char then chars "&amp;"
  else if Ascii.eqb c "<"%char then chars "&lt;"
  else if Ascii.eqb c ">"%char then chars "&gt;"
  else [c].

(** Every ampersand of [l] opens one of the three entities. *)
Fixpoint entities_only (l : list ascii) : Prop :=
  match l with
  | [] => True
  | c :: l' =>
      (c = "&"%char ->
       starts_with (chars "amp;") l' = true \/ starts_with (chars "lt;") l' = true
       \/ starts_with (chars "gt;") l' = true)
      /\ entities_only l'
  end.

End TextProps.

Section AdminPanelProps.
Import Telegraf AdminPanel.

(** A code unit of [[a-z0-9]]. *)
Definition code_unit (c : ascii) : bool :=
  let n := nat_of_ascii c in
  ((97 <=? n) && (n <=? 122) || (48 <=? n) && (n <=? 57))%nat.

(** The panel of [admin] with payments switched off. *)
Definition paymentsOff : AdminPanelStates :=
  {| st_newUser := true; st_newOrder := true; st_orderUpdate := true; st_payment := false |}.

End AdminPanelProps.

Section EndpointProps.
Import Endpoints.

(** The key [userId_productId] is unique. *)
Definition unique_likes (table : list Endpoints.LikedProduct) : Prop :=
  NoDup (map (fun l => (Endpoints.lk_userId l, Endpoints.lk_productId l)) table).

Definition likes (table : list Endpoints.LikedProduct) (userId productId : string) : bool :=
  existsb (Endpoints.is_row userId productId) table.

(** The receipt of demand [demandId] for the sender [tid] who owns it, or
    a line of the console. *)
Definition own_receipt (sys : Sys) (demandId tid : string) (w : World) (e : Effect) : Prop :=
  match e with
  | PdfReceiptJob chat nm _ =>
      exists user demand,
        findUnique_telegramId tid w = Some user
        /\ chat = tid
        /\ getDemand (sys_erp sys) demandId = Ok demand
        /\ nm = d_name demand
        /\ (exists k, moskladCounterpartyId user = Some k
                      /\ DemandPdf.extractIdFromHref (d_agentHref demand) "/entity/counterparty/"
                         = Some k)
  | ConsoleError _ => True
  | _ => False
  end.

End EndpointProps.

Section WorkerProps.
Import Telegraf Worker.

(** The message of a reminder of [w] that is due and not sent, for its
    user. *)
Definition reminder_message (now : Z) (w : World) (c : Telegraf.Call) : Prop :=
  exists r u,
    r ∈ reminders w /\ Worker.isDue now r = true
    /\ findUnique_id (rem_userId r) w = Some u
    /\ c = Telegraf.SendMessage (telegramId u) (Worker.orderReminderText (language u)).

(** A reminder as it was, or marked as sent now because it was due. *)
Definition kept_or_sent (now : Z) (r r' : Reminder) : Prop :=
  r' = r \/ (Worker.isDue now r = true /\ r' = Worker.markSent now r).

(** What the loop keeps, whatever Telegram answers. *)
Record loop_inv (now : Z) (s0 s : Chat) (n : nat) : Prop := {
  li_users : users (store s) = users (store s0);
  li_drafts : drafts (store s) = drafts (store s0);
  li_settings : adminSettings (store s) = adminSettings (store s0);
  li_table : Forall2 (kept_or_sent now) (reminders (store s0)) (reminders (store s));
  li_calls : exists cs, calls s = calls s0 ++ cs
                        /\ Forall (reminder_message now (store s0)) cs
                        /\ (length cs <= n)%nat
}.

(** The request that reminds the user of [r]. *)
Definition reminderCall (w : World) (r : Reminder) : option Telegraf.Call :=
  (fun u => Telegraf.SendMessage (telegramId u) (Worker.orderReminderText (language u)))
    <$> findUnique_id (rem_userId r) w.

(** The table with its first [n] due reminders marked as sent. *)
Fixpoint markFirst (now : Z) (n : nat) (table : list Reminder) : list Reminder :=
  match table with
  | [] => []
  | r :: rest =>
      if Worker.isDue now r then
        match n with
        | O => r :: rest
        | S n' => Worker.markSent now r :: markFirst now n' rest
        end
      else r :: markFirst now n rest
  end.

(** The rows of [findMany] before [take], places counted from [k]. *)
Definition dueFrom (now : Z) (w : World) (k : nat) (t : list Reminder) : list DueReminder :=
  omap (fun ir : nat * Reminder =>
          if isDue now ir.2
          then Some {| due_place := ir.1; due_reminder := ir.2;
                       due_user := findUnique_id (rem_userId ir.2) w |}
          else None)
       (imap (fun i => pair (k + i)%nat) t).

(** A store with three reminders of [alice]: one due, one for later and
    one sent the day before. *)
Definition remindersAt (t : Z) : Chat :=
  {| store := with_reminders
                [ {| rem_userId := "u1"; dueAt := of_Z (t - 1000); sentAt := None |};
                  {| rem_userId := "u1"; dueAt := of_Z (t + 86400000); sentAt := None |};
                  {| rem_userId := "u1"; dueAt := of_Z (t - 86400000);
                     sentAt := Some (of_Z (t - 86400000)) |} ]
                (world [alice; bob] []);
     calls := [] |}.

End WorkerProps.

(* ===================================================================== *)
(** * Reasoning about handlers                                             *)
(* ===================================================================== *)

(** Computes, leaving the queries of the store, the readers of an event and
    the requests to the ERP folded. *)
Ltac scbn :=
  cbn -[findUnique_telegramId findFirst_counterparty update_where entityType
        eventAction has_field entity_id DemandPdf.extractIdFromHref
        DemandPdf.buildDemandPdfData getDemand getCustomerOrder
        listDemandPositions cache_get truthy_str adminIds needsAddress includes
        createCustomerOrder reminderDays valid_time days_to_ms draftItems].



(** Unfolds the operations of the monad and computes. *)
Ltac mrun :=
  unfold try_catch, emit, modify, get, throw, await, when, mbind, M_bind, mret, M_ret; scbn.

Lemma with_trace_id w : with_trace (trace w) w = w.
Proof. by destruct w. Qed.







(** ** Frame rules *)

Section Frame.
Variable R : World -> World -> Prop.
Hypothesis R_refl : forall w, R w w.
Hypothesis R_trans : forall a b c, R a b -> R b c -> R a c.

Lemma keeps_ret {A} (a : A) : keeps R (mret a).
Proof. intros w. apply R_refl. Qed.

Lemma keeps_throw {A} msg : keeps R (@throw A msg).
Proof. intros w. apply R_refl. Qed.

Lemma keeps_get : keeps R get.
Proof. intros w. apply R_refl. Qed.

Lemma keeps_await {A} (o : Outcome A) : keeps R (await o).
Proof. intros w. apply R_refl. Qed.

Lemma keeps_bind {A B} (m : M A) (f : A -> M B) :
  keeps R m -> (forall a, keeps R (f a)) -> keeps R (m ≫= f).
Proof.
  intros Hm Hf w. unfold mbind, M_bind. specialize (Hm w).
  destruct (m w) as [[a|msg] w1]; simpl in *; [|exact Hm].
  eapply R_trans; [exact Hm|apply Hf].
Qed.

Lemma keeps_try {A} (m : M A) (h : string -> M A) :
  keeps R m -> (forall msg, keeps R (h msg)) -> keeps R (try_catch m h).
Proof.
  intros Hm Hh w. unfold try_catch. specialize (Hm w).
  destruct (m w) as [[a|msg] w1]; simpl in *; [exact Hm|].
  eapply R_trans; [exact Hm|apply Hh].
Qed.

Lemma keeps_modify (f : World -> World) : (forall w, R w (f w)) -> keeps R (modify f).
Proof. intros H w. apply H. Qed.

Lemma keeps_when b (m : M unit) : keeps R m -> keeps R (when b m).
Proof. destruct b; [auto|intros _; apply keeps_ret]. Qed.

Lemma keeps_for_each {A} (l : list A) (body : A -> M unit) :
  (forall a, keeps R (body a)) -> keeps R (for_each l body).
Proof.
  intros H. induction l as [|x l IH]; simpl; [apply keeps_ret|].
  apply keeps_bind; [apply H|intros _; exact IH].
Qed.
End Frame.

(** One step through a handler, for a relation with [refl] and [trans]. *)
Ltac frame_step refl trans :=
  lazymatch goal with
  | |- keeps _ (mret _) => apply keeps_ret, refl
  | |- keeps _ (throw _) => apply keeps_throw, refl
  | |- keeps _ get => apply keeps_get, refl
  | |- keeps _ (await _) => apply keeps_await, refl
  | |- keeps _ (_ ≫= _) => apply keeps_bind; [apply trans| |intros ?]
  | |- keeps _ (try_catch _ _) => apply keeps_try; [apply trans| |intros ?]
  | |- keeps _ (when _ _) => apply keeps_when; [apply refl|]
  | |- keeps _ (for_each _ _) => apply keeps_for_each; [apply refl|apply trans|intros ?]
  | |- keeps _ (match ?x with _ => _ end) => destruct x eqn:?
  | |- keeps _ (let _ := _ in _) => cbv zeta
  end.


(* ===================================================================== *)
(** * demand-pdf.ts: what is left of an order after its shipments          *)
(* ===================================================================== *)

Section ReconcileProofs.
Import DemandPdf.





















(** A line without product id is matched by its name, whatever the case
    and the white space. *)
Example name_fallback :
  normalizeName "  Widget   C " = "widget c"
  /\ remainingQty
       (orderLine
          [ {| assortmentId := None; name := "Widget C"; quantity := of_Z 2;
               price := Some (of_Z 50) |} ]
          [ {| assortmentId := None; name := "  widget   c "; quantity := of_Z 1;
               price := None |} ]
          []
          {| assortmentId := None; name := "Widget C"; quantity := of_Z 2;
             price := Some (of_Z 50) |})
     = Some (of_Z 1).
Proof. split; vm_compute; reflexivity. Qed.
End ReconcileProofs.

(* ===================================================================== *)
(** * routes/api.ts: the webhook handler                                   *)
(* ===================================================================== *)

Section Webhook.
Variable sys : Sys.
Hypothesis token : opt_str_truthy (BOT_TOKEN (sys_cfg sys)) = true.
Hypothesis delivers : forall e, sys_tg_rejects sys e = false.

Lemma send_ok chat n w :
  sendTelegramMessage sys chat n w = (Ok tt, with_trace (trace w ++ [TgSend chat n]) w).
Proof.
  unfold sendTelegramMessage, tg_request. rewrite token. mrun. by rewrite delivers.
Qed.

Lemma appends_for_each {A} (P : Effect -> Prop) (l : list A) (body : A -> M unit) :
  (forall a, appends P (body a)) -> appends P (for_each l body).
Proof.
  intros H. induction l as [|a l IH]; intros w.
  - exists []. scbn. rewrite app_nil_r, with_trace_id. by split.
  - cbn [for_each]. unfold mbind, M_bind.
    destruct (H a w) as [t0 [E0 F0]]. rewrite E0.
    destruct (IH (with_trace (trace w ++ t0) w)) as [t1 [E1 F1]].
    rewrite E1. exists (t0 ++ t1). split.
    + scbn. by rewrite app_assoc.
    + by apply Forall_app.
Qed.

Lemma notifyAdmins_ok type : appends admin_notice (notifyAdminsByType sys type).
Proof.
  unfold notifyAdminsByType. apply appends_for_each. intros a w.
  unfold mbind, M_bind, get.
  destruct (findUnique_telegramId a w) as [u|];
    [destruct (adminSettings w !! u_id u) as [s|];
     [destruct (shouldNotify s type)|]|];
    scbn; try (exists []; rewrite app_nil_r, with_trace_id; by split).
  rewrite send_ok. eexists; split; [reflexivity|].
  constructor; [by eexists _, _|constructor].
Qed.

Lemma customer_notices_admin chat t :
  Forall admin_notice t -> customer_notices chat t = [].
Proof.
  induction 1 as [|e t [c [ty ->]] _ IH]; [done|].
  unfold customer_notices in *. scbn. rewrite IH. by destruct (String.eqb c chat).
Qed.

(** An order update whose changed fields include [demands] is dropped. *)
Lemma order_update_demands_suppressed created ev orderId order w :
  entityType ev = Some "customerorder" ->
  eventAction ev = "UPDATE" ->
  has_field ev "demands" = true ->
  truthy_str (entity_id ev "/entity/customerorder/") = Some orderId ->
  getCustomerOrder (sys_erp sys) orderId = Ok order ->
  processEvent sys created ev w = (Ok created, w).
Proof.
  intros Ht Ha Hf Hi Ho. unfold processEvent, orderEvent. rewrite Ht, Ha, Hi. scbn.
  mrun. rewrite Ho. scbn.
  destruct (bool_decide (o_applicable order = Some false)); [done|].
  destruct (DemandPdf.extractIdFromHref (o_agentHref order) "/entity/counterparty/") as [k|]; [|done].
  scbn. destruct (findFirst_counterparty k w) as [u|]; [|done]. scbn.
  rewrite Hf. scbn. by rewrite !andb_false_r.
Qed.

Lemma demand_create_notifies created ev demandId demand k user w :
  entityType ev = Some "demand" ->
  eventAction ev = "CREATE" ->
  has_field ev "applicable" = false ->
  has_field ev "payments" = false ->
  has_field ev "payedsum" = false ->
  truthy_str (entity_id ev "/entity/demand/") = Some demandId ->
  getDemand (sys_erp sys) demandId = Ok demand ->
  DemandPdf.extractIdFromHref (d_agentHref demand) "/entity/counterparty/" = Some k ->
  d_applicable demand <> Some false ->
  findFirst_counterparty k w = Some user ->
  exists t w',
    processEvent sys created ev w = (Ok ({[k]} ∪ created), w')
    /\ users w' = users w
    /\ trace w' = trace w ++ TgSend (telegramId user) (NDemandCreated (d_name demand)) :: t
    /\ customer_notices (telegramId user) t = [].
Proof.
  intros Ht Ha Hf1 Hf2 Hf3 Hi Hd Hk Hap Hu.
  unfold processEvent, demandEvent. rewrite Ht, Ha, Hi. scbn.
  rewrite Hf1, Hf2, Hf3. mrun. rewrite Hd. scbn. rewrite Hk. scbn.
  rewrite bool_decide_eq_false_2 by exact Hap.
  assert (Hu' : forall c, findFirst_counterparty k (with_cache c w) = Some user) by (intros; exact Hu).
  rewrite Hu. unfold cache_set. mrun.
  rewrite send_ok. scbn.
  match goal with
  | |- context [notifyAdminsByType sys newOrder ?w0] =>
      destruct (notifyAdmins_ok newOrder w0) as [t [E F]]; rewrite E
  end.
  eexists _, _. split; [reflexivity|]. scbn. split; [reflexivity|].
  split.
  - rewrite <- !app_assoc. scbn. reflexivity.
  - unfold customer_notices. scbn. apply (customer_notices_admin _ _ F).
Qed.

(** C2. A batch made of an order update of customer X whose changed
    fields are [demands] and of a shipment creation for customer X, in
    either order, sends customer X exactly one notice, the one of the
    shipment. The PDF receipt that the handler prepares after that notice
    is a job of its own, and the notices for administrators are of
    another kind: neither is counted. The messaging channel is
    configured and accepts every message, both events name entities the
    ERP returns, and the shipment is not voided. *)
Theorem shipment_create_suppresses_order_update
    (w : World) (evO evD : Event) (orderId demandId k : string)
    (order : CustomerOrder) (demand : Demand) (user : User) :
  entityType evO = Some "customerorder" ->
  eventAction evO = "UPDATE" ->
  updatedFieldSet evO = {["demands"]} ->
  truthy_str (entity_id evO "/entity/customerorder/") = Some orderId ->
  getCustomerOrder (sys_erp sys) orderId = Ok order ->
  entityType evD = Some "demand" ->
  eventAction evD = "CREATE" ->
  updatedFieldSet evD = ∅ ->
  truthy_str (entity_id evD "/entity/demand/") = Some demandId ->
  getDemand (sys_erp sys) demandId = Ok demand ->
  DemandPdf.extractIdFromHref (d_agentHref demand) "/entity/counterparty/" = Some k ->
  d_applicable demand <> Some false ->
  findFirst_counterparty k w = Some user ->
  forall batch, batch = [evO; evD] \/ batch = [evD; evO] ->
  exists t w',
    postWebhook sys batch w = (Ok tt, w')
    /\ trace w' = trace w ++ t
    /\ customer_notices (telegramId user) t = [NDemandCreated (d_name demand)].
Proof.
  intros HtO HaO HfO HiO Ho HtD HaD HfD HiD Hd Hk Hap Hu batch Hb.
  assert (HO : has_field evO "demands" = true).
  { unfold has_field. rewrite HfO. by apply bool_decide_eq_true_2, elem_of_singleton. }
  assert (HD : forall f, has_field evD f = false).
  { intros f. unfold has_field. rewrite HfD. by apply bool_decide_eq_false_2. }
  pose proof (fun c w0 => order_update_demands_suppressed c evO orderId order w0 HtO HaO HO HiO Ho) as EO.
  destruct (demand_create_notifies ∅ evD demandId demand k user w
              HtD HaD (HD _) (HD _) (HD _) HiD Hd Hk Hap Hu) as [t [w' [ED [_ [Htr Hc]]]]].
  exists (TgSend (telegramId user) (NDemandCreated (d_name demand)) :: t), w'.
  split; [|split; [exact Htr|]].
  - unfold postWebhook. destruct Hb as [-> | ->]; cbn [processEvents]; unfold mbind, M_bind.
    + by rewrite EO, ED.
    + by rewrite ED, EO.
  - unfold customer_notices in *. scbn. rewrite String.eqb_refl, Hc. reflexivity.
Qed.
End Webhook.

(** The order [O1] and the shipment [D3] of the customer [K1], in both
    orders of arrival. *)
Lemma shipment_create_suppresses_order_update_witness :
  (exists t w',
     postWebhook sys1 [orderDemandsUpdate; demandCreate] (world [alice; admin] []) = (Ok tt, w')
     /\ trace w' = trace (world [alice; admin] []) ++ t
     /\ customer_notices (telegramId alice) t = [NDemandCreated (d_name demand3)])
  /\ (exists t w',
        postWebhook sys1 [demandCreate; orderDemandsUpdate] (world [alice; admin] []) = (Ok tt, w')
        /\ trace w' = trace (world [alice; admin] []) ++ t
        /\ customer_notices (telegramId alice) t = [NDemandCreated (d_name demand3)]).
Proof.
  split;
    apply (shipment_create_suppresses_order_update sys1 eq_refl (fun _ => eq_refl)
             (world [alice; admin] []) orderDemandsUpdate demandCreate "O1" "D3" "K1"
             (order1 None None) demand3 alice);
    try (vm_compute; reflexivity); try discriminate.
  - left. reflexivity.
  - right. reflexivity.
Defined.














Section Isolation.
Variable sys : Sys.
Hypothesis delivers : forall e, sys_tg_rejects sys e = false.
Hypothesis demands : forall i, exists d, fetch_demand (sys_erp sys) i = Ok d.
Hypothesis orders : forall i, exists o, fetch_customerorder (sys_erp sys) i = Ok o.
Hypothesis paymentins : forall i, exists p, fetch_paymentin (sys_erp sys) i = Ok p.
Hypothesis cashins : forall i, exists p, fetch_cashin (sys_erp sys) i = Ok p.




End Isolation.




(** ** Every order the bot sends for delivery carries an address *)







Section Safe.
Variable sys : Sys.



















End Safe.

(* ===================================================================== *)
(** * bot.ts: the confirm action                                           *)
(* ===================================================================== *)


Section Confirm.
Variable sys : Sys.
Variables (from : string) (u : User) (d : DraftOrder) (w : World).
Hypothesis Hu : findUnique_telegramId from w = Some u.
Hypothesis Hp : opt_str_truthy (phoneNumber u) = true.
Hypothesis Hk : opt_str_truthy (moskladCounterpartyId u) = true.
Hypothesis Hd : drafts w !! u_id u = Some d.
Hypothesis Hi : items d <> [].

End Confirm.


Section BotFailure.
Variable sys : Sys.
Variables (from : string) (u : User) (d : DraftOrder) (w : World).
Hypothesis Hu : findUnique_telegramId from w = Some u.
Hypothesis Hp : opt_str_truthy (phoneNumber u) = true.
Hypothesis Hk : opt_str_truthy (moskladCounterpartyId u) = true.
Hypothesis Hd : drafts w !! u_id u = Some d.
Hypothesis Hi : items d <> [].
Hypothesis Hm : opt_str_truthy (deliveryMethod d) = true.
Hypothesis Hn : needsAddress d = false.


End BotFailure.




(* ===================================================================== *)
(** * routes/api.ts: the draft-order endpoint; reminders.ts                *)
(* ===================================================================== *)







Section Reminders.
Variable sys : Sys.













End Reminders.


Section HttpFailure.
Variable sys : Sys.


End HttpFailure.






(** C10. A request naming a product the ERP does not know is not stored
    without that item and is not answered with a 400: the lookup of the
    products throws, and so does the handler, also when the other items
    of the request are known. *)
Theorem unknown_product_fails_request :
  postDraftOrder sys1 (request "100" [ghostItem] None) (world [alice] [])
  = (Throw "Mosklad request failed: 404 not found", world [alice] [])
  /\ postDraftOrder sys1 (request "100" (oneWidget ++ [ghostItem]) None) (world [alice] [])
     = (Throw "Mosklad request failed: 404 not found", world [alice] []).
Proof. split; vm_compute; reflexivity. Qed.


(* ===================================================================== *)
(** * mosklad.ts: resolving the counterparty of a user                     *)
(* ===================================================================== *)

(** C5. Alice is linked to the counterparty [K1]; Bob has the same phone
    number and no link. Resolving Bob's counterparty finds [K1] by phone
    and links Bob to it, and Alice keeps her link: two users hold [K1].
    The contact handler of the bot, on the same store, unlinks Alice. *)
Theorem claim_by_phone_keeps_other_link :
  (exists w',
     getOrCreateCounterparty sys1 "200" "+998901112233" None None (world [alice; bob] [])
     = (Ok "K1", w')
     /\ map (fun u => (telegramId u, moskladCounterpartyId u)) (users w')
        = [("100", Some "K1"); ("200", Some "K1")])
  /\ map (fun u => (telegramId u, moskladCounterpartyId u))
       (users (botUpdate sys1 "200" (AContact true "+998901112233" None None)
                 (world [alice; bob] [])).2)
     = [("100", None); ("200", Some "K1")].
Proof.
  split; [eexists; split|]; vm_compute; reflexivity.
Qed.

(* ===================================================================== *)
(** * Minor and major units across the ERP boundary                        *)
(* ===================================================================== *)

(** ** Binary digits *)

Lemma digits2_pos_bounds (p : positive) :
  2 ^ (Zpos (digits2_pos p) - 1) <= Zpos p < 2 ^ Zpos (digits2_pos p).
Proof.
  assert (E : forall q, 2 ^ Zpos q = 2 * 2 ^ (Zpos q - 1)).
  { intros q. rewrite <- Z.pow_succ_r by lia. f_equal. lia. }
  induction p as [p IH|p IH|]; cbn [digits2_pos].
  - rewrite Pos2Z.inj_succ.
    replace (Z.succ (Zpos (digits2_pos p)) - 1) with (Zpos (digits2_pos p)) by lia.
    rewrite Z.pow_succ_r by lia. specialize (E (digits2_pos p)). lia.
  - rewrite Pos2Z.inj_succ.
    replace (Z.succ (Zpos (digits2_pos p)) - 1) with (Zpos (digits2_pos p)) by lia.
    rewrite Z.pow_succ_r by lia. specialize (E (digits2_pos p)). lia.
  - cbn. lia.
Qed.

Lemma digits_between (q a b : Z) :
  0 < a -> a <= b -> 2 ^ (a - 1) <= q < 2 ^ b -> a <= Zdigits2 q <= b.
Proof.
  intros Ha Hab [Hl Hu].
  assert (0 < 2 ^ (a - 1)) by (apply Z.pow_pos_nonneg; lia).
  destruct q as [|p|p]; [lia| |lia]. cbn [Zdigits2].
  pose proof (digits2_pos_bounds p) as [Bl Bu].
  set (d := Zpos (digits2_pos p)) in *. split.
  - destruct (Z_lt_le_dec d a) as [Hlt|]; [|lia]. exfalso.
    assert (2 ^ d <= 2 ^ (a - 1)) by (apply Z.pow_le_mono_r; lia). lia.
  - destruct (Z_lt_le_dec b d) as [Hlt|]; [|lia]. exfalso.
    assert (2 ^ b <= 2 ^ (d - 1)) by (apply Z.pow_le_mono_r; lia). lia.
Qed.

Lemma digits2_pos_unique (p : positive) (d : Z) :
  0 < d -> 2 ^ (d - 1) <= Zpos p < 2 ^ d -> Zpos (digits2_pos p) = d.
Proof.
  intros Hd H. pose proof (digits_between (Zpos p) d d Hd ltac:(lia) H) as Hb.
  cbn [Zdigits2] in Hb. lia.
Qed.

(** ** Shifting and rounding a mantissa *)

Lemma shr_1_located N D mrs :
  0 < D -> located N D mrs -> located N (2 * D) (shr_1 mrs).
Proof.
  intros HD. destruct mrs as [m r s]. unfold located. cbn [shr_m shr_r shr_s].
  intros (Hm & Hb & Hr & Hs).
  destruct m as [|[p|p|]|]; [| | | |lia]; cbn [shr_1 shr_m shr_r shr_s];
    destruct r, s; cbn [orb]; intuition (try discriminate; try lia).
Qed.

Lemma iter_pos_located p : forall N D mrs,
  0 < D -> located N D mrs ->
  located N (D * 2 ^ Zpos p) (SpecFloat.iter_pos shr_1 p mrs).
Proof.
  induction p as [p IH|p IH|]; intros N D mrs HD H; cbn [SpecFloat.iter_pos].
  - replace (D * 2 ^ Zpos p~1) with (2 * D * 2 ^ Zpos p * 2 ^ Zpos p).
    + apply IH; [nia|]. apply IH; [lia|]. by apply shr_1_located.
    + replace (Zpos p~1) with (1 + Zpos p + Zpos p) by lia.
      rewrite !Z.pow_add_r by lia. rewrite Z.pow_1_r. ring.
  - replace (D * 2 ^ Zpos p~0) with (D * 2 ^ Zpos p * 2 ^ Zpos p).
    + apply IH; [nia|]. by apply IH.
    + replace (Zpos p~0) with (Zpos p + Zpos p) by lia.
      rewrite Z.pow_add_r by lia. ring.
  - replace (D * 2 ^ 1) with (2 * D) by lia. by apply shr_1_located.
Qed.

Lemma shr_located N D mrs e k :
  0 < D -> 0 <= k -> located N D mrs ->
  located N (D * 2 ^ k) (shr mrs e k).1 /\ (shr mrs e k).2 = e + k.
Proof.
  intros HD Hk H. destruct k as [|p|p]; cbn [shr fst snd]; [| |lia].
  - rewrite Z.mul_1_r. split; [done|lia].
  - split; [by apply iter_pos_located|done].
Qed.

(** Rounding to nearest moves the mantissa by at most one half. *)
Lemma round_located N D mrs :
  0 < D -> located N D mrs ->
  let m := round_nearest_even (shr_m mrs) (loc_of_shr_record mrs) in
  shr_m mrs <= m <= shr_m mrs + 1 /\ - D <= 2 * (m * D - N) <= D.
Proof.
  intros HD. destruct mrs as [m r s]. unfold located. cbn [shr_m shr_r shr_s].
  intros (Hm & Hb & Hr & Hs).
  destruct r, s; cbn [loc_of_shr_record round_nearest_even];
    try destruct (Z.even m); intuition (try discriminate; try lia).
Qed.

Lemma located_division (N D : Z) :
  0 <= N -> 0 < D -> Z.even D = true ->
  located N D (shr_record_of_loc (N / D) (new_location D (N mod D))).
Proof.
  intros HN HD Hev. pose proof (Z.div_mod N D ltac:(lia)) as E.
  pose proof (Z.mod_pos_bound N D HD) as Hr.
  assert (0 <= N / D) by (apply Z.div_pos; lia).
  unfold new_location. rewrite Hev. unfold new_location_even.
  destruct (Z.eqb_spec (N mod D) 0) as [E0|N0].
  - unfold located. cbn [shr_record_of_loc shr_m shr_r shr_s].
    intuition (try discriminate; try lia).
  - destruct (Z.compare_spec (2 * (N mod D)) D) as [Ec|Ec|Ec];
      unfold located; cbn [shr_record_of_loc shr_m shr_r shr_s];
      intuition (try discriminate; try lia).
Qed.

(** ** The rounding of binary64, away from the subnormal numbers and from
    overflow *)

Lemma fexp_normal (x : Z) : -1000 <= x -> fexp prec emax x = x - 53.
Proof. intros H. unfold fexp, SpecFloat.emin, prec, emax. lia. Qed.

(** A mantissa of 53 bits or more, placed at [N / D] in units of [2^ex],
    rounds to a mantissa of 53 bits within one half of its last place. *)
Lemma round_aux_located (s : bool) (mx ex : Z) (lx : location) (N D d : Z) :
  0 < D ->
  located N D (shr_record_of_loc mx lx) ->
  0 < mx ->
  Zdigits2 mx = d -> 53 <= d ->
  -900 <= ex -> d + ex <= 900 ->
  exists m e,
    binary_round_aux prec emax s mx ex lx = S754_finite s m e
    /\ 2 ^ 52 <= Zpos m < 2 ^ 53
    /\ ex + (d - 53) <= e <= ex + (d - 53) + 1
    /\ - (D * 2 ^ (e - ex)) <= 2 * (Zpos m * 2 ^ (e - ex) * D - N) <= D * 2 ^ (e - ex).
Proof.
  intros HD Hloc Hmx Hd Hd53 Hex Hhi.
  assert (Hbx : 2 ^ (d - 1) <= mx < 2 ^ d).
  { destruct mx as [|p|p]; [lia| |lia]. cbn in Hd. subst d. apply digits2_pos_bounds. }
  assert (Hmxloc : mx * D <= N < (mx + 1) * D).
  { destruct Hloc as (_ & Hb & _). by destruct lx as [|[]]. }
  unfold binary_round_aux, shr_fexp. rewrite Hd.
  rewrite fexp_normal by lia.
  replace (d + ex - 53 - ex) with (d - 53) by lia.
  destruct (shr_located N D (shr_record_of_loc mx lx) ex (d - 53) HD ltac:(lia) Hloc) as [H1 E1].
  destruct (shr (shr_record_of_loc mx lx) ex (d - 53)) as [mrs1 e1]. cbn [fst snd] in H1, E1.
  set (P := 2 ^ (d - 53)) in *.
  assert (HP : 0 < P) by (apply Z.pow_pos_nonneg; lia).
  assert (Hpd : 2 ^ d = 2 ^ 53 * P).
  { unfold P. rewrite <- Z.pow_add_r by lia. f_equal. lia. }
  assert (Hpd1 : 2 ^ (d - 1) = 2 ^ 52 * P).
  { unfold P. rewrite <- Z.pow_add_r by lia. f_equal. lia. }
  pose proof (round_located N (D * P) mrs1 ltac:(nia) H1) as [Hr1 Hr2].
  cbv zeta in Hr1, Hr2.
  set (mr := round_nearest_even (shr_m mrs1) (loc_of_shr_record mrs1)) in *.
  destruct H1 as (Hm1 & Hb1 & _).
  assert (Hm1b : 2 ^ 52 <= shr_m mrs1 < 2 ^ 53).
  { split.
    - assert ((shr_m mrs1 + 1) * (D * P) > 2 ^ 52 * (D * P)) by nia.
      assert (0 < D * P) by nia. nia.
    - assert (shr_m mrs1 * (D * P) < 2 ^ 53 * (D * P)) by nia.
      assert (0 < D * P) by nia. nia. }
  destruct (Z_lt_le_dec mr (2 ^ 53)) as [Hlt|Hge].
  - (* the rounded mantissa still has 53 bits *)
    destruct mr as [|m|m] eqn:Emr; [lia| |lia].
    assert (Hdm : Zdigits2 (Zpos m) = 53).
    { cbn. apply digits2_pos_unique; [lia|]. change (53 - 1) with 52. lia. }
    rewrite Hdm, fexp_normal by lia.
    replace (53 + e1 - 53 - e1) with 0 by lia. cbn [shr shr_record_of_loc shr_m].
    replace (e1 <=? emax - prec) with true
      by (symmetry; apply Z.leb_le; unfold emax, prec; lia).
    exists m, e1. split; [done|]. split; [lia|]. split; [lia|].
    replace (e1 - ex) with (d - 53) by lia. fold P. nia.
  - (* the rounded mantissa is 2^53 *)
    assert (Emr : mr = 2 ^ 53) by lia. rewrite Emr.
    change (Zdigits2 (2 ^ 53)) with 54. rewrite fexp_normal by lia.
    replace (54 + e1 - 53 - e1) with 1 by lia.
    cbn [shr shr_record_of_loc shr_m SpecFloat.iter_pos]. cbn.
    replace (e1 + 1 <=? emax - prec) with true
      by (symmetry; apply Z.leb_le; unfold emax, prec; lia).
    eexists _, (e1 + 1). split; [reflexivity|]. split; [cbn; lia|]. split; [lia|].
    replace (e1 + 1 - ex) with (1 + (d - 53)) by lia.
    rewrite Z.pow_add_r by lia. fold P. change (2 ^ 1) with 2.
    rewrite Emr in Hr2. change (2 ^ 53) with 9007199254740992 in Hr2.
    change (Z.pos 4503599627370496) with 4503599627370496. nia.
Qed.

(** A mantissa of exactly 53 bits is kept as it is. *)
Lemma round_aux_exact (s : bool) (m : positive) (e : Z) :
  Zpos (digits2_pos m) = 53 -> -900 <= e <= 900 ->
  binary_round_aux prec emax s (Zpos m) e loc_Exact = S754_finite s m e.
Proof.
  intros Hd He. unfold binary_round_aux, shr_fexp. cbn [Zdigits2]. rewrite Hd.
  rewrite fexp_normal by lia. replace (53 + e - 53 - e) with 0 by lia.
  cbn [shr shr_record_of_loc shr_m loc_of_shr_record round_nearest_even Zdigits2].
  rewrite Hd, fexp_normal by lia. replace (53 + e - 53 - e) with 0 by lia.
  cbn [shr shr_record_of_loc shr_m].
  by replace (e <=? emax - prec) with true
    by (symmetry; apply Z.leb_le; unfold emax, prec; lia).
Qed.

Lemma pos_iter_xO (p k : positive) : Zpos (Pos.iter xO p k) = Zpos p * 2 ^ Zpos k.
Proof.
  induction k as [|k IH] using Pos.peano_ind.
  - cbn. lia.
  - rewrite Pos.iter_succ, Pos2Z.inj_succ, Z.pow_succ_r by lia.
    rewrite Pos2Z.inj_xO, IH. ring.
Qed.

(** The number of an integer of at most 53 bits: its mantissa is the
    integer shifted to 53 bits. *)
Lemma binary_round_int (s : bool) (p : positive) (d : Z) :
  Zpos (digits2_pos p) = d -> d <= 53 ->
  exists m,
    binary_round prec emax s p 0 = S754_finite s m (d - 53)
    /\ Zpos m = Zpos p * 2 ^ (53 - d)
    /\ 2 ^ 52 <= Zpos m < 2 ^ 53.
Proof.
  intros Hd Hd53.
  pose proof (digits2_pos_bounds p) as Hb. rewrite Hd in Hb.
  assert (0 < d) by (rewrite <- Hd; lia).
  assert (Hm : 2 ^ 52 <= Zpos p * 2 ^ (53 - d) < 2 ^ 53).
  { assert (E1 : 2 ^ 53 = 2 ^ d * 2 ^ (53 - d))
      by (rewrite <- Z.pow_add_r by lia; f_equal; lia).
    assert (E2 : 2 ^ 52 = 2 ^ (d - 1) * 2 ^ (53 - d))
      by (rewrite <- Z.pow_add_r by lia; f_equal; lia).
    assert (0 < 2 ^ (53 - d)) by (apply Z.pow_pos_nonneg; lia).
    rewrite E1, E2. nia. }
  unfold binary_round. rewrite Z.add_0_r, Hd.
  rewrite fexp_normal by lia. unfold shl_align.
  destruct (d - 53 - 0) as [|k|k] eqn:Ek; [| lia |].
  - assert (Hd' : d = 53) by lia. rewrite Hd' in Hm. change (2 ^ (53 - 53)) with 1 in Hm.
    exists p. split; [|split; [rewrite Hd'; cbn; lia|lia]].
    rewrite round_aux_exact by lia. f_equal. lia.
  - assert (Hk : Zpos k = 53 - d) by lia.
    exists (Pos.iter xO p k).
    split; [|rewrite pos_iter_xO, Hk; split; [done|exact Hm]].
    apply round_aux_exact; [|lia].
    apply digits2_pos_unique; [lia|]. rewrite pos_iter_xO, Hk. exact Hm.
Qed.

(** ** Division and multiplication by 100 *)

Lemma of_Z_100 : of_Z 100 = S754_finite false 7036874417766400 (-46).
Proof. vm_compute. reflexivity. Qed.

(** [x / 100] for a normal [x]. *)
Lemma div_100_located (s : bool) (m1 : positive) (e1 : Z) :
  2 ^ 52 <= Zpos m1 < 2 ^ 53 -> -800 <= e1 <= 800 ->
  exists mx ex,
    div (S754_finite s m1 e1) (of_Z 100) = S754_finite s mx ex
    /\ 2 ^ 52 <= Zpos mx < 2 ^ 53
    /\ e1 - 7 <= ex <= e1 - 5
    /\ - (7036874417766400 * 2 ^ (ex - (e1 - 7)))
       <= 2 * (Zpos mx * 2 ^ (ex - (e1 - 7)) * 7036874417766400 - Zpos m1 * 2 ^ 53)
       <= 7036874417766400 * 2 ^ (ex - (e1 - 7)).
Proof.
  intros Hm He. rewrite of_Z_100. unfold div, SFdiv.
  replace (xorb s false) with s by (by destruct s).
  unfold SFdiv_core_binary.
  assert (Hd1 : Zdigits2 (Zpos m1) = 53) by (cbn; by apply digits2_pos_unique).
  rewrite Hd1. change (Zdigits2 7036874417766400) with 53.
  rewrite fexp_normal by lia.
  replace (Z.min (53 + e1 - (53 + -46) - 53) (e1 - -46)) with (e1 - 7) by lia.
  replace (e1 - -46 - (e1 - 7)) with 53 by lia.
  rewrite Z.shiftl_mul_pow2 by lia.
  set (N := Zpos m1 * 2 ^ 53). set (D := 7036874417766400).
  assert (HN : 0 <= N) by (unfold N; lia).
  assert (HD : 0 < D) by done.
  pose proof (Z.div_mod N D ltac:(lia)) as E.
  pose proof (Z.mod_pos_bound N D HD) as Hr.
  pose proof (located_division N D HN HD eq_refl) as Hloc.
  unfold Z.modulo, Z.div in E, Hr, Hloc. destruct (Z.div_eucl N D) as [q r].
  assert (Hq : 2 ^ 52 <= q < 2 ^ 54).
  { change (2 ^ 53) with 9007199254740992 in *. change (2 ^ 52) with 4503599627370496 in *.
    change (2 ^ 54) with 18014398509481984. unfold N, D in *. lia. }
  pose proof (digits_between q 53 54 ltac:(lia) ltac:(lia) ltac:(exact Hq)) as Hdq.
  destruct (round_aux_located s q (e1 - 7) (new_location D r) N D (Zdigits2 q)
              HD Hloc ltac:(change (2 ^ 52) with 4503599627370496 in Hq; lia)
              eq_refl ltac:(lia) ltac:(lia) ltac:(lia))
    as (mx & ex & Ex & Hmx & Hex & Hb).
  exists mx, ex. split; [exact Ex|]. split; [exact Hmx|]. split; [lia|].
  unfold N, D in Hb. lia.
Qed.

(** [x * 100] for a normal [x]. *)
Lemma mul_100_located (s : bool) (mx : positive) (ex : Z) :
  2 ^ 52 <= Zpos mx < 2 ^ 53 -> -800 <= ex <= 700 ->
  exists my ey,
    mul (S754_finite s mx ex) (of_Z 100) = S754_finite s my ey
    /\ 2 ^ 52 <= Zpos my < 2 ^ 53
    /\ ex + 6 <= ey <= ex + 8
    /\ - 2 ^ (ey - (ex - 46))
       <= 2 * (Zpos my * 2 ^ (ey - (ex - 46)) - Zpos mx * 7036874417766400)
       <= 2 ^ (ey - (ex - 46)).
Proof.
  intros Hm He. rewrite of_Z_100. unfold mul, SFmul.
  replace (xorb s false) with s by (by destruct s).
  rewrite Pos2Z.inj_mul.
  set (N := Zpos mx * 7036874417766400).
  assert (Hloc : located N 1 (shr_record_of_loc N loc_Exact)).
  { unfold located. cbn [shr_record_of_loc shr_m shr_r shr_s].
    unfold N. intuition (try discriminate; try lia). }
  assert (HNb : 2 ^ 104 <= N < 2 ^ 106).
  { change (2 ^ 53) with 9007199254740992 in *. change (2 ^ 52) with 4503599627370496 in *.
    change (2 ^ 104) with 20282409603651670423947251286016.
    change (2 ^ 106) with 81129638414606681695789005144064. unfold N. lia. }
  pose proof (digits_between N 105 106 ltac:(lia) ltac:(lia) ltac:(exact HNb)) as Hdq.
  destruct (round_aux_located s N (ex + -46) loc_Exact N 1 (Zdigits2 N)
              ltac:(lia) Hloc ltac:(unfold N; lia)
              eq_refl ltac:(lia) ltac:(lia) ltac:(lia))
    as (my & ey & Ey & Hmy & Hey & Hb).
  exists my, ey. split; [exact Ey|]. split; [exact Hmy|]. split; [lia|].
  replace (ey - (ex - 46)) with (ey - (ex + -46)) by lia. lia.
Qed.

(** ** The round trip *)

(** An integer below 2^51, divided by 100 and multiplied by 100 again, is
    a number with a fraction, less than one half away from the integer. *)
Lemma round_trip_finite (s : bool) (p : positive) :
  Zpos p < 2 ^ 51 ->
  exists my kp,
    mul (div (binary_round prec emax s p 0) (of_Z 100)) (of_Z 100)
    = S754_finite s my (Zneg kp)
    /\ - 2 ^ (Zpos kp - 1) < Zpos my - Zpos p * 2 ^ Zpos kp < 2 ^ (Zpos kp - 1).
Proof.
  intros Hn. set (n := Zpos p) in *.
  pose proof (digits_between n 1 51 ltac:(lia) ltac:(lia)
                ltac:(change (2 ^ (1 - 1)) with 1; unfold n; lia)) as Hd.
  unfold n in Hd. cbn [Zdigits2] in Hd.
  pose proof (digits2_pos_bounds p) as Hnb.
  destruct (binary_round_int s p (Zpos (digits2_pos p)) eq_refl ltac:(lia))
    as (m1 & E1 & Hm1 & Hb1).
  set (d := Zpos (digits2_pos p)) in *. fold n in Hm1, Hnb. clearbody d n.
  set (T := 2 ^ (53 - d)) in *.
  destruct (div_100_located s m1 (d - 53) Hb1 ltac:(lia)) as (mx & ex & Ex & Hbx & Hex & Hrx).
  destruct (mul_100_located s mx ex Hbx ltac:(lia)) as (my & ey & Ey & Hby & Hey & Hry).
  rewrite E1, Ex, Ey. clear E1 Ex Ey.
  set (K1 := ex - (d - 53 - 7)) in *. set (K2 := ey - (ex - 46)) in *.
  assert (HK1 : K1 = 0 \/ K1 = 1 \/ K1 = 2) by (unfold K1; lia).
  assert (HK2 : K2 = 52 \/ K2 = 53 \/ K2 = 54) by (unfold K2; lia).
  assert (Eey : ey = d - 106 + K1 + K2) by (unfold K1, K2; lia).
  clearbody K1 K2. clear Hex Hey.
  destruct (Z_le_gt_dec 0 ey) as [Hnonneg|Hneg].
  - (* the product would be an integer of 53 bits *)
    exfalso. clearbody T.
    destruct HK1 as [-> | [-> | ->]]; destruct HK2 as [-> | [-> | ->]];
      repeat match goal with
             | H : context [2 ^ ?e] |- _ =>
                 let v := eval vm_compute in (2 ^ e) in change (2 ^ e) with v in H
             end;
      lia.
  - destruct ey as [|pp|kp]; [lia|lia|].
    exists my, kp. split; [reflexivity|].
    set (H := 2 ^ (Zpos kp - 1)).
    assert (HU : 2 ^ Zpos kp = 2 * H).
    { unfold H. rewrite <- Z.pow_succ_r by lia. f_equal. lia. }
    assert (ET : T = H * 2 ^ (K1 + K2 - 52)).
    { unfold T, H. rewrite <- Z.pow_add_r by lia. f_equal. lia. }
    assert (HH : 2 ^ Z.max 0 (54 - K1 - K2) <= H).
    { unfold H. apply Z.pow_le_mono_r; lia. }
    rewrite HU. clearbody H T. clear HU.
    assert (Em : Zpos m1 = n * H * 2 ^ (K1 + K2 - 52)) by (rewrite Hm1, ET; ring).
    clear Hm1 ET Hnb Eey Hneg.
    destruct HK1 as [-> | [-> | ->]]; destruct HK2 as [-> | [-> | ->]];
      repeat match goal with
             | H : context [2 ^ ?e] |- _ =>
                 let v := eval vm_compute in (2 ^ e) in change (2 ^ e) with v in H
             end;
      lia.
Qed.

Lemma Math_round_fraction (s : bool) (m kp : positive) :
  Math_round (S754_finite s m (Zneg kp))
  = binary_normalize prec emax
      (((if s then Zneg m else Zpos m) + 2 ^ (Zpos kp - 1)) / 2 ^ Zpos kp) 0 s.
Proof.
  unfold Math_round. rewrite Z.shiftr_div_pow2 by lia. by rewrite Z.shiftl_1_l.
Qed.

(** C9, what the claim misses: from 2^51 on a binary64 number has no
    room for more than one binary place after the point, and the round
    trip can come back one unit higher. *)
Lemma round_trip_off_by_one :
  Math_round (mul (div (of_Z 4000000000000002) (of_Z 100)) (of_Z 100))
  = of_Z 4000000000000003
  /\ of_Z 4000000000000003 <> of_Z 4000000000000002
  /\ 2 ^ 51 <= 4000000000000002 < 2 ^ 52.
Proof.
  split; [vm_compute; reflexivity|]. split; [vm_compute; discriminate|].
  vm_compute. split; [discriminate|reflexivity].
Qed.

Lemma truthy_of_Z (n : Z) : n <> 0 -> - 2 ^ 51 < n < 2 ^ 51 -> truthy (of_Z n) = true.
Proof.
  intros Hn0 Hn.
  assert (H : forall s p, Zpos p < 2 ^ 51 -> truthy (binary_round prec emax s p 0) = true).
  { intros s p Hp.
    pose proof (digits_between (Zpos p) 1 51 ltac:(lia) ltac:(lia)
                  ltac:(change (2 ^ (1 - 1)) with 1; lia)) as Hd.
    cbn [Zdigits2] in Hd.
    destruct (binary_round_int s p _ eq_refl ltac:(lia)) as (m & E & _).
    by rewrite E. }
  destruct n as [|p|p]; [done| |]; apply H; lia.
Qed.

(** C9, as the code has it. An integer amount of minor units of magnitude
    below 2^51, turned into major units by the division by 100 and back
    by the multiplication by 100 and [Math.round], is the amount itself,
    as binary64 numbers compute them. So the price the order body carries
    for a draft item is the price the draft stores, and the price a draft
    item takes from a product with one sale price is the value the ERP
    gave for it. *)
Theorem minor_major_round_trip (n : Z) :
  - 2 ^ 51 < n < 2 ^ 51 ->
  Math_round (mul (div (of_Z n) (of_Z 100)) (of_Z 100)) = of_Z n
  /\ (forall i, item_price i = of_Z n ->
        ob_price (orderPosition (toOrderItem i)) = Some (item_price i))
  /\ (forall row sp, mp_salePrices row = Some [sp] -> sp_value sp = of_Z n ->
        Math_round (mul (prod_price (mapProduct row)) (of_Z 100)) = of_Z n).
Proof.
  intros Hn.
  assert (Hmain : Math_round (mul (div (of_Z n) (of_Z 100)) (of_Z 100)) = of_Z n).
  { destruct n as [|p|p].
    - vm_compute. reflexivity.
    - change (of_Z (Zpos p)) with (binary_round prec emax false p 0).
      destruct (round_trip_finite false p ltac:(lia)) as (my & kp & E & Hb).
      rewrite E, Math_round_fraction.
      set (H := 2 ^ (Zpos kp - 1)) in *.
      assert (HU : 2 ^ Zpos kp = 2 * H).
      { unfold H. rewrite <- Z.pow_succ_r by lia. f_equal. lia. }
      rewrite HU in *. clearbody H.
      replace ((Zpos my + H) / (2 * H)) with (Zpos p); [reflexivity|].
      apply (Z.div_unique_pos _ _ _ (Zpos my + H - 2 * (Zpos p * H))); [lia|ring].
    - change (of_Z (Zneg p)) with (binary_round prec emax true p 0).
      destruct (round_trip_finite true p ltac:(lia)) as (my & kp & E & Hb).
      rewrite E, Math_round_fraction.
      set (H := 2 ^ (Zpos kp - 1)) in *.
      assert (HU : 2 ^ Zpos kp = 2 * H).
      { unfold H. rewrite <- Z.pow_succ_r by lia. f_equal. lia. }
      rewrite HU in *. clearbody H.
      replace ((Zneg my + H) / (2 * H)) with (Zneg p); [reflexivity|].
      apply (Z.div_unique_pos _ _ _ (Zneg my + H + 2 * (Zpos p * H))); [lia|].
      rewrite <- (Pos2Z.opp_pos p). ring. }
  split; [exact Hmain|]. split.
  - intros i Hi. unfold orderPosition, toOrderItem. cbn [ob_price oi_price].
    rewrite Hi. f_equal. exact Hmain.
  - intros row sp Hrow Hsp. unfold mapProduct. cbn [prod_price].
    unfold pickSalePrice. rewrite Hrow. cbn [find].
    assert (Hc : forall o : option SalePrice,
               (o = Some sp \/ o = None) -> default sp o = sp)
      by (intros o [-> | ->]; reflexivity).
    rewrite Hc.
    + rewrite Hsp. destruct (Z.eq_dec n 0) as [-> | Hn0]; [vm_compute; reflexivity|].
      rewrite truthy_of_Z by done. exact Hmain.
    + repeat match goal with
             | |- context [if ?b then _ else _] => destruct b
             end; auto.
Qed.

(** The amount 150000, that is 1500.00 in major units: by itself, as the
    price of a draft item, and as the sale price of a product. *)
Lemma minor_major_round_trip_witness :
  Math_round (mul (div (of_Z 150000) (of_Z 100)) (of_Z 100)) = of_Z 150000
  /\ ob_price (orderPosition (toOrderItem (item "A" "Widget A" 150000 1)))
     = Some (of_Z 150000)
  /\ Math_round (mul (prod_price (mapProduct (product "A" "Widget A" 150000))) (of_Z 100))
     = of_Z 150000.
Proof.
  destruct (minor_major_round_trip 150000) as [H1 [H2 H3]];
    [vm_compute; split; reflexivity|].
  split; [exact H1|]. split.
  - exact (H2 (item "A" "Widget A" 150000 1) eq_refl).
  - exact (H3 (product "A" "Widget A" 150000) _ eq_refl eq_refl).
Defined.

(* ===================================================================== *)
(** * Names, hrefs and the lists of the configuration                   *)
(* ===================================================================== *)

(** ** Strings *)

Lemma chars_of_chars l : chars (of_chars l) = l.
Proof. induction l as [|c l IH]; [done|]. simpl. by rewrite IH. Qed.

Lemma of_chars_chars s : of_chars (chars s) = s.
Proof. induction s as [|c s IH]; [done|]. simpl. by rewrite IH. Qed.

Lemma chars_app a b : chars (a +:+ b) = chars a ++ chars b.
Proof. induction a as [|c a IH]; [done|]. simpl. by rewrite IH. Qed.

Lemma chars_inj a b : chars a = chars b -> a = b.
Proof. intros H. by rewrite <- (of_chars_chars a), <- (of_chars_chars b), H. Qed.

Lemma append_assoc (a b c : string) : a +:+ b +:+ c = (a +:+ b) +:+ c.
Proof. apply chars_inj. by rewrite !chars_app, app_assoc. Qed.

Lemma append_nil_r (a : string) : a +:+ "" = a.
Proof. apply chars_inj. by rewrite chars_app, app_nil_r. Qed.

Lemma str_truthy_of_chars l : str_truthy (of_chars l) = match l with [] => false | _ => true end.
Proof. by destruct l. Qed.





Lemma drop_spaces_idem l : drop_spaces (drop_spaces l) = drop_spaces l.
Proof.
  induction l as [|c l IH]; [done|]. simpl. destruct (is_space c) eqn:E; [done|].
  simpl. by rewrite E.
Qed.

Lemma drop_spaces_head l : no_head_space (drop_spaces l).
Proof.
  induction l as [|c l IH]; [done|]. simpl. destruct (is_space c) eqn:E; [done|]. exact E.
Qed.

Lemma drop_spaces_id l : no_head_space l -> drop_spaces l = l.
Proof. destruct l as [|c l]; [done|]. simpl. by intros ->. Qed.

Lemma trim_chars_id l : no_head_space l -> no_head_space (rev l) -> trim_chars l = l.
Proof.
  intros H1 H2. unfold trim_chars. rewrite (drop_spaces_id l H1), (drop_spaces_id _ H2).
  apply rev_involutive.
Qed.

Lemma no_head_space_app_r a l : no_head_space (a :: l) -> no_head_space ((a :: l) ++ []).
Proof. by rewrite app_nil_r. Qed.

(** Dropping white space at the end leaves the head as it is. *)
Lemma drop_end_head l :
  no_head_space l -> no_head_space (rev (drop_spaces (rev l))).
Proof.
  induction l as [|c l IH] using rev_ind; [done|].
  rewrite rev_unit. simpl. destruct (is_space c) eqn:E.
  - intros H. apply IH. destruct l; [done|exact H].
  - intros H. simpl. rewrite rev_involutive. exact H.
Qed.

Lemma trim_chars_head l : no_head_space (trim_chars l).
Proof. unfold trim_chars. apply drop_end_head, drop_spaces_head. Qed.

Lemma trim_chars_last l : no_head_space (rev (trim_chars l)).
Proof. unfold trim_chars. rewrite rev_involutive. apply drop_spaces_head. Qed.

Lemma trim_chars_idem l : trim_chars (trim_chars l) = trim_chars l.
Proof. apply trim_chars_id; [apply trim_chars_head|apply trim_chars_last]. Qed.


(** A change of letter case commutes with the handling of white space. *)
Section CaseMap.
Variable f : ascii -> ascii.
Hypothesis f_space : forall c, is_space (f c) = is_space c.
Hypothesis f_blank : f " "%char = " "%char.



End CaseMap.














(** ** Hrefs *)

Lemma starts_with_app p r : starts_with p (p ++ r) = true.
Proof. induction p as [|c p IH]; [done|]. simpl. by rewrite Ascii.eqb_refl. Qed.

Lemma starts_with_prefix p q l : starts_with (p ++ q) l = true -> starts_with p l = true.
Proof.
  revert l. induction p as [|c p IH]; intros l; [done|]. simpl.
  destruct l as [|a l]; [done|]. destruct (Ascii.eqb c a); [apply IH|done].
Qed.

Lemma starts_with_longer p x r :
  (length p <= length x)%nat -> starts_with p (x ++ r) = starts_with p x.
Proof.
  revert x. induction p as [|c p IH]; intros x Hl; [by destruct x|].
  destruct x as [|a x]; [simpl in Hl; lia|]. simpl.
  destruct (Ascii.eqb c a); [apply IH; simpl in Hl; lia|done].
Qed.

Lemma after_first_eq p l :
  after_first p l
  = if starts_with p l then Some (drop (length p) l)
    else match l with [] => None | _ :: l' => after_first p l' end.
Proof. by destruct l. Qed.

(** When [p] first occurs in [a ++ p] at its end, a longer marker [p ++ q]
    first occurs in [a ++ p ++ q ++ r] at the same place. *)
Lemma after_first_at a p q r :
  after_first p (a ++ p) = Some [] ->
  after_first (p ++ q) (a ++ (p ++ q) ++ r) = Some r.
Proof.
  induction a as [|c a IH]; intros H.
  - cbn [app]. rewrite after_first_eq, starts_with_app. by rewrite drop_app_length.
  - rewrite after_first_eq in H. cbn [app] in *.
    destruct (starts_with p (c :: a ++ p)) eqn:E.
    + injection H as H. apply (f_equal length) in H.
      rewrite length_drop in H. cbn in H. rewrite length_app in H. lia.
    + rewrite after_first_eq.
      destruct (starts_with (p ++ q) (c :: a ++ (p ++ q) ++ r)) eqn:E2.
      * apply starts_with_prefix in E2.
        rewrite <- app_assoc, (app_comm_cons a), (app_assoc (c :: a)) in E2.
        rewrite starts_with_longer in E2 by (rewrite length_app; cbn; lia).
        cbn [app] in E2. congruence.
      * by apply IH.
Qed.

Lemma before_char_app c l r :
  c ∉ l -> before_char c (l ++ c :: r) = l.
Proof.
  induction l as [|a l IH]; intros H; simpl.
  - by rewrite Ascii.eqb_refl.
  - apply not_elem_of_cons in H as [H1 H2].
    destruct (Ascii.eqb_spec a c); [congruence|]. by rewrite IH.
Qed.

Lemma before_char_none c l : c ∉ l -> before_char c l = l.
Proof.
  induction l as [|a l IH]; intros H; [done|]. simpl.
  apply not_elem_of_cons in H as [H1 H2].
  destruct (Ascii.eqb_spec a c); [congruence|]. by rewrite IH.
Qed.

Lemma segment_of id rest :
  "/"%char ∉ chars id -> "?"%char ∉ chars id -> id_end rest ->
  before_char "/"%char (before_char "?"%char (chars id ++ chars rest)) = chars id.
Proof.
  intros H1 H2 [-> | [H | H]].
  - cbn [chars]. rewrite app_nil_r, (before_char_none "?"%char) by done.
    by rewrite before_char_none.
  - destruct rest as [|c rest]; [done|]. unfold startsWith in H. cbn [chars starts_with] in H.
    destruct (Ascii.eqb_spec "/" c) as [<-|]; [|done]. cbn [chars].
    assert (E : before_char "?"%char (chars id ++ "/"%char :: chars rest)
                = chars id ++ before_char "?"%char ("/"%char :: chars rest)).
    { clear H1. induction (chars id) as [|a l IH]; [done|]. simpl.
      apply not_elem_of_cons in H2 as [Ha Hl].
      destruct (Ascii.eqb_spec a "?"); [congruence|]. by rewrite IH. }
    rewrite E. cbn. by rewrite before_char_app.
  - destruct rest as [|c rest]; [done|]. unfold startsWith in H. cbn [chars starts_with] in H.
    destruct (Ascii.eqb_spec "?" c) as [<-|]; [|done]. cbn [chars].
    rewrite before_char_app by done. by rewrite before_char_none.
Qed.

Lemma chars_nil s : chars s = [] -> s = "".
Proof. by destruct s. Qed.

Lemma extractId_segment (base marker tail : string) :
  marker_at_end base marker ->
  DemandPdf.extractIdFromHref (Some (base +:+ marker +:+ tail)) marker
  = match before_char "/"%char (before_char "?"%char (chars tail)) with
    | [] => None
    | seg => Some (of_chars seg)
    end.
Proof.
  intros Hm. unfold DemandPdf.extractIdFromHref, marker_at_end in *.
  rewrite chars_app in Hm.
  pose proof (after_first_at (chars base) (chars marker) [] (chars tail) Hm) as H.
  rewrite app_nil_r in H. rewrite !chars_app, H.
  destruct (str_truthy (base +:+ marker +:+ tail)) eqn:E;
    [by destruct (before_char _ _)|].
  destruct base; [|done]. destruct marker; [|done]. destruct tail; [done|]. by cbn in E.
Qed.

Lemma extractId_after_marker (base marker id rest : string) :
  marker_at_end base marker ->
  id <> "" -> "/"%char ∉ chars id -> "?"%char ∉ chars id -> id_end rest ->
  DemandPdf.extractIdFromHref (Some (base +:+ marker +:+ id +:+ rest)) marker = Some id.
Proof.
  intros Hm Hid H1 H2 Hr.
  rewrite extractId_segment by done. rewrite chars_app, segment_of by done.
  destruct (chars id) eqn:E; [by apply chars_nil in E|]. by rewrite <- E, of_chars_chars.
Qed.

(** X2. In an href whose first occurrence of the marker ends the prefix
    base+marker, extractIdFromHref returns the id that follows the marker,
    for any non-empty id without '/' and '?' that is followed by nothing, by
    a further path or by a query; when nothing stands between the marker and
    such a tail it returns null. *)
Theorem extractIdFromHref_of_href (base marker id rest : string) :
  marker_at_end base marker ->
  id <> "" -> "/"%char ∉ chars id -> "?"%char ∉ chars id -> id_end rest ->
  DemandPdf.extractIdFromHref (Some (base +:+ marker +:+ id +:+ rest)) marker = Some id
  /\ DemandPdf.extractIdFromHref (Some (base +:+ marker +:+ rest)) marker = None.
Proof.
  intros Hm Hid H1 H2 Hr. split; [by apply extractId_after_marker|].
  rewrite extractId_segment by done.
  pose proof (segment_of "" rest) as H. cbn [chars app] in H. rewrite H; [done| | |done];
    apply not_elem_of_nil.
Qed.

Lemma extractIdFromHref_of_href_witness :
  DemandPdf.extractIdFromHref
    (Some ("https://api.moysklad.ru/api/remap/1.2" +:+ "/entity/customerorder/" +:+ "O1"
           +:+ "?expand=agent")) "/entity/customerorder/" = Some "O1"
  /\ DemandPdf.extractIdFromHref
       (Some ("https://api.moysklad.ru/api/remap/1.2" +:+ "/entity/customerorder/"
              +:+ "?expand=agent")) "/entity/customerorder/" = None.
Proof.
  apply extractIdFromHref_of_href.
  - reflexivity.
  - discriminate.
  - compute_done.
  - compute_done.
  - right; right; reflexivity.
Defined.

Lemma extractType_chars_eq l :
  extractType_chars l
  = match l with
    | [] => None
    | _ :: l' =>
        if starts_with (chars "/entity/") l then
          match before_char "/"%char (before_char "?"%char (drop 8 l)) with
          | [] => extractType_chars l'
          | seg => Some seg
          end
        else extractType_chars l'
    end.
Proof. by destruct l. Qed.

Lemma extractType_chars_at a t :
  after_first (chars "/entity/") (a ++ chars "/entity/") = Some [] ->
  before_char "/"%char (before_char "?"%char t) <> [] ->
  extractType_chars (a ++ chars "/entity/" ++ t)
  = Some (before_char "/"%char (before_char "?"%char t)).
Proof.
  intros H Ht. induction a as [|c a IH].
  - rewrite extractType_chars_eq. cbn [app chars].
    change (starts_with _ _) with (starts_with (chars "/entity/") (chars "/entity/" ++ t)).
    rewrite starts_with_app. cbn [drop app].
    by destruct (before_char _ _).
  - rewrite after_first_eq in H. cbn [app] in H.
    destruct (starts_with (chars "/entity/") (c :: a ++ chars "/entity/")) eqn:E.
    + injection H as H. apply (f_equal length) in H.
      rewrite length_drop in H. cbn in H. rewrite length_app in H. cbn in H. lia.
    + assert (E2 : starts_with (chars "/entity/") (c :: a ++ chars "/entity/" ++ t) = false).
      { etrans; [|exact E]. rewrite (app_assoc a).
        apply (starts_with_longer _ (c :: a ++ chars "/entity/")).
        cbn [length]. rewrite length_app. cbn. lia. }
      rewrite extractType_chars_eq. cbn [app]. rewrite E2. by apply IH.
Qed.

Lemma extractType_after_marker (base ty rest : string) :
  marker_at_end base "/entity/" ->
  ty <> "" -> "/"%char ∉ chars ty -> "?"%char ∉ chars ty -> id_end rest ->
  extractTypeFromHref (Some (base +:+ "/entity/" +:+ ty +:+ rest)) = Some ty.
Proof.
  intros Hm Hty H1 H2 Hr. unfold extractTypeFromHref, marker_at_end in *.
  rewrite chars_app in Hm.
  assert (T : truthy_str (Some (base +:+ "/entity/" +:+ ty +:+ rest))
              = Some (base +:+ "/entity/" +:+ ty +:+ rest)).
  { unfold truthy_str, opt_str_truthy. by destruct base. }
  rewrite T. rewrite !chars_app.
  rewrite extractType_chars_at; [| done |].
  - rewrite segment_of by done. cbn. by rewrite of_chars_chars.
  - rewrite segment_of by done. by destruct ty.
Qed.

(** X3. A webhook event that carries nothing but the href
    base/entity/<type>/<id> of its entity is read back as that type and that
    id, for any non-empty type and id without '/' and '?', when '/entity/'
    does not occur earlier in the base. *)
Theorem event_read_from_href (base ty id action : string) :
  marker_at_end base "/entity/" ->
  ty <> "" -> "/"%char ∉ chars ty -> "?"%char ∉ chars ty ->
  id <> "" -> "/"%char ∉ chars id -> "?"%char ∉ chars id ->
  entityType (hrefEvent (entityHref base ty id) action) = Some ty
  /\ entity_id (hrefEvent (entityHref base ty id) action) ("/entity/" +:+ ty +:+ "/") = Some id.
Proof.
  intros Hm Hty T1 T2 Hid I1 I2.
  assert (Hne : opt_str_truthy (Some (entityHref base ty id)) = true).
  { unfold entityHref. cbn. by destruct base. }
  unfold entityType, entity_id, event_href, or_str, hrefEvent, ev_metaType, ev_metaHref,
    ev_orderId, ev_entityId, ev_href, ev_entityHref.
  rewrite Hne. cbn [opt_str_truthy]. split.
  - unfold entityHref.
    rewrite (extractType_after_marker base ty ("/" +:+ id)); try done.
    right; left. reflexivity.
  - unfold entityHref.
    pose proof (extractId_after_marker base ("/entity/" +:+ ty +:+ "/") id "") as H.
    rewrite append_nil_r in H. rewrite <- !append_assoc in H. apply H; try done; [|by left].
    unfold marker_at_end in *. rewrite !chars_app in *.
    pose proof (after_first_at (chars base) (chars "/entity/") (chars ty ++ chars "/") [] Hm) as G.
    rewrite !app_nil_r in G. exact G.
Qed.

Lemma event_read_from_href_witness :
  entityType (hrefEvent (entityHref "https://api.moysklad.ru/api/remap/1.2" "demand" "D3")
                "CREATE") = Some "demand"
  /\ entity_id (hrefEvent (entityHref "https://api.moysklad.ru/api/remap/1.2" "demand" "D3")
                  "CREATE") ("/entity/" +:+ "demand" +:+ "/") = Some "D3".
Proof.
  apply event_read_from_href; [reflexivity|discriminate|compute_done|compute_done
                              |discriminate|compute_done|compute_done].
Defined.

(** ** Lists in the configuration *)



Lemma split_on_pieces c cur l :
  c ∉ cur -> Forall (fun p => c ∉ p) (split_on c cur l).
Proof.
  revert cur. induction l as [|a l IH]; intros cur H; simpl.
  - by constructor.
  - destruct (Ascii.eqb_spec a c) as [->|Hn].
    + constructor; [done|]. apply IH, not_elem_of_nil.
    + apply IH. rewrite elem_of_app, list_elem_of_singleton. intros [?|?]; congruence.
Qed.

Lemma drop_spaces_sub l c : c ∈ drop_spaces l -> c ∈ l.
Proof.
  induction l as [|a l IH]; [done|]. simpl. destruct (is_space a); [|done].
  intros H. right. by apply IH.
Qed.

Lemma trim_chars_sub l c : c ∈ trim_chars l -> c ∈ l.
Proof.
  unfold trim_chars. intros H. apply list_elem_of_In, in_rev, list_elem_of_In in H.
  apply drop_spaces_sub in H. apply list_elem_of_In, in_rev, list_elem_of_In in H.
  by apply drop_spaces_sub.
Qed.

(** X4. Every entry of a list read by envList is non-empty, has no white
    space at either end and contains no comma, whatever the variable holds
    or when it is not set. *)
Theorem envList_entries (v : option string) : Forall clean_entry (envList v).
Proof.
  unfold envList. apply Forall_forall. intros s Hs.
  apply list_elem_of_filter in Hs as [Ht Hs].
  apply list_elem_of_In, in_map_iff in Hs as [l [<- Hl]]. apply list_elem_of_In in Hl.
  split; [by destruct (trim_chars l)|split].
  - unfold trim. by rewrite chars_of_chars, trim_chars_idem.
  - rewrite chars_of_chars. intros Hc. apply trim_chars_sub in Hc.
    pose proof (split_on_pieces ","%char [] (chars (default "" v)) (not_elem_of_nil _)) as F.
    rewrite Forall_forall in F. by apply (F l).
Qed.







(* ===================================================================== *)
(** * demand-pdf.ts and the catalogue: quantities and ids               *)
(* ===================================================================== *)

(** ** Comparisons of numbers *)

Lemma SFcompare_antisym a b :
  SFcompare b a = option_map CompOpp (SFcompare a b).
Proof.
  destruct a as [[]| [] | |[] m1 e1], b as [[]| [] | |[] m2 e2]; try reflexivity; cbn;
    rewrite (Z.compare_antisym e1 e2); destruct (e1 ?= e2); cbn; try reflexivity;
    change (PosDef.Pos.compare_cont Eq ?x ?y) with (Pos.compare x y);
    rewrite (Pos.compare_antisym m1 m2); by destruct (m1 ?= m2)%positive.
Qed.

Lemma ltb_asym a b : ltb a b = true -> ltb b a = false.
Proof.
  unfold ltb, SFltb. rewrite (SFcompare_antisym a b).
  by destruct (SFcompare a b) as [[]|].
Qed.

Lemma ltb_irrefl a : ltb a a = false.
Proof. destruct (ltb a a) eqn:E; [|done]. by rewrite (ltb_asym a a E) in E. Qed.

Lemma ltb_nan a : ltb S754_nan a = false.
Proof. reflexivity. Qed.

(** [Math.max(a, b)] is below neither of its arguments. *)
Lemma Math_max_lower a b : ltb (Math_max a b) a = false /\ ltb (Math_max a b) b = false.
Proof.
  unfold Math_max. destruct (is_nan a || is_nan b); [done|].
  destruct (ltb a b) eqn:E1; [by split; [apply ltb_asym|apply ltb_irrefl]|].
  destruct (ltb b a) eqn:E2; [by split; [apply ltb_irrefl|]|].
  destruct a as [[]| | |], b as [[]| | |]; by rewrite ?ltb_irrefl.
Qed.

(** ** Shipment references *)

Lemma demandRefIds_spec seen l :
  NoDup (DemandPdf.demandRefIds seen l)
  /\ (forall i, i ∈ DemandPdf.demandRefIds seen l
                <-> (i ≠ "" /\ (i ∉ seen) /\ i ∈ map dr_id l)).
Proof.
  revert seen. induction l as [|d l IH]; intros seen.
  - split; [constructor|]. intros i. cbn. split; [by intros ?%elem_of_nil|].
    by intros (_ & _ & ?%elem_of_nil).
  - cbn [DemandPdf.demandRefIds map].
    destruct (str_truthy (dr_id d)) eqn:Et; cbn [andb];
      [destruct (bool_decide (dr_id d ∈ seen)) eqn:Es; cbn [negb]|].
    + apply bool_decide_eq_true in Es. destruct (IH seen) as [N M]. split; [done|].
      intros i. rewrite M, elem_of_cons. split.
      * intros (? & ? & ?). split; [done|]. split; [done|by right].
      * intros (? & ? & [->|?]); done.
    + apply bool_decide_eq_false in Es. destruct (IH ({[dr_id d]} ∪ seen)) as [N M].
      split.
      * constructor; [|done]. rewrite M. intros (_ & H & _). apply H.
        apply elem_of_union_l. by apply elem_of_singleton.
      * intros i. rewrite !elem_of_cons, M. split.
        -- intros [->|(? & H & ?)].
           ++ split; [by destruct (dr_id d)|]. split; [done|by left].
           ++ split; [done|]. split; [|by right].
              intros Hi. apply H. by apply elem_of_union_r.
        -- intros (? & ? & [->|?]); [by left|]. destruct (decide (i = dr_id d)); [by left|].
           right. split; [done|]. split; [|done].
           intros [?%elem_of_singleton|?]%elem_of_union; done.
    + destruct (IH seen) as [N M]. split; [done|].
      intros i. rewrite M, elem_of_cons. split.
      * intros (? & ? & ?). split; [done|]. split; [done|by right].
      * intros (Hi & ? & [->|?]); [|done]. by destruct (dr_id d).
Qed.

(** X6. buildDemandPdfData collects the shipments of an order without
    repetition: the ids it gathers from order.demands are pairwise distinct
    and are exactly the non-empty ids listed there, so no shipment is
    counted twice. *)
Theorem shipments_counted_once (l : list DemandRef) :
  NoDup (DemandPdf.demandRefIds ∅ l)
  /\ (forall i, i ∈ DemandPdf.demandRefIds ∅ l <-> (i ≠ "" /\ i ∈ map dr_id l)).
Proof.
  destruct (demandRefIds_spec ∅ l) as [N M]. split; [done|].
  intros i. rewrite M. split; [by intros (? & _ & ?)|]. intros [? ?]. split; [done|].
  split; [apply not_elem_of_empty|done].
Qed.

(** ** Amounts that are never negative *)

(** X7. In the data buildDemandPdfData returns, whatever the ERP answers, no
    line has a remaining quantity less than zero and the amount left to pay
    is never less than zero. *)
Theorem remaining_never_negative (env : Env) (demand : Demand) (dps : list Position) :
  Forall (fun l => never_negative (DemandPdf.remainingQty l))
         (DemandPdf.positions (DemandPdf.buildDemandPdfData env demand dps))
  /\ never_negative (DemandPdf.leftToPay (DemandPdf.buildDemandPdfData env demand dps)).
Proof.
  assert (P : forall l, Forall (fun l => never_negative (DemandPdf.remainingQty l))
                          (map DemandPdf.plainLine l)).
  { intros l. apply Forall_forall. intros x Hx.
    apply list_elem_of_In, in_map_iff in Hx as [p [<- _]]. by intros q. }
  unfold DemandPdf.buildDemandPdfData.
  destruct (DemandPdf.extractIdFromHref _ _) as [orderId|]; [|by split; [apply P|intros q]].
  destruct (getCustomerOrder env orderId) as [order|]; [|by split; [apply P|intros q]].
  unfold DemandPdf.reconcile. cbn [DemandPdf.positions DemandPdf.leftToPay]. split.
  - apply Forall_app. split; [|apply P].
    apply Forall_forall. intros x Hx.
    apply list_elem_of_In, in_map_iff in Hx as [p [<- _]].
    intros q [= <-]. apply Math_max_lower.
  - intros q. destruct (DemandPdf.orderTotalOf _ _); [|done].
    intros [= <-]. apply Math_max_lower.
Qed.

(** ** The items of a draft *)

(** X8. Every item of a draft order has a quantity that is not less than 1
    and the id of a product that was both requested and returned by the
    catalogue; a draft never has more items than the request. *)
Theorem draft_items_from_catalog (products : list Product) (its : list RequestItem) :
  Forall (fun it => ltb (item_quantity it) (of_Z 1) = false
                    /\ productId it ∈ map ri_id its
                    /\ productId it ∈ map prod_id products)
         (draftItems products its)
  /\ (length (draftItems products its) <= length its)%nat.
Proof.
  unfold draftItems. split.
  - apply Forall_forall. intros it Hit.
    apply list_elem_of_omap in Hit as [r [Hr Hd]]. unfold draftItem in Hd.
    destruct (productMap_get products (ri_id r)) as [p|] eqn:Ep; [|done].
    injection Hd as <-. cbn.
    unfold productMap_get in Ep. apply find_some in Ep as [Hin He].
    apply String.eqb_eq in He. split; [apply Math_max_lower|]. split.
    + rewrite He. apply list_elem_of_In, in_map. by apply list_elem_of_In.
    + apply list_elem_of_In, in_map. by apply in_rev.
  - induction its as [|r its IH]; [done|]. cbn. destruct (draftItem products r); cbn; lia.
Qed.

(** ** Products by id *)

Lemma unique_spec seen l :
  NoDup (unique seen l) /\ (forall i, i ∈ unique seen l <-> ((i ∉ seen) /\ i ∈ l)).
Proof.
  revert seen. induction l as [|x l IH]; intros seen.
  - split; [constructor|]. intros i. cbn. split; [by intros ?%elem_of_nil|].
    by intros (_ & ?%elem_of_nil).
  - cbn [unique]. destruct (bool_decide (x ∈ seen)) eqn:Es.
    + apply bool_decide_eq_true in Es. destruct (IH seen) as [N M]. split; [done|].
      intros i. rewrite M, elem_of_cons. split.
      * intros [? ?]. split; [done|by right].
      * intros (? & [->|?]); done.
    + apply bool_decide_eq_false in Es. destruct (IH ({[x]} ∪ seen)) as [N M]. split.
      * constructor; [|done]. rewrite M. intros (H & _). apply H.
        apply elem_of_union_l. by apply elem_of_singleton.
      * intros i. rewrite !elem_of_cons, M. split.
        -- intros [->|(H & ?)]; [by split; [|left]|].
           split; [|by right]. intros Hi. apply H. by apply elem_of_union_r.
        -- intros (? & [->|?]); [by left|]. destruct (decide (i = x)); [by left|].
           right. split; [|done].
           intros [?%elem_of_singleton|?]%elem_of_union; done.
Qed.

Lemma all_of_Ok {A B} (f : A -> Outcome B) l rows :
  all_of f l = Ok rows -> Forall2 (fun i row => f i = Ok row) l rows.
Proof.
  revert rows. induction l as [|x l IH]; intros rows; cbn.
  - intros [= <-]. constructor.
  - destruct (f x) as [b|] eqn:E; [|done].
    destruct (all_of f l) as [bs|]; [|done]. intros [= <-]. constructor; [done|by apply IH].
Qed.

(** X9. When getProductsByIds succeeds against an ERP that answers each
    request with the product asked for, the products it returns have
    pairwise distinct ids, and these are exactly the non-empty ids asked
    for. *)
Theorem getProductsByIds_distinct (sys : Sys) (ids : list string) (ps : list Product) :
  getProductsByIds sys ids = Ok ps ->
  (forall i row, fetch_product (sys_erp sys) i = Ok row -> mp_id row = i) ->
  NoDup (map prod_id ps)
  /\ (forall i, i ∈ map prod_id ps <-> (i ∈ ids /\ i ≠ "")).
Proof.
  intros H Hid. unfold getProductsByIds in H.
  destruct (all_of _ _) as [rows|] eqn:Ea; [|done].
  destruct (fetch_stock _); [|done]. destruct (getBaseCurrencyCode _); [|done].
  injection H as <-. apply all_of_Ok in Ea.
  assert (E : map prod_id (map mapProduct rows)
              = filter (fun i => str_truthy i = true) (unique ∅ ids)).
  { rewrite map_map. cbn. induction Ea as [|i row l rows Hi _ IH]; [done|].
    cbn. by rewrite (Hid _ _ Hi), IH. }
  rewrite E. destruct (unique_spec ∅ ids) as [N M]. split.
  - by apply NoDup_filter.
  - intros i. rewrite list_elem_of_filter, M. split.
    + intros [Ht [_ Hi]]. split; [done|]. by destruct i.
    + intros [Hi Hn]. split; [by destruct i|]. split; [apply not_elem_of_empty|done].
Qed.

Lemma getProductsByIds_distinct_witness :
  NoDup (map prod_id [mapProduct (product "A" "Widget A" 10000);
                       mapProduct (product "B" "Widget B" 20000)])
  /\ (forall i, i ∈ map prod_id [mapProduct (product "A" "Widget A" 10000);
                                  mapProduct (product "B" "Widget B" 20000)]
                <-> (i ∈ ["A"; "B"; "A"] /\ i ≠ "")).
Proof.
  apply (getProductsByIds_distinct sys1 ["A"; "B"; "A"]).
  - reflexivity.
  - intros i row. cbn. destruct (String.eqb i "A") eqn:EA.
    + apply String.eqb_eq in EA. by intros [= <-].
    + destruct (String.eqb i "B") eqn:EB; [|done].
      apply String.eqb_eq in EB. by intros [= <-].
Defined.

(* ===================================================================== *)
(** * routes/api.ts: what the webhook and the draft-order endpoint may do *)
(* ===================================================================== *)

Lemma adds_refl P w : adds P w w.
Proof. exists []. split; [by rewrite app_nil_r|constructor]. Qed.

Lemma adds_trans P a b c : adds P a b -> adds P b c -> adds P a c.
Proof.
  intros [t1 [H1 F1]] [t2 [H2 F2]]. exists (t1 ++ t2). split.
  - by rewrite H2, H1, <- app_assoc.
  - by apply Forall_app.
Qed.

Lemma adds_emit P e w : P e -> adds P w (with_trace (trace w ++ [e]) w).
Proof. intros H. exists [e]. split; [done|by constructor]. Qed.

Lemma adds_same P w w' : trace w' = trace w -> adds P w w'.
Proof. intros H. exists []. split; [by rewrite app_nil_r|constructor]. Qed.

Lemma notifies_only_refl w : notifies_only w w.
Proof. repeat split; apply adds_refl. Qed.

Lemma notifies_only_trans a b c : notifies_only a b -> notifies_only b c -> notifies_only a c.
Proof.
  intros (A1 & A2 & A3 & A4 & A5 & A6) (B1 & B2 & B3 & B4 & B5 & B6).
  repeat split; try congruence. by eapply adds_trans.
Qed.

Lemma map_update_where {B} (g : User -> B) (p : User -> bool) (f : User -> User) us :
  (forall u, g (f u) = g u) ->
  map g (map (fun u => if p u then f u else u) us) = map g us.
Proof.
  intros H. rewrite map_map. apply map_ext. intros u. by destruct (p u).
Qed.

Lemma notify_emit e : notification e -> keeps notifies_only (emit e).
Proof. intros H w. repeat split. by apply adds_emit. Qed.

Lemma notify_reset p : keeps notifies_only (modify (update_where p reset_registration)).
Proof.
  intros w. unfold modify, update_where. cbn. repeat split.
  - by apply map_update_where.
  - by apply map_update_where.
  - by apply adds_same.
Qed.

Lemma notify_cache key ttl : keeps notifies_only (cache_set key ttl).
Proof. intros w. repeat split. by apply adds_same. Qed.

Ltac notify_leaf :=
  first [ apply notify_emit; exact I
        | apply notify_reset
        | apply notify_cache
        | match goal with H : _ |- _ => solve [apply H] end ].

Ltac notify_tac :=
  repeat first [frame_step notifies_only_refl notifies_only_trans | solve [notify_leaf]].

Section Notifies.
Variable sys : Sys.

Lemma notify_send chat n : keeps notifies_only (sendTelegramMessage sys chat n).
Proof. unfold sendTelegramMessage, tg_request. notify_tac. Qed.

Lemma notify_admins type : keeps notifies_only (notifyAdminsByType sys type).
Proof. pose proof notify_send. unfold notifyAdminsByType. notify_tac. Qed.

Lemma notify_processEvent created ev : keeps notifies_only (processEvent sys created ev).
Proof.
  pose proof notify_send. pose proof notify_admins.
  unfold processEvent, counterpartyDeleteEvent, demandEvent, paymentEvent, orderEvent.
  notify_tac.
Qed.

(** X10. Whatever batch of events the webhook receives and whether it
    returns or throws, it leaves the drafts, the reminders and the admin
    settings as they were, keeps the id and the Telegram id of every user,
    and adds nothing to the effects but messages and documents for chats. *)
Theorem webhook_only_notifies (events : list Event) :
  keeps notifies_only (postWebhook sys events).
Proof.
  unfold postWebhook. generalize (∅ : gset string).
  induction events as [|ev events IH]; intros created; simpl.
  - apply keeps_ret, notifies_only_refl.
  - apply keeps_bind; [apply notifies_only_trans|apply notify_processEvent|intros ?; apply IH].
Qed.
End Notifies.

Lemma keeps_adds_emit P e : P e -> keeps (adds P) (emit e).
Proof. intros H w. by apply adds_emit. Qed.

Lemma keeps_adds_modify P f : (forall w, trace (f w) = trace w) -> keeps (adds P) (modify f).
Proof. intros H w. apply adds_same. apply H. Qed.

(** Closes a leaf: an emitted effect that is allowed, a change of the store
    that keeps the trace, or a handler already shown. *)
Ltac adds_leaf :=
  first [ apply keeps_adds_emit; first [exact I | cbn; tauto | match goal with H : _ |- _ => exact H end]
        | apply keeps_adds_modify; intros; reflexivity
        | match goal with H : _ |- _ => solve [apply H] end ].

Ltac adds_tac :=
  repeat first [frame_step adds_refl adds_trans | solve [adds_leaf]].

Section WebOrders.
Variable sys : Sys.

Lemma web_send chat n : keeps (adds web_order) (sendTelegramMessage sys chat n).
Proof. unfold sendTelegramMessage, tg_request. adds_tac. Qed.

Lemma web_getOrCreateCounterparty t p c u :
  keeps (adds web_order) (getOrCreateCounterparty sys t p c u).
Proof.
  unfold getOrCreateCounterparty, updateCounterpartyAttrs, createCounterparty. adds_tac.
Qed.

Lemma web_createCustomerOrder k its info :
  (di_deliveryMethod info = Some "pickup"
   \/ (di_deliveryMethod info = Some "delivery"
       /\ opt_num_truthy (di_locationLat info) = true
       /\ opt_num_truthy (di_locationLng info) = true)) ->
  keeps (adds web_order) (createCustomerOrder sys k its info).
Proof. intros H. unfold createCustomerOrder. adds_tac. Qed.

Lemma web_createOrderReminders uid : keeps (adds web_order) (createOrderReminders sys uid).
Proof. unfold createOrderReminders. adds_tac. Qed.

(** X11. Every order the draft-order endpoint creates in the ERP is either
    for pickup or for delivery with both a latitude and a longitude that are
    set and truthy; the endpoint never creates a delivery order without a
    location. *)
Theorem web_orders_are_located (body : DraftOrderRequest) :
  keeps (adds web_order) (postDraftOrder sys body).
Proof.
  pose proof web_send. pose proof web_getOrCreateCounterparty.
  pose proof web_createOrderReminders.
  unfold postDraftOrder, upsertUser, upsertDraft, touchLastOrder, submitDraft, deleteDraft.
  adds_tac.
  - apply web_createCustomerOrder. by left.
  - apply web_createCustomerOrder. right. cbn.
    repeat match goal with H : _ && _ = true |- _ => apply andb_prop in H as [? ?] end.
    done.
Qed.
End WebOrders.

(* ===================================================================== *)
(** * bot.ts: registration, and the drafts of the other users           *)
(* ===================================================================== *)

Lemma same_users_refl w : same_users w w.
Proof. done. Qed.

Lemma same_users_trans a b c : same_users a b -> same_users b c -> same_users a c.
Proof. unfold same_users. congruence. Qed.

Lemma users_emit e : keeps same_users (emit e).
Proof. by intros w. Qed.

Ltac users_leaf :=
  first [ apply users_emit
        | match goal with H : _ |- _ => solve [apply H] end ].

Ltac users_tac :=
  repeat first [frame_step same_users_refl same_users_trans | solve [users_leaf]].

Section Contact.
Variable sys : Sys.

Lemma users_reply chat r : keeps same_users (reply sys chat r).
Proof. unfold reply. users_tac. Qed.

Lemma users_updateCounterpartyAttrs k t u :
  keeps same_users (updateCounterpartyAttrs sys k t u).
Proof. unfold updateCounterpartyAttrs. users_tac. Qed.

Lemma users_botNotifyAdmins t : keeps same_users (botNotifyAdmins sys t).
Proof. unfold botNotifyAdmins. users_tac. Qed.

Lemma claimed_exclusive from k us :
  Forall (fun u => telegramId u = from) (filter (fun u => links k u = true) (claimed from k us)).
Proof.
  apply Forall_forall. intros u Hu. apply list_elem_of_filter in Hu as [Hl Hu].
  unfold claimed in Hu. rewrite map_map in Hu.
  apply list_elem_of_In, in_map_iff in Hu as [x [<- _]].
  destruct (links k x && negb (has_telegramId from x)) eqn:E.
  - change (has_telegramId from (set_counterparty None x)) with (has_telegramId from x) in *.
    destruct (has_telegramId from x) eqn:F.
    + by apply String.eqb_eq in F.
    + done.
  - destruct (has_telegramId from x) eqn:F.
    + by apply String.eqb_eq in F.
    + rewrite Hl in E. done.
Qed.

Lemma onContact_claims from phone first uname k w :
  findCounterpartyByPhone sys phone = Ok (Some k) ->
  exists w1, upsertContact from phone first uname w = (Ok tt, w1)
    /\ users (onContact sys from true phone first uname w).2 = claimed from k (users w1).
Proof.
  intros Hk. unfold onContact. cbn [negb]. rewrite Hk. cbn [catch_default].
  assert (U : exists w1, upsertContact from phone first uname w = (Ok tt, w1)).
  { unfold upsertContact. mrun. destruct (findUnique_telegramId from w); eauto. }
  destruct U as [w1 U]. exists w1. split; [done|].
  unfold mbind at 1. unfold M_bind at 1. rewrite U.
  set (w3 := update_where (has_telegramId from) (set_counterparty_pending (Some k))
               (update_where (fun u => links k u && negb (has_telegramId from u))
                  (set_counterparty None) w1)).
  assert (T : keeps same_users
                (_ ← ignore_failure (updateCounterpartyAttrs sys k from (truthy_str uname));
                 _ ← botNotifyAdmins sys newUser;
                 _ ← reply sys from RRegistered;
                 reply sys from RWelcome)).
  { pose proof users_reply. pose proof users_updateCounterpartyAttrs.
    pose proof users_botNotifyAdmins. unfold ignore_failure. users_tac. }
  specialize (T w3). unfold same_users in T.
  unfold mbind at 1. unfold M_bind at 1. unfold modify at 1. cbn [fst snd].
  unfold mbind at 1. unfold M_bind at 1. unfold modify at 1. cbn [fst snd].
  fold w3. rewrite T. reflexivity.
Qed.

Lemma find_map_tid (g : User -> User) from us :
  (forall u, telegramId (g u) = telegramId u) ->
  find (fun u => String.eqb (telegramId u) from) (map g us)
  = option_map g (find (fun u => String.eqb (telegramId u) from) us).
Proof.
  intros Hg. induction us as [|x us IH]; [done|]. cbn. rewrite Hg.
  by destruct (String.eqb (telegramId x) from).
Qed.

Lemma find_app_none {A} (p : A -> bool) l r :
  find p l = None -> find p (l ++ r) = find p r.
Proof.
  induction l as [|x l IH]; [done|]. cbn. destruct (p x); [done|exact IH].
Qed.

Lemma upsertContact_sender from phone first uname w w1 :
  upsertContact from phone first uname w = (Ok tt, w1) ->
  exists u, findUnique_telegramId from w1 = Some u /\ phoneNumber u = Some phone.
Proof.
  unfold upsertContact. mrun. destruct (findUnique_telegramId from w) as [u|] eqn:E.
  - intros [= <-]. unfold findUnique_telegramId, update_where in *. cbn.
    rewrite find_map_tid by (intros x; by destruct (has_telegramId from x)).
    rewrite E. cbn. eexists. split; [done|].
    apply find_some in E as [_ E]. unfold has_telegramId. by rewrite E.
  - intros [= <-]. unfold findUnique_telegramId in *. cbn.
    rewrite find_app_none by done. cbn. rewrite String.eqb_refl. eauto.
Qed.

(** X12. When a sender shares their own contact and the ERP finds
    counterparty k for the phone, afterwards every user linked to k is the
    sender (has the sender's Telegram id), and the sender's user is linked
    to k and holds that phone: a counterparty is never left linked to two
    chats. *)
Theorem contact_claim_is_exclusive from phone first uname k w :
  findCounterpartyByPhone sys phone = Ok (Some k) ->
  Forall (fun u => telegramId u = from)
         (linked_to k (onContact sys from true phone first uname w).2)
  /\ exists u, findUnique_telegramId from (onContact sys from true phone first uname w).2 = Some u
               /\ moskladCounterpartyId u = Some k /\ phoneNumber u = Some phone.
Proof.
  intros Hk. destruct (onContact_claims from phone first uname k w Hk) as [w1 [U E]].
  unfold linked_to, findUnique_telegramId. rewrite E. split; [apply claimed_exclusive|].
  destruct (upsertContact_sender _ _ _ _ _ _ U) as [u [Hu Hp]].
  unfold claimed. rewrite map_map, find_map_tid.
  - unfold findUnique_telegramId in Hu. rewrite Hu. cbn.
    apply find_some in Hu as [_ Hu]. 
    unfold has_telegramId. rewrite Hu. cbn [negb]. rewrite andb_false_r, Hu.
    eexists. split; [done|]. split; [reflexivity|exact Hp].
  - intros x. unfold has_telegramId.
    destruct (links k x && negb (telegramId x =? from)%string); cbn;
      by destruct (telegramId x =? from)%string.
Qed.
End Contact.

Lemma contact_claim_is_exclusive_witness :
  Forall (fun u => telegramId u = "200")
         (linked_to "K1" (onContact sys1 "200" true "+998901112233" (Some "Bob") None
                            (world [alice; bob] [])).2)
  /\ exists u, findUnique_telegramId "200"
                 (onContact sys1 "200" true "+998901112233" (Some "Bob") None
                    (world [alice; bob] [])).2 = Some u
               /\ moskladCounterpartyId u = Some "K1" /\ phoneNumber u = Some "+998901112233".
Proof. apply contact_claim_is_exclusive. reflexivity. Defined.

(** X13. An update of the order flow (a delivery choice, the saved address,
    confirm, cancel, a location, or a text other than /start) from a sender
    who has no linked counterparty changes no user, no draft and no
    reminder, and all it produces are replies and callback answers to that
    sender and console lines. *)
Theorem unregistered_sender_is_blocked (sys : Sys) (from : string) (a : Action) (w : World) :
  unlinked from w -> guarded a ->
  users (botUpdate sys from a w).2 = users w
  /\ drafts (botUpdate sys from a w).2 = drafts w
  /\ reminders (botUpdate sys from a w).2 = reminders w
  /\ adds (own_reply from) w (botUpdate sys from a w).2.
Proof.
  intros Hu Ha. unfold unlinked in Hu.
  unfold botUpdate, registered, answerCbQuery, reply, ignore_failure, getUser.
  destruct a; try done; cbn [guarded] in Ha; rewrite ?Ha; mrun;
    (destruct (findUnique_telegramId from w) as [u|] eqn:Eu;
     [rewrite (Hu u eq_refl)|]); mrun;
    repeat (match goal with |- context [sys_tg_rejects sys ?e] =>
              destruct (sys_tg_rejects sys e) eqn:? end; mrun);
    (split; [done|split; [done|split; [done|]]]).
  all: unfold adds; cbn; rewrite <- ?app_assoc; eexists; (split; [reflexivity|]);
    repeat constructor; done.
Qed.

Lemma unregistered_sender_is_blocked_witness :
  users (botUpdate sys1 "200" AConfirm (world [alice; bob] [draftOf "u2" (Some "pickup") None None])).2
  = [alice; bob]
  /\ drafts (botUpdate sys1 "200" AConfirm
               (world [alice; bob] [draftOf "u2" (Some "pickup") None None])).2
     = drafts (world [alice; bob] [draftOf "u2" (Some "pickup") None None])
  /\ reminders (botUpdate sys1 "200" AConfirm
                  (world [alice; bob] [draftOf "u2" (Some "pickup") None None])).2 = []
  /\ adds (own_reply "200") (world [alice; bob] [draftOf "u2" (Some "pickup") None None])
        (botUpdate sys1 "200" AConfirm
           (world [alice; bob] [draftOf "u2" (Some "pickup") None None])).2.
Proof.
  apply (unregistered_sender_is_blocked sys1 "200" AConfirm
           (world [alice; bob] [draftOf "u2" (Some "pickup") None None])).
  - intros u. vm_compute. by intros [= <-].
  - exact I.
Defined.

Lemma find_filter_head {A} (p : A -> bool) l :
  find p l = head (filter (fun x => p x = true) l).
Proof.
  induction l as [|x l IH]; [done|]. cbn [find]. destruct (p x) eqn:E.
  - by rewrite filter_cons_True.
  - rewrite filter_cons_False by congruence. exact IH.
Qed.

(** X14. A counterparty DELETE event for k, when exactly one user is linked
    to k, leaves no user linked to k, empties that user's phone,
    counterparty, default address and pending state, and, with a bot token
    configured, sends that user exactly one message, the deletion notice. *)
Theorem deleted_counterparty_unlinks (sys : Sys) (created : gset string) (ev : Event)
    (k : string) (u : User) (w : World) :
  is_type "counterparty" (entityType ev) = true ->
  eventAction ev = "DELETE" ->
  DemandPdf.extractIdFromHref (event_href ev) "/entity/counterparty/" = Some k ->
  linked_to k w = [u] ->
  linked_to k (processEvent sys created ev w).2 = []
  /\ Forall (fun x => u_id x = u_id u -> unregistered x) (users (processEvent sys created ev w).2)
  /\ (opt_str_truthy (BOT_TOKEN (sys_cfg sys)) = true ->
      trace (processEvent sys created ev w).2
      = trace w ++ [TgSend (telegramId u) NCounterpartyDeleted]).
Proof.
  intros Ht Ha Hk Hl.
  assert (Hf : findFirst_counterparty k w = Some u).
  { unfold findFirst_counterparty. rewrite find_filter_head.
    unfold linked_to in Hl. by rewrite Hl. }
  assert (E : exists o, processEvent sys created ev w
              = (o, (sendTelegramMessage sys (telegramId u) NCounterpartyDeleted
                       (update_where (has_id (u_id u)) reset_registration w)).2)).
  { unfold processEvent. rewrite Ht, Ha. cbn [andb String.eqb Ascii.eqb Bool.eqb].
    unfold counterpartyDeleteEvent. rewrite Hk. mrun. rewrite Hf. mrun.
    destruct (sendTelegramMessage _ _ _ _) as [[[]|m] w2]; eauto. }
  destruct E as [o E]. rewrite E. cbn [snd].
  set (w1 := update_where (has_id (u_id u)) reset_registration w).
  assert (S : users (sendTelegramMessage sys (telegramId u) NCounterpartyDeleted w1).2
              = users w1).
  { unfold sendTelegramMessage, tg_request. destruct (opt_str_truthy _); [|done].
    mrun. by destruct (sys_tg_rejects _ _). }
  unfold linked_to. rewrite S. split; [|split].
  - subst w1. unfold update_where. cbn [users with_users].
    destruct (filter _ (map _ _)) as [|x l] eqn:F; [done|exfalso].
    assert (Hx : x ∈ filter (fun u0 => links k u0 = true)
                   (map (fun u0 => if has_id (u_id u) u0 then reset_registration u0 else u0)
                      (users w))) by (rewrite F; by left).
    apply list_elem_of_filter in Hx as [Hx1 Hx2].
    apply list_elem_of_In, in_map_iff in Hx2 as [x0 [<- Hx0]].
    destruct (has_id (u_id u) x0) eqn:Hid; [done|].
    assert (H0 : x0 ∈ linked_to k w).
    { apply list_elem_of_filter. split; [done|by apply list_elem_of_In]. }
    rewrite Hl in H0. apply list_elem_of_singleton in H0. subst x0.
    unfold has_id in Hid. by rewrite String.eqb_refl in Hid.
  - subst w1. unfold update_where. cbn [users with_users].
    apply Forall_forall. intros x Hx.
    apply list_elem_of_In, in_map_iff in Hx as [x0 [<- Hx0]]. intros Hi.
    destruct (has_id (u_id u) x0) eqn:Hid; [by repeat split|].
    unfold has_id in Hid. rewrite Hi, String.eqb_refl in Hid. done.
  - intros Htok. unfold sendTelegramMessage, tg_request. rewrite Htok. mrun.
    by destruct (sys_tg_rejects _ _).
Qed.

Lemma deleted_counterparty_unlinks_witness :
  linked_to "K1" (processEvent sys1 ∅ (event "counterparty" "DELETE" (counterpartyHref "K1") [])
                    (world [alice; bob] [])).2 = []
  /\ Forall (fun x => u_id x = u_id alice -> unregistered x)
       (users (processEvent sys1 ∅ (event "counterparty" "DELETE" (counterpartyHref "K1") [])
                 (world [alice; bob] [])).2)
  /\ (opt_str_truthy (BOT_TOKEN (sys_cfg sys1)) = true ->
      trace (processEvent sys1 ∅ (event "counterparty" "DELETE" (counterpartyHref "K1") [])
               (world [alice; bob] [])).2
      = trace (world [alice; bob] []) ++ [TgSend (telegramId alice) NCounterpartyDeleted]).
Proof.
  apply (deleted_counterparty_unlinks sys1 ∅ _ "K1" alice); reflexivity.
Defined.

Lemma sender_id_found from w u :
  findUnique_telegramId from w = Some u -> sender_id from (identities w) = Some (u_id u).
Proof.
  unfold findUnique_telegramId, sender_id, identities. intros H.
  induction (users w) as [|x l IH]; [done|]. cbn in *.
  destruct (String.eqb (telegramId x) from); [by injection H as ->|by apply IH].
Qed.

Section Aside.
Variable sys : Sys.
Variables (from key : string) (ids : list (string * string)).
Hypothesis not_sender : sender_id from ids <> Some key.

Lemma aside_refl w : aside key ids w w.
Proof. by intros H. Qed.

Lemma aside_trans a b c : aside key ids a b -> aside key ids b c -> aside key ids a c.
Proof.
  intros H1 H2 Ha. destruct (H1 Ha) as [Hb D1]. destruct (H2 Hb) as [Hc D2].
  split; [done|congruence].
Qed.

Lemma aside_emit e : keeps (aside key ids) (emit e).
Proof. by intros w H. Qed.

Lemma aside_users (p : User -> bool) (f : User -> User) :
  (forall u, telegramId (f u) = telegramId u /\ u_id (f u) = u_id u) ->
  keeps (aside key ids) (modify (update_where p f)).
Proof.
  intros Hf w H. split; [|done]. rewrite <- H. unfold identities, update_where. cbn.
  rewrite map_map. apply map_ext. intros u. destruct (p u); [|done].
  destruct (Hf u) as [E1 E2]. cbn. by rewrite E1, E2.
Qed.

(** The sender's user is the only one a handler reads. *)
Lemma aside_getUser {B} (f : option User -> M B) :
  (forall a, (forall u, a = Some u -> u_id u <> key) -> keeps (aside key ids) (f a)) ->
  keeps (aside key ids) (getUser from ≫= f).
Proof.
  intros Hf w H. unfold getUser. mrun.
  apply Hf; [|done]. intros u Hu. apply sender_id_found in Hu. rewrite H in Hu.
  intros E. rewrite E in Hu. by apply not_sender.
Qed.

Lemma aside_clearDraft uid : uid <> key -> keeps (aside key ids) (clearDraft uid).
Proof.
  intros Hk w H. split; [done|]. unfold clearDraft, deleteDraft, modify. cbn.
  by apply lookup_delete_ne.
Qed.

Lemma aside_update_draft uid f : uid <> key -> keeps (aside key ids) (update_draft uid f).
Proof.
  intros Hk w H. split; [done|]. unfold update_draft, modify. cbn.
  by apply lookup_alter_ne.
Qed.
End Aside.

Ltac aside_leaf :=
  first [ apply aside_emit
        | apply aside_users; intros; split; reflexivity
        | apply aside_clearDraft; match goal with H : _ |- _ => solve [by apply H] end
        | apply aside_update_draft; match goal with H : _ |- _ => solve [by apply H] end
        | match goal with H : _ |- _ => solve [apply H] end ].

Ltac aside_step :=
  lazymatch goal with
  | |- keeps _ (getUser _ ≫= _) => apply aside_getUser; [assumption|intros ? ?]
  | |- keeps (aside ?k ?i) _ => frame_step (aside_refl k i) (aside_trans k i)
  end.

Ltac aside_tac := repeat first [aside_step | solve [aside_leaf]].

Section AsideHandlers.
Variable sys : Sys.
Variables (from key : string) (ids : list (string * string)).
Hypothesis not_sender : sender_id from ids <> Some key.

Lemma aside_reply chat r : keeps (aside key ids) (reply sys chat r).
Proof. unfold reply. aside_tac. Qed.

Lemma aside_answerCbQuery chat : keeps (aside key ids) (answerCbQuery sys chat).
Proof. unfold answerCbQuery. aside_tac. Qed.

Lemma aside_getDraftOrder u : keeps (aside key ids) (getDraftOrder u).
Proof. unfold getDraftOrder. aside_tac. Qed.

Lemma aside_sendOrderConfirmation chat u : keeps (aside key ids) (sendOrderConfirmation sys chat u).
Proof. pose proof aside_reply. unfold sendOrderConfirmation, getDraftOrder. aside_tac. Qed.

Lemma aside_getOrCreateCounterparty t p c u :
  keeps (aside key ids) (getOrCreateCounterparty sys t p c u).
Proof.
  unfold getOrCreateCounterparty, updateCounterpartyAttrs, createCounterparty. aside_tac.
Qed.

Lemma aside_createCustomerOrder k its info :
  keeps (aside key ids) (createCustomerOrder sys k its info).
Proof. unfold createCustomerOrder. aside_tac. Qed.

Lemma aside_route a :
  (forall own phone first uname, a <> AContact own phone first uname) ->
  keeps (aside key ids) (route sys from a).
Proof.
  intros Ha.
  pose proof aside_reply. pose proof aside_answerCbQuery. pose proof aside_getDraftOrder.
  pose proof aside_sendOrderConfirmation. pose proof aside_getOrCreateCounterparty.
  pose proof aside_createCustomerOrder.
  destruct a; cbn [route]; [..|by destruct (Ha own phone first uname)];
    unfold onDelivery, onUseSaved, onCancel, onConfirm, onLocation, onText,
      askForAddressOrLocation, handleCounterpartyDeleted.
  all: aside_tac.
Qed.

Lemma aside_botUpdate a :
  (forall own phone first uname, a <> AContact own phone first uname) ->
  keeps (aside key ids) (botUpdate sys from a).
Proof.
  intros Ha. pose proof (aside_route a Ha).
  pose proof aside_reply. pose proof aside_answerCbQuery. pose proof aside_getDraftOrder.
  unfold botUpdate, registered, draftCancel, ignore_failure.
  destruct a; [..|by destruct (Ha own phone first uname)]; aside_tac.
Qed.
End AsideHandlers.

Lemma drafts_emit e : keeps same_drafts (emit e).
Proof. by intros w. Qed.

Lemma drafts_modify f : (forall w, drafts (f w) = drafts w) -> keeps same_drafts (modify f).
Proof. intros H w. apply H. Qed.

Lemma same_drafts_refl w : same_drafts w w.
Proof. done. Qed.

Lemma same_drafts_trans a b c : same_drafts a b -> same_drafts b c -> same_drafts a c.
Proof. unfold same_drafts. congruence. Qed.

Ltac drafts_leaf :=
  first [ apply drafts_emit
        | apply drafts_modify; intros; reflexivity
        | match goal with H : _ |- _ => solve [apply H] end ].

Ltac drafts_tac :=
  repeat first [frame_step same_drafts_refl same_drafts_trans | solve [drafts_leaf]].

Lemma drafts_contact sys from own phone first uname :
  keeps same_drafts (botUpdate sys from (AContact own phone first uname)).
Proof.
  unfold botUpdate, registered, draftCancel, route, onContact, upsertContact, reply,
    ignore_failure, updateCounterpartyAttrs, botNotifyAdmins, createCounterparty.
  drafts_tac.
Qed.

(** X15. A bot update of the order flow never touches the draft of another
    user: for every key that is not the id of the sender's user, the draft
    stored under that key is the same before and after the update, whatever
    the update is and whether it fails. *)
Theorem update_touches_own_draft_only (sys : Sys) (from : string) (a : Action)
    (key : string) (w : World) :
  (forall u, findUnique_telegramId from w = Some u -> u_id u <> key) ->
  drafts (botUpdate sys from a w).2 !! key = drafts w !! key.
Proof.
  intros Hk.
  assert (D : (exists own phone first uname, a = AContact own phone first uname)
              \/ (forall own phone first uname, a <> AContact own phone first uname))
    by (destruct a; eauto 6; by right).
  destruct D as [(own & phone & first & uname & ->)|Ha].
  - by rewrite (drafts_contact sys from own phone first uname w).
  - apply (aside_botUpdate sys from key (identities w)); [| |done].
    + intros E. destruct (findUnique_telegramId from w) as [u|] eqn:Eu.
      * rewrite (sender_id_found _ _ _ Eu) in E. injection E as E. by apply (Hk u).
      * unfold sender_id, identities, findUnique_telegramId in *.
        induction (users w) as [|x l IH]; [done|]. cbn in *.
        destruct (String.eqb (telegramId x) from); [done|by apply IH].
    + exact Ha.
Qed.

Lemma update_touches_own_draft_only_witness :
  drafts (botUpdate sys1 "100" ACancel
            (world [alice; bob] [draftOf "u1" (Some "pickup") None None;
                                 draftOf "u2" (Some "pickup") None None])).2 !! "u2"
  = drafts (world [alice; bob] [draftOf "u1" (Some "pickup") None None;
                                draftOf "u2" (Some "pickup") None None]) !! "u2".
Proof.
  apply update_touches_own_draft_only. intros u. vm_compute. by intros [= <-].
Defined.

(* ===================================================================== *)
(** * mosklad.ts: listings, the stock cache and hrefs                   *)
(* ===================================================================== *)

Section PagingProofs.
Import Gateway.

Lemma fetchAllPages_from_complete {T} (fetch : nat -> nat -> Outcome (Page T)) all cap :
  serves fetch all cap -> (0 < cap)%nat ->
  forall fuel offset,
    (offset <= length all)%nat -> (length all - offset < fuel)%nat ->
    fetchAllPages_from fetch fuel offset (take offset all) = Some (Ok all).
Proof.
  intros Hs Hc. induction fuel as [|fuel IH]; intros offset Ho Hf; [lia|].
  cbn [fetchAllPages_from]. rewrite Hs. cbn [pg_rows pg_size].
  change (default 0%nat (Some ?x)) with x.
  set (k := Nat.min 100 cap).
  assert (Hk : (0 < k)%nat) by (subst k; lia).
  assert (L : length (take k (drop offset all)) = Nat.min k (length all - offset)).
  { by rewrite length_take, length_drop. }
  assert (A : take offset all ++ take k (drop offset all) = take (offset + k) all).
  { by rewrite take_take_drop. }
  rewrite L, A.
  destruct (Nat.eqb_spec (Nat.min k (length all - offset)) 0) as [E|E]; cbn [orb].
  - f_equal. f_equal. apply take_ge. lia.
  - destruct (Nat.leb_spec (length all) (offset + Nat.min k (length all - offset))) as [E2|E2].
    + f_equal. f_equal. apply take_ge. lia.
    + assert (K : Nat.min k (length all - offset) = k) by lia.
      rewrite K in *. apply IH; lia.
Qed.

(** X16. Against a listing that answers every request with the rows from the
    offset on, at most cap > 0 of them whatever limit is asked, and that
    reports its size, fetchAllPages returns all rows, each once and in
    order, after at most one request more than there are rows. *)
Theorem fetchAllPages_complete {T} (fetch : nat -> nat -> Outcome (Page T))
    (all : list T) (cap fuel : nat) :
  serves fetch all cap -> (0 < cap)%nat -> (length all < fuel)%nat ->
  fetchAllPages fetch fuel = Some (Ok all).
Proof.
  intros Hs Hc Hf. unfold fetchAllPages.
  apply (fetchAllPages_from_complete fetch all cap Hs Hc fuel 0%nat); lia.
Qed.

Lemma fetchAllPages_complete_witness :
  fetchAllPages (paged ["a"; "b"; "c"; "d"; "e"] 2) 6 = Some (Ok ["a"; "b"; "c"; "d"; "e"]).
Proof.
  apply (fetchAllPages_complete _ _ 2); [intros limit offset; reflexivity|lia|simpl; lia].
Defined.

(** X17. listCategories never returns an empty list: it returns the
    categories of the ERP when there are some, and the single placeholder
    with id 'all' and name 'All products' when there are none. *)
Theorem listCategories_never_empty (fetch : nat -> nat -> Outcome (Page Category))
    (all : list Category) (cap fuel : nat) :
  serves fetch all cap -> (0 < cap)%nat -> (length all < fuel)%nat ->
  listCategories fetch fuel
  = Some (Ok (match all with
              | [] => [ {| cat_id := "all"; cat_name := "All products" |} ]
              | _ => all
              end)).
Proof.
  intros Hs Hc Hf. unfold listCategories.
  unfold fetchAllPages. change (@nil Category) with (take 0 all).
  rewrite (fetchAllPages_from_complete fetch all cap Hs Hc fuel 0%nat) by lia.
  destruct all as [|c l]; [done|]. do 2 f_equal.
  rewrite <- (map_id (c :: l)) at 2. apply map_ext. by intros [].
Qed.

Lemma listCategories_never_empty_witness :
  listCategories (paged [] 100) 1
  = Some (Ok [ {| cat_id := "all"; cat_name := "All products" |} ]).
Proof.
  apply (listCategories_never_empty (paged [] 100) [] 100 1);
    [intros limit offset; reflexivity|lia|simpl; lia].
Defined.

End PagingProofs.

Section StockProofs.
Import Gateway.

Lemma stockStep_sound m row : sound_stock m -> sound_stock (stockStep m row).
Proof.
  intros H. unfold stockStep. destruct (negb _); [done|].
  destruct (str_truthy (lastSegmentId (sr_href row))) eqn:E; [|done].
  intros id v. destruct (decide (id = lastSegmentId (sr_href row))) as [->|Hn].
  - rewrite lookup_insert_eq. intros [= <-]. split; [by destruct (lastSegmentId _)|].
    apply Math_max_lower.
  - rewrite lookup_insert_ne by done. apply H.
Qed.

Lemma stock_fold_sound rows m : sound_stock m -> sound_stock (fold_left stockStep rows m).
Proof.
  revert m. induction rows as [|r rows IH]; intros m H; [done|]. cbn.
  by apply IH, stockStep_sound.
Qed.

(** X18. A stock map that getStockMap fetches at time t0 has no entry under
    an empty id and no quantity less than zero; for the next 300000 ms
    getStockMap returns that map without asking the ERP, and from then on a
    failing ERP request makes it throw rather than serve the old map. *)
Theorem stock_cache_serves_fresh_map (t0 : Z) (rows : list StockRow)
    (cache : option StockCache) (m : gmap string number) (c1 : option StockCache) :
  (forall c, cache = Some c -> sc_expiresAt c <= t0) ->
  getStockMap t0 (Ok rows) cache = (Ok m, c1) ->
  sound_stock m
  /\ (forall t answer, t0 <= t < t0 + 300000 -> getStockMap t answer c1 = (Ok m, c1))
  /\ (forall t msg, t0 + 300000 <= t -> getStockMap t (Throw msg) c1 = (Throw msg, c1)).
Proof.
  intros Hexp H.
  assert (E : m = fold_left stockStep rows ∅
              /\ c1 = Some {| sc_data := m; sc_expiresAt := t0 + 5 * 60 * 1000 |}).
  { unfold getStockMap in H. destruct cache as [c|].
    - specialize (Hexp c eq_refl). destruct (Z.ltb_spec t0 (sc_expiresAt c)); [lia|].
      by injection H as <- <-.
    - by injection H as <- <-. }
  destruct E as [Em ->]. split; [|split].
  - rewrite Em. by apply stock_fold_sound.
  - intros t answer Ht. unfold getStockMap. cbn [sc_expiresAt sc_data].
    destruct (Z.ltb_spec t (t0 + 5 * 60 * 1000)); [done|lia].
  - intros t msg Ht. unfold getStockMap. cbn [sc_expiresAt sc_data].
    destruct (Z.ltb_spec t (t0 + 5 * 60 * 1000)); [lia|done].
Qed.





Lemma stock_cache_serves_fresh_map_witness :
  sound_stock (fold_left stockStep stockReport ∅)
  /\ (forall t answer, 1000 <= t < 1000 + 300000 ->
        getStockMap t answer
          (Some {| sc_data := fold_left stockStep stockReport ∅;
                   sc_expiresAt := 1000 + 5 * 60 * 1000 |})
        = (Ok (fold_left stockStep stockReport ∅),
           Some {| sc_data := fold_left stockStep stockReport ∅;
                   sc_expiresAt := 1000 + 5 * 60 * 1000 |}))
  /\ (forall t msg, 1000 + 300000 <= t ->
        getStockMap t (Throw msg)
          (Some {| sc_data := fold_left stockStep stockReport ∅;
                   sc_expiresAt := 1000 + 5 * 60 * 1000 |})
        = (Throw msg,
           Some {| sc_data := fold_left stockStep stockReport ∅;
                   sc_expiresAt := 1000 + 5 * 60 * 1000 |})).
Proof.
  apply (stock_cache_serves_fresh_map 1000 stockReport None); [done|reflexivity].
Defined.

Example floor_examples :
  Math_floor (div (of_Z 5) (of_Z 2)) = of_Z 2
  /\ Math_floor (div (of_Z (-5)) (of_Z 2)) = of_Z (-3)
  /\ Math_floor (div (of_Z 1) (of_Z 2)) = zero
  /\ Math_floor (of_Z 7) = of_Z 7.
Proof. repeat split; vm_compute; reflexivity. Qed.

End StockProofs.

(* ===================================================================== *)
(** * Text for HTML messages                                            *)
(* ===================================================================== *)

Section TextProofs.
Import Text.

Lemma escapeHtml_chars text : chars (escapeHtml text) = flat_map escaped (chars text).
Proof.
  unfold escapeHtml, replaceAll. rewrite chars_of_chars.
  induction (chars text) as [|c l IH]; [done|].
  cbn [flat_map]. rewrite !flat_map_app, IH. f_equal.
  unfold escaped. destruct (Ascii.eqb_spec c "&") as [->|H1]; [reflexivity|].
  cbn [flat_map app]. destruct (Ascii.eqb_spec c "<") as [->|H2]; [reflexivity|].
  cbn [flat_map app]. by rewrite app_nil_r.
Qed.

Lemma escaped_safe c : ("<"%char ∉ escaped c) /\ (">"%char ∉ escaped c).
Proof.
  unfold escaped.
  destruct (Ascii.eqb_spec c "&"); [split; compute_done|].
  destruct (Ascii.eqb_spec c "<"); [split; compute_done|].
  destruct (Ascii.eqb_spec c ">"); [split; compute_done|].
  split; intros H%list_elem_of_singleton; congruence.
Qed.

Lemma escaped_inj a b l1 l2 :
  escaped a ++ l1 = escaped b ++ l2 -> a = b /\ l1 = l2.
Proof.
  unfold escaped.
  destruct (Ascii.eqb_spec a "&") as [->|A1]; [|destruct (Ascii.eqb_spec a "<") as [->|A2];
    [|destruct (Ascii.eqb_spec a ">") as [->|A3]]];
  (destruct (Ascii.eqb_spec b "&") as [->|B1]; [|destruct (Ascii.eqb_spec b "<") as [->|B2];
    [|destruct (Ascii.eqb_spec b ">") as [->|B3]]]);
  cbn; intros H; simplify_eq; done.
Qed.

Lemma flat_escaped_inj a b : flat_map escaped a = flat_map escaped b -> a = b.
Proof.
  revert b. induction a as [|x a IH]; intros b H.
  - destruct b as [|y b]; [done|]. cbn in H. unfold escaped in H.
    repeat (destruct (Ascii.eqb _ _) in H; [done|]). done.
  - destruct b as [|y b].
    + cbn in H. unfold escaped in H. repeat (destruct (Ascii.eqb _ _) in H; [done|]). done.
    + cbn [flat_map] in H. apply escaped_inj in H as [-> H]. f_equal. by apply IH.
Qed.

Lemma entities_only_flat l : entities_only (flat_map escaped l).
Proof.
  induction l as [|c l IH]; [done|]. cbn [flat_map]. unfold escaped at 1.
  destruct (Ascii.eqb_spec c "&"); [cbn; repeat split; try done; by intros; left|].
  destruct (Ascii.eqb_spec c "<");
    [cbn; repeat split; try done; by intros; right; left|].
  destruct (Ascii.eqb_spec c ">");
    [cbn; repeat split; try done; by intros; right; right|].
  cbn. split; [done|exact IH].
Qed.

(** X20. The text escapeHtml returns contains no '<' and no '>', every '&'
    in it opens one of the entities &amp;, &lt; and &gt;, and two different
    texts never escape to the same text. *)
Theorem escapeHtml_is_safe (text : string) :
  ("<"%char ∉ chars (escapeHtml text))
  /\ (">"%char ∉ chars (escapeHtml text))
  /\ entities_only (chars (escapeHtml text))
  /\ (forall other, escapeHtml other = escapeHtml text -> other = text).
Proof.
  rewrite escapeHtml_chars. repeat split.
  - intros H. apply list_elem_of_In, in_flat_map in H as [c [_ H]].
    apply list_elem_of_In in H. by destruct (escaped_safe c) as [S _].
  - intros H. apply list_elem_of_In, in_flat_map in H as [c [_ H]].
    apply list_elem_of_In in H. by destruct (escaped_safe c) as [_ S].
  - apply entities_only_flat.
  - intros other H. apply chars_inj, flat_escaped_inj.
    by rewrite <- !escapeHtml_chars, H.
Qed.







End TextProofs.

(* ===================================================================== *)
(** * bot.ts: the panel of the administrators                           *)
(* ===================================================================== *)

Section AdminPanelProofs.
Import Telegraf AdminPanel.

(** X22. decodeAdminStates inverts encodeAdminStates, the code consists of
    characters of [a-z0-9] only, as the callback patterns require, and
    toggling a field flips its value while toggling it twice restores the
    states. *)
Theorem admin_states_round_trip (s : AdminPanelStates) :
  decodeAdminStates (encodeAdminStates s) = s
  /\ forallb code_unit (chars (encodeAdminStates s)) = true
  /\ (forall f, toggle f (toggle f s) = s /\ field f (toggle f s) = negb (field f s)).
Proof.
  destruct s as [[] [] [] []]; (split; [|split]); try (vm_compute; reflexivity);
    intros []; split; reflexivity.
Qed.

Lemma decode_encode s : decodeAdminStates (encodeAdminStates s) = s.
Proof. destruct s as [[] [] [] []]; vm_compute; reflexivity. Qed.

Lemma shouldNotify_settingsOf st type : shouldNotify (settingsOf st) type = field type st.
Proof. destruct type; cbn; by rewrite ?orb_diag. Qed.

Lemma showAdminPanel_store rejects from edit pending s :
  store (showAdminPanel rejects from edit pending s).2 = store s.
Proof.
  unfold showAdminPanel, bind, read, orElse, call, ret. cbn.
  destruct (findUnique_telegramId from (store s)); [|done].
  destruct edit; repeat (destruct (rejects _); cbn); done.
Qed.

Lemma onSave_store sys rejects from code s :
  store (onSave sys rejects from code s).2
  = if isAdmin sys from && negb (rejects (AnswerCbQuery from)) then
      match findUnique_telegramId from (store s) with
      | Some u => with_adminSettings
                    (<[u_id u := settingsOf (decodeAdminStates code)]>
                       (adminSettings (store s))) (store s)
      | None => store s
      end
    else store s.
Proof.
  unfold onSave. destruct (isAdmin sys from); cbn [negb andb].
  - unfold bind, call at 1, read, write. destruct (rejects (AnswerCbQuery from)); [done|].
    cbn. destruct (findUnique_telegramId from (store s)); [|done].
    cbn. unfold call. by destruct (rejects (Reply _ _ _)).
  - unfold call. by destruct (rejects _).
Qed.

(** X23. The handlers that open the admin panel and toggle its switches
    never change the store; the save handler changes it only for an
    administrator who has a user row, and then only by writing that user's
    own settings row with the states decoded from the button. *)
Theorem admin_settings_change_on_save_only (sys : Sys) (rejects : Call -> bool)
    (from : string) (s : Chat) :
  (forall f code, store (onToggle sys rejects from f code s).2 = store s)
  /\ store (onSettings sys rejects from s).2 = store s
  /\ (forall code,
        store (onSave sys rejects from code s).2 = store s
        \/ (isAdmin sys from = true
            /\ exists u, findUnique_telegramId from (store s) = Some u
                 /\ store (onSave sys rejects from code s).2
                    = with_adminSettings
                        (<[u_id u := settingsOf (decodeAdminStates code)]>
                           (adminSettings (store s))) (store s))).
Proof.
  split; [|split].
  - intros f code. unfold onToggle. destruct (isAdmin sys from); cbn [negb].
    + unfold bind, call at 1. destruct (rejects (AnswerCbQuery from)); [done|].
      by rewrite showAdminPanel_store.
    + unfold call. by destruct (rejects _).
  - unfold onSettings. destruct (isAdmin sys from); cbn [negb]; [|done].
    by rewrite showAdminPanel_store.
  - intros code. rewrite onSave_store.
    destruct (isAdmin sys from); [|by left]. destruct (rejects _); [by left|]. cbn.
    destruct (findUnique_telegramId from (store s)) as [u|]; [|by left].
    right. split; [done|]. by exists u.
Qed.

(** X24. When the save handler runs for an administrator with the code of
    the states st and Telegram accepts the callback answer, the
    administrator's settings row holds st afterwards, and for each type of
    notification that row lets the notification through exactly when st has
    the type switched on. *)
Theorem admin_save_takes_effect (sys : Sys) (rejects : Call -> bool)
    (from : string) (s : Chat) (st : AdminPanelStates) (u : User) :
  isAdmin sys from = true -> rejects (AnswerCbQuery from) = false ->
  findUnique_telegramId from (store s) = Some u ->
  adminSettings (store (onSave sys rejects from (encodeAdminStates st) s).2) !! u_id u
  = Some (settingsOf st)
  /\ forall type, shouldNotify (settingsOf st) type = field type st.
Proof.
  intros Ha Hr Hu. split; [|intros; apply shouldNotify_settingsOf].
  unfold onSave. rewrite Ha. cbn [negb]. unfold bind, call at 1, read, write.
  rewrite Hr. cbn. rewrite Hu, decode_encode. unfold call.
  destruct (rejects (Reply _ _ _)); cbn; apply lookup_insert_eq.
Qed.

Lemma admin_save_takes_effect_witness :
  adminSettings
    (store (onSave sys1 (fun _ => false) "900" (encodeAdminStates paymentsOff)
              {| store := world [alice; admin] []; calls := [] |}).2) !! "u9"
  = Some (settingsOf paymentsOff)
  /\ forall type, shouldNotify (settingsOf paymentsOff) type = field type paymentsOff.
Proof.
  apply (admin_save_takes_effect sys1 (fun _ => false) "900"
           {| store := world [alice; admin] []; calls := [] |} paymentsOff admin);
    reflexivity.
Defined.

End AdminPanelProofs.

(* ===================================================================== *)
(** * routes/api.ts: liked products and the receipt on request          *)
(* ===================================================================== *)

Section EndpointProofs.
Import Endpoints.

Lemma is_row_spec u p l :
  is_row u p l = true <-> (lk_userId l, lk_productId l) = (u, p).
Proof.
  unfold is_row. rewrite andb_true_iff, !String.eqb_eq. split.
  - by intros [-> ->].
  - intros [= -> ->]. done.
Qed.

Lemma likes_spec t u p :
  likes t u p = true <-> (u, p) ∈ map (fun l => (lk_userId l, lk_productId l)) t.
Proof.
  unfold likes. rewrite existsb_exists, list_elem_of_In, in_map_iff. split.
  - intros [l [Hl E]]. exists l. split; [by apply is_row_spec|done].
  - intros [l [E Hl]]. exists l. split; [done|by apply is_row_spec].
Qed.

Lemma likes_find t u p : likes t u p = bool_decide (is_Some (find (is_row u p) t)).
Proof.
  unfold likes. induction t as [|l t IH]; [done|]. cbn. by destruct (is_row u p l).
Qed.

Lemma likes_app t t' u p : likes (t ++ t') u p = likes t u p || likes t' u p.
Proof. apply existsb_app. Qed.

Lemma likes_delete_other t u p u' p' :
  (u', p') <> (u, p) -> likes (delete_row u p t) u' p' = likes t u' p'.
Proof.
  intros N. unfold likes. induction t as [|l t IH]; [done|]. cbn [delete_row].
  destruct (is_row u p l) eqn:E; cbn [existsb].
  - destruct (is_row u' p' l) eqn:E'; [|done].
    apply is_row_spec in E, E'. congruence.
  - by rewrite IH.
Qed.

Lemma likes_delete_same t u p :
  unique_likes t -> likes (delete_row u p t) u p = false.
Proof.
  unfold unique_likes. induction t as [|l t IH]; [done|]. cbn [map delete_row]. intros H.
  apply NoDup_cons in H as [H1 H2]. destruct (is_row u p l) eqn:E.
  - apply is_row_spec in E. rewrite E in H1.
    destruct (likes t u p) eqn:L; [|done]. apply likes_spec in L. done.
  - unfold likes. cbn [existsb]. rewrite E. by apply IH.
Qed.

Lemma delete_row_sub t u p x :
  x ∈ map (fun l => (lk_userId l, lk_productId l)) (delete_row u p t) ->
  x ∈ map (fun l => (lk_userId l, lk_productId l)) t.
Proof.
  induction t as [|l t IH]; [done|]. cbn. destruct (is_row u p l); cbn.
  - intros H. by apply list_elem_of_further.
  - intros H. apply elem_of_cons in H as [-> | H].
    + apply list_elem_of_here.
    + apply list_elem_of_further. by apply IH.
Qed.

Lemma unique_delete t u p : unique_likes t -> unique_likes (delete_row u p t).
Proof.
  unfold unique_likes. induction t as [|l t IH]; [done|]. cbn. intros H.
  apply NoDup_cons in H as [H1 H2]. destruct (is_row u p l); [done|]. cbn.
  apply NoDup_cons. split; [|by apply IH].
  intros H. apply H1. by eapply delete_row_sub.
Qed.

Lemma unique_add t u p :
  unique_likes t -> likes t u p = false ->
  unique_likes (t ++ [ {| lk_userId := u; lk_productId := p |} ]).
Proof.
  unfold unique_likes. intros H L. rewrite map_app. apply NoDup_app. split; [done|]. split.
  - intros x Hx Hx'. cbn in Hx'. apply list_elem_of_singleton in Hx'. subst x.
    apply likes_spec in Hx. congruence.
  - cbn. apply NoDup_singleton.
Qed.

Lemma likes_row u p u' p' :
  likes [ {| lk_userId := u; lk_productId := p |} ] u' p' = true -> (u', p') = (u, p).
Proof.
  unfold likes. cbn. rewrite orb_false_r. intros H. apply is_row_spec in H. by inversion H.
Qed.

Lemma postLiked_step w t tid pid u :
  str_truthy tid = true -> str_truthy pid = true ->
  findUnique_telegramId tid w = Some u ->
  unique_likes t ->
  let r := postLiked w t (Some tid) (Some pid) in
  r.1 = Liked (negb (likes t (u_id u) pid))
  /\ unique_likes r.2
  /\ likes r.2 (u_id u) pid = negb (likes t (u_id u) pid)
  /\ (forall u' p', (u', p') <> (u_id u, pid) -> likes r.2 u' p' = likes t u' p').
Proof.
  intros Ht Hp Hu U. unfold postLiked, truthy_str. cbn [opt_str_truthy]. rewrite Ht, Hp, Hu.
  rewrite (likes_find t). destruct (find _ t) as [ex|] eqn:F; cbn [fst snd].
  - rewrite bool_decide_eq_true_2 by eauto. cbn [negb]. repeat split.
    + by apply unique_delete.
    + by apply likes_delete_same.
    + intros u' p' N. by apply likes_delete_other.
  - assert (L : likes t (u_id u) pid = false).
    { rewrite likes_find, F. apply bool_decide_eq_false. by intros [? ?]. }
    rewrite bool_decide_eq_false_2 by (by intros [? ?]). cbn [negb]. repeat split.
    + by apply unique_add.
    + rewrite likes_app, L. cbn. unfold likes, is_row. cbn. by rewrite !String.eqb_refl.
    + intros u' p' N. rewrite likes_app.
      destruct (likes [_] u' p') eqn:E; [|apply orb_false_r].
      apply likes_row in E. done.
Qed.

(** X25. With the key (userId, productId) unique, POST /api/liked for a
    registered user flips whether the product is liked and answers the new
    state, changes no other like and keeps the key unique; a second call
    restores the likes, and GET /api/liked lists exactly the products the
    user likes. *)
Theorem liked_is_a_toggle (w : World) (t : list LikedProduct) (tid pid : string) (u : User) :
  str_truthy tid = true -> str_truthy pid = true ->
  findUnique_telegramId tid w = Some u ->
  unique_likes t ->
  let r1 := postLiked w t (Some tid) (Some pid) in
  let r2 := postLiked w r1.2 (Some tid) (Some pid) in
  r1.1 = Liked (negb (likes t (u_id u) pid))
  /\ unique_likes r1.2
  /\ likes r1.2 (u_id u) pid = negb (likes t (u_id u) pid)
  /\ (forall u' p', (u', p') <> (u_id u, pid) -> likes r1.2 u' p' = likes t u' p')
  /\ r2.1 = Liked (likes t (u_id u) pid)
  /\ (forall u' p', likes r2.2 u' p' = likes t u' p')
  /\ (exists ids, getLiked w r1.2 (Some tid) = LikedIds ids
                  /\ forall p, p ∈ ids <-> likes r1.2 (u_id u) p = true).
Proof.
  intros Ht Hp Hu U r1 r2.
  destruct (postLiked_step w t tid pid u Ht Hp Hu U) as (A1 & A2 & A3 & A4).
  destruct (postLiked_step w r1.2 tid pid u Ht Hp Hu A2) as (B1 & B2 & B3 & B4).
  fold r1 in A1, A2, A3, A4, B1, B2, B3, B4. fold r2 in B1, B2, B3, B4.
  split; [done|]. split; [done|]. split; [done|]. split; [done|]. split.
  { by rewrite B1, A3, negb_involutive. }
  split.
  { intros u' p'. destruct (decide ((u', p') = (u_id u, pid))) as [[= -> ->]|N].
    - by rewrite B3, A3, negb_involutive.
    - by rewrite B4, A4. }
  unfold getLiked, truthy_str. cbn [opt_str_truthy]. rewrite Ht, Hu. eexists. split; [done|].
  intros p. rewrite likes_spec, !list_elem_of_In, !in_map_iff. split.
  - intros [l [E Hl]]. apply list_elem_of_In, list_elem_of_filter in Hl as [Hl1 Hl2].
    apply String.eqb_eq in Hl1. exists l. split; [by rewrite Hl1, E|by apply list_elem_of_In].
  - intros [l [E Hl]]. inversion E. exists l. split; [done|].
    apply list_elem_of_In, list_elem_of_filter. split; [|by apply list_elem_of_In].
    by apply String.eqb_eq.
Qed.

Lemma liked_is_a_toggle_witness :
  let t := [ {| lk_userId := "u1"; lk_productId := "A" |};
             {| lk_userId := "u2"; lk_productId := "B" |} ] in
  let r1 := postLiked (world [alice; bob] []) t (Some "100") (Some "B") in
  let r2 := postLiked (world [alice; bob] []) r1.2 (Some "100") (Some "B") in
  r1.1 = Liked (negb (likes t "u1" "B"))
  /\ unique_likes r1.2
  /\ likes r1.2 "u1" "B" = negb (likes t "u1" "B")
  /\ (forall u' p', (u', p') <> ("u1", "B") -> likes r1.2 u' p' = likes t u' p')
  /\ r2.1 = Liked (likes t "u1" "B")
  /\ (forall u' p', likes r2.2 u' p' = likes t u' p')
  /\ (exists ids, getLiked (world [alice; bob] []) r1.2 (Some "100") = LikedIds ids
                  /\ forall p, p ∈ ids <-> likes r1.2 "u1" p = true).
Proof.
  apply (liked_is_a_toggle (world [alice; bob] []) _ "100" "B" alice);
    [reflexivity|reflexivity|reflexivity|].
  unfold unique_likes. simpl. compute_done.
Defined.

Section ReceiptProofs.
Variable sys : Sys.
Variable generateDemandPdf : PdfParams -> Outcome unit.

Lemma findUnique_telegramId_is tid w u :
  findUnique_telegramId tid w = Some u -> telegramId u = tid.
Proof.
  unfold findUnique_telegramId. intros H. apply find_some in H as [_ H].
  by apply String.eqb_eq in H.
Qed.

(** X26. POST /api/demands/:demandId/pdf always answers, changes no user,
    draft or reminder, and sends a receipt only to the chat of the
    requesting user and only when that user's counterparty is the agent of
    the demand; a success answer is given to the owner only. *)
Theorem receipt_for_owner_only (demandId tid : string) (w : World) :
  let r := postDemandPdf sys generateDemandPdf demandId (Some tid) w in
  (exists resp, r.1 = Ok resp)
  /\ users r.2 = users w /\ drafts r.2 = drafts w /\ reminders r.2 = reminders w
  /\ adds (own_receipt sys demandId tid w) w r.2
  /\ (r.1 = Ok PdfSent -> exists user demand k,
        findUnique_telegramId tid w = Some user
        /\ getDemand (sys_erp sys) demandId = Ok demand
        /\ moskladCounterpartyId user = Some k
        /\ DemandPdf.extractIdFromHref (d_agentHref demand) "/entity/counterparty/" = Some k).
Proof.
  unfold postDemandPdf, truthy_str. cbn [opt_str_truthy].
  destruct (str_truthy tid).
  2:{ mrun. repeat split; eauto using adds_refl. intros [=]. }
  mrun. destruct (findUnique_telegramId tid w) as [user|] eqn:Hu.
  2:{ mrun. repeat split; eauto using adds_refl. intros [=]. }
  pose proof (findUnique_telegramId_is _ _ _ Hu) as Ht.
  mrun. destruct (getDemand (sys_erp sys) demandId) as [demand|msg] eqn:Hd; mrun.
  2:{ repeat split; eauto. - by apply adds_emit. - intros [=]. }
  destruct (DemandPdf.extractIdFromHref _ _) as [k|] eqn:Hk; mrun.
  2:{ repeat split; eauto using adds_refl. intros [=]. }
  destruct (bool_decide (moskladCounterpartyId user = Some k)) eqn:Ho; mrun.
  2:{ repeat split; eauto using adds_refl. intros [=]. }
  apply bool_decide_eq_true in Ho.
  assert (Own : forall nm data, nm = d_name demand ->
            own_receipt sys demandId tid w (PdfReceiptJob (Backend.telegramId user) nm data)).
  { intros nm data ->. cbn. exists user, demand. repeat split; eauto. }
  destruct (generateDemandPdf _) as [[]|msg]; mrun.
  2:{ repeat split; eauto. - by apply adds_emit. - intros [=]. }
  unfold tg_request. destruct (opt_str_truthy (BOT_TOKEN (sys_cfg sys))); mrun.
  2:{ repeat split; eauto 10 using adds_refl. }
  destruct (sys_tg_rejects sys _); mrun.
  - repeat split; eauto.
    + eexists. split; [by rewrite <- app_assoc|]. repeat constructor. by apply Own.
    + intros [=].
  - repeat split; eauto 10. apply adds_emit. by apply Own.
Qed.
End ReceiptProofs.

End EndpointProofs.

(* ===================================================================== *)
(** * reminders.ts: the reminder worker                                 *)
(* ===================================================================== *)

Section WorkerRuns.
Import Telegraf Worker.

Lemma dueReminders_place now w d :
  d ∈ dueReminders now w ->
  reminders w !! due_place d = Some (due_reminder d)
  /\ isDue now (due_reminder d) = true
  /\ due_user d = findUnique_id (rem_userId (due_reminder d)) w.
Proof.
  unfold dueReminders. intros H. apply elem_of_take in H as [i [H _]].
  apply list_elem_of_lookup_2 in H. apply list_elem_of_omap in H as [[j r] [H1 H2]].
  cbn in H2. destruct (isDue now r) eqn:E; [|done]. inversion H2. cbn.
  apply elem_of_lookup_imap_1 in H1 as [k [y [H1 F]]]. inversion H1. subst. done.
Qed.

Lemma loop_inv_refl now s : loop_inv now s s 0.
Proof.
  split; try done.
  - apply Forall2_same_length_lookup. split; [done|]. intros i x y H1 H2.
    left. congruence.
  - exists []. by rewrite app_nil_r.
Qed.

Lemma markSent_markSent now r : markSent now (markSent now r) = markSent now r.
Proof. done. Qed.

Lemma kept_or_sent_alter now (t0 t : list Reminder) i r :
  Forall2 (kept_or_sent now) t0 t -> t0 !! i = Some r -> isDue now r = true ->
  Forall2 (kept_or_sent now) t0 (alter (markSent now) i t).
Proof.
  intros H Hi Hd. apply Forall2_same_length_lookup. split.
  - rewrite length_alter. by eapply Forall2_length.
  - intros j x y H1 H2. destruct (decide (i = j)) as [->|N].
    + rewrite list_lookup_alter_eq in H2. destruct (t !! j) as [y0|] eqn:E; [|done].
      cbn in H2. inversion H2. subst y. assert (x = r) by congruence. subst x.
      right. split; [done|].
      destruct (Forall2_lookup_lr _ _ _ _ _ _ H Hi E) as [->|[_ ->]]; done.
    + rewrite list_lookup_alter_ne in H2 by done.
      by eapply Forall2_lookup_lr.
Qed.

Section WorkerProofs.
Variable rejects : Call -> bool.

Lemma sendReminder_inv now s0 s n d :
  loop_inv now s0 s n ->
  reminders (store s0) !! due_place d = Some (due_reminder d) ->
  isDue now (due_reminder d) = true ->
  due_user d = findUnique_id (rem_userId (due_reminder d)) (store s0) ->
  (sendReminder rejects now d s).1 = Ok tt
  /\ loop_inv now s0 (sendReminder rejects now d s).2 (S n).
Proof.
  intros [I1 I2 I3 I4 [cs [I5 [I6 I7]]]] Hp Hd Hu.
  unfold sendReminder, orElse, consoleError, write, bind.
  destruct (due_user d) as [u|] eqn:Eu.
  2:{ cbn. split; [done|]. split; cbn; try done. exists cs. repeat split; try done. lia. }
  assert (Hm : reminder_message now (store s0)
                 (SendMessage (telegramId u) (orderReminderText (language u)))).
  { exists (due_reminder d), u. split; [by eapply list_elem_of_lookup_2|].
    split; [done|]. split; [congruence|done]. }
  assert (Hc : exists cs', calls s ++ [SendMessage (telegramId u) (orderReminderText (language u))]
                           = calls s0 ++ cs'
                           /\ Forall (reminder_message now (store s0)) cs'
                           /\ (length cs' <= S n)%nat).
  { exists (cs ++ [SendMessage (telegramId u) (orderReminderText (language u))]).
    rewrite I5, <- app_assoc. split; [done|]. split.
    - apply Forall_app. split; [done|]. by repeat constructor.
    - rewrite length_app. cbn. lia. }
  unfold call. destruct (rejects _); cbn.
  - split; [done|]. by split.
  - split; [done|]. split; cbn; try done. by eapply kept_or_sent_alter.
Qed.

Lemma sendReminders_inv now s0 l : forall s n,
  loop_inv now s0 s n ->
  (forall d, d ∈ l ->
     reminders (store s0) !! due_place d = Some (due_reminder d)
     /\ isDue now (due_reminder d) = true
     /\ due_user d = findUnique_id (rem_userId (due_reminder d)) (store s0)) ->
  (sendReminders rejects now l s).1 = Ok tt
  /\ loop_inv now s0 (sendReminders rejects now l s).2 (n + length l).
Proof.
  induction l as [|d l IH]; intros s n I Hl.
  - cbn. rewrite Nat.add_0_r. done.
  - cbn [sendReminders]. unfold bind.
    destruct (Hl d) as (H1 & H2 & H3); [apply list_elem_of_here|].
    destruct (sendReminder_inv now s0 s n d I H1 H2 H3) as [E I'].
    destruct (sendReminder rejects now d s) as [[[]|] s1]; [|done]. cbn in I'.
    destruct (IH s1 (S n) I') as [E2 I2].
    { intros d' Hd'. apply Hl. by apply list_elem_of_further. }
    split; [done|]. cbn [length]. by rewrite Nat.add_succ_r.
Qed.

(** X27. A run of processOrderReminders never throws, whatever Telegram
    answers, changes no user, draft or admin settings, makes at most 100
    requests, each one the reminder message to the user of a reminder that
    is due and not sent, and leaves every remaining reminder as it was or
    marked as sent now because it was due. *)
Theorem reminder_run_is_contained (now : Z) (s : Chat) :
  let r := processOrderReminders rejects now s in
  r.1 = Ok tt
  /\ users (store r.2) = users (store s)
  /\ drafts (store r.2) = drafts (store s)
  /\ adminSettings (store r.2) = adminSettings (store s)
  /\ (exists cs, calls r.2 = calls s ++ cs
                 /\ Forall (reminder_message now (store s)) cs
                 /\ (length cs <= 100)%nat)
  /\ (forall r', r' ∈ reminders (store r.2) ->
        exists r0, r0 ∈ reminders (store s) /\ kept_or_sent now r0 r').
Proof.
  cbn zeta. unfold processOrderReminders, orElse, bind, read. cbn [fst snd].
  destruct (sendReminders_inv now s (dueReminders now (store s)) s 0%nat (loop_inv_refl now s))
    as [E [I1 I2 I3 I4 [cs [I5 [I6 I7]]]]].
  { intros d Hd. by apply dueReminders_place. }
  destruct (sendReminders rejects now _ s) as [[[]|] s1]; [|done]. cbn in *.
  assert (L : (length cs <= 100)%nat).
  { etrans; [exact I7|]. unfold dueReminders. rewrite length_take. lia. }
  assert (T : forall r', r' ∈ reminders (store s1) ->
                exists r0, r0 ∈ reminders (store s) /\ kept_or_sent now r0 r').
  { intros r' Hr'. apply list_elem_of_lookup in Hr' as [i Hi].
    destruct (Forall2_lookup_r _ _ _ _ _ I4 Hi) as [r0 [H0 K]].
    exists r0. split; [by eapply list_elem_of_lookup_2|done]. }
  destruct (valid_time _); cbn.
  - repeat split; try done; [by exists cs|].
    intros r' Hr'. apply list_elem_of_filter in Hr' as [_ Hr']. by apply T.
  - repeat split; try done. by exists cs.
Qed.
End WorkerProofs.

End WorkerRuns.

Section WorkerBacklogProofs.
Import Telegraf Worker.

Lemma dueReminders_dueFrom now w :
  dueReminders now w = take 100 (dueFrom now w 0 (reminders w)).
Proof. done. Qed.

Lemma dueFrom_cons now w k r t :
  dueFrom now w k (r :: t)
  = (if isDue now r
     then [ {| due_place := k; due_reminder := r;
               due_user := findUnique_id (rem_userId r) w |} ]
     else []) ++ dueFrom now w (S k) t.
Proof.
  unfold dueFrom. cbn [imap]. rewrite Nat.add_0_r.
  assert (E : imap ((fun i => pair (k + i)%nat) ∘ S) t
              = imap (fun i => pair (S k + i)%nat) t (B := nat * Reminder)).
  { apply imap_ext. intros i x _. cbn. f_equal. lia. }
  rewrite E. cbn. by destruct (isDue now r).
Qed.

Lemma markFirst_0 now t : markFirst now 0 t = t.
Proof. induction t as [|r t IH]; [done|]. cbn. destruct (isDue now r); [done|by rewrite IH]. Qed.

Lemma alter_middle {A} (f : A -> A) (pre : list A) x t :
  alter f (length pre) (pre ++ x :: t) = pre ++ f x :: t.
Proof. induction pre as [|y pre IH]; [done|]. cbn. by rewrite IH. Qed.

Lemma marked_table now w t : forall pre n,
  foldl (fun t d => alter (markSent now) (due_place d) t) (pre ++ t)
        (take n (dueFrom now w (length pre) t))
  = pre ++ markFirst now n t.
Proof.
  induction t as [|r t IH]; intros pre n.
  - unfold dueFrom. cbn. by rewrite take_nil.
  - rewrite dueFrom_cons. cbn [markFirst]. destruct (isDue now r).
    + destruct n as [|n]; [done|]. cbn [app take foldl due_place].
      rewrite alter_middle.
      specialize (IH (pre ++ [markSent now r]) n).
      rewrite length_app, Nat.add_1_r, <- app_assoc in IH. cbn in IH.
      by rewrite IH, <- app_assoc.
    + cbn [app]. specialize (IH (pre ++ [r]) n).
      rewrite length_app, Nat.add_1_r, <- app_assoc in IH. cbn in IH.
      by rewrite IH, <- app_assoc.
Qed.

Lemma markFirst_due now n t :
  filter (fun r => isDue now r = true) (markFirst now n t)
  = drop n (filter (fun r => isDue now r = true) t).
Proof.
  revert n. induction t as [|r t IH]; intros n; [cbn; by rewrite drop_nil|].
  cbn [markFirst]. destruct (isDue now r) eqn:E.
  - rewrite (filter_cons_True _ r t) by done. destruct n as [|n]; cbn [drop].
    + by rewrite filter_cons_True.
    + rewrite filter_cons_False; [apply IH|]. unfold isDue, markSent. cbn.
      rewrite andb_false_r. done.
  - rewrite !filter_cons_False by (by rewrite E). apply IH.
Qed.

Lemma dueFrom_reminders now w t : forall k,
  map due_reminder (dueFrom now w k t) = filter (fun r => isDue now r = true) t.
Proof.
  induction t as [|r t IH]; intros k; [done|]. rewrite dueFrom_cons, map_app, IH.
  destruct (isDue now r) eqn:E.
  - by rewrite filter_cons_True.
  - by rewrite filter_cons_False by (by rewrite E).
Qed.

Lemma dueFrom_user now w t : forall k,
  Forall (fun d => due_user d = findUnique_id (rem_userId (due_reminder d)) w)
         (dueFrom now w k t).
Proof.
  induction t as [|r t IH]; intros k; [constructor|]. rewrite dueFrom_cons.
  apply Forall_app. split; [|apply IH]. destruct (isDue now r); by repeat constructor.
Qed.

Lemma dueFrom_calls w (l : list DueReminder) :
  Forall (fun d => due_user d = findUnique_id (rem_userId (due_reminder d)) w) l ->
  omap (fun d => (fun u => SendMessage (telegramId u) (orderReminderText (language u)))
                   <$> due_user d) l
  = omap (reminderCall w) (map due_reminder l).
Proof.
  induction 1 as [|d l H _ IH]; [done|]. cbn. cbn in IH. rewrite IH.
  unfold reminderCall. by rewrite <- H.
Qed.

Lemma stale_not_due now t r : isDue now r = true -> isStale t r = false.
Proof.
  unfold isDue, isStale. destruct (sentAt r); [|done]. by rewrite andb_false_r.
Qed.

Lemma filter_due_fresh now th (t : list Reminder) :
  filter (fun r => isDue now r = true) (filter (fun r => isStale th r = false) t)
  = filter (fun r => isDue now r = true) t.
Proof.
  induction t as [|r t IH]; [done|]. destruct (isStale th r) eqn:F.
  - rewrite (filter_cons_False (fun r => isStale th r = false)) by (cbn; congruence).
    rewrite IH. rewrite (filter_cons_False (fun r => isDue now r = true)); [done|].
    cbn. intros E. rewrite (stale_not_due _ _ _ E) in F. done.
  - rewrite (filter_cons_True (fun r => isStale th r = false)) by (cbn; congruence).
    destruct (isDue now r) eqn:E.
    + rewrite !(filter_cons_True (fun r => isDue now r = true)) by (cbn; congruence).
      by rewrite IH.
    + by rewrite !(filter_cons_False (fun r => isDue now r = true)) by (cbn; congruence).
Qed.

Section Delivered.
Variable rejects : Call -> bool.
Hypothesis accepted : forall c, rejects c = false.

Lemma with_reminders_same w : with_reminders (reminders w) w = w.
Proof. by destruct w. Qed.

Lemma sendReminders_accepted now l : forall s,
  Forall (fun d => is_Some (due_user d)) l ->
  sendReminders rejects now l s
  = (Ok tt,
     {| store := with_reminders
                   (foldl (fun t d => alter (markSent now) (due_place d) t)
                          (reminders (store s)) l) (store s);
        calls := calls s
                 ++ omap (fun d => (fun u => SendMessage (telegramId u)
                                                (orderReminderText (language u)))
                                     <$> due_user d) l |}).
Proof.
  induction l as [|d l IH]; intros s H.
  - cbn. rewrite with_reminders_same, app_nil_r. unfold ret. destruct s. reflexivity.
  - apply Forall_cons in H as [[u Hu] H]. cbn [sendReminders].
    unfold bind, sendReminder, orElse. rewrite Hu. unfold bind, call.
    rewrite accepted. cbn [write]. rewrite (IH _ H). cbn. rewrite Hu. cbn.
    by rewrite <- app_assoc.
Qed.

(** X28. When Telegram accepts every message and every reminder has its
    user, a run of processOrderReminders sends one message for each of the
    first 100 reminders that are due and not sent, in table order, and the
    reminders still due and not sent afterwards are the former ones without
    those 100: a delivered reminder is not sent again. *)
Theorem due_reminders_are_worked_off (now : Z) (s : Chat) :
  Forall (fun r => is_Some (findUnique_id (rem_userId r) (store s))) (reminders (store s)) ->
  let due := filter (fun r => isDue now r = true) (reminders (store s)) in
  let r := processOrderReminders rejects now s in
  calls r.2 = calls s ++ omap (reminderCall (store s)) (take 100 due)
  /\ length (omap (reminderCall (store s)) (take 100 due)) = Nat.min 100 (length due)
  /\ filter (fun r => isDue now r = true) (reminders (store r.2)) = drop 100 due.
Proof.
  intros Hu' due r. subst due r.
  assert (Hu : forall r, r ∈ reminders (store s) ->
                 is_Some (findUnique_id (rem_userId r) (store s))).
  { by apply Forall_forall. }
  clear Hu'.
  unfold processOrderReminders, orElse, bind, read. cbn [fst snd].
  rewrite dueReminders_dueFrom.
  pose proof (dueFrom_user now (store s) (reminders (store s)) 0) as U.
  pose proof (dueFrom_reminders now (store s) (reminders (store s)) 0) as R.
  pose proof (marked_table now (store s) (reminders (store s)) [] 100) as T.
  cbn [length app] in T.
  set (l := dueFrom now (store s) 0 (reminders (store s))) in *.
  assert (U' : Forall (fun d => due_user d
                       = findUnique_id (rem_userId (due_reminder d)) (store s)) (take 100 l)).
  { by apply Forall_take. }
  assert (S' : Forall (fun d => is_Some (due_user d)) (take 100 l)).
  { apply Forall_forall. intros d Hd. rewrite Forall_forall in U'. rewrite (U' d Hd).
    apply Hu. apply elem_of_take in Hd as [i [Hd _]]. apply list_elem_of_lookup_2 in Hd.
    assert (due_reminder d ∈ map due_reminder l).
    { apply list_elem_of_In, in_map, list_elem_of_In, Hd. }
    rewrite R in H. by apply list_elem_of_filter in H as [_ H]. }
  rewrite (sendReminders_accepted now _ s S'), T, (dueFrom_calls _ _ U').
  rewrite <- R, firstn_map.
  assert (Len : length (omap (reminderCall (store s)) (map due_reminder (take 100 l)))
                = (100 `min` length (map due_reminder l))%nat).
  { rewrite <- (dueFrom_calls _ _ U'), length_map, <- (length_take l 100).
    clear - S'. induction S' as [|d l' [u Hd] _ IH]; [done|]. cbn. rewrite Hd. cbn.
    by rewrite IH. }
  destruct (valid_time _); cbn.
  - split; [done|]. split; [exact Len|].
    by rewrite filter_due_fresh, markFirst_due, R.
  - split; [done|]. split; [exact Len|]. by rewrite markFirst_due, R.
Qed.
End Delivered.

Lemma due_reminders_are_worked_off_witness :
  let r := processOrderReminders (fun _ => false) 1700000000000 (remindersAt 1700000000000) in
  calls r.2 = [SendMessage "100" (orderReminderText (Some "uz"))]
  /\ filter (fun r => isDue 1700000000000 r = true) (reminders (store r.2)) = [].
Proof.
  destruct (due_reminders_are_worked_off (fun _ => false) (fun _ => eq_refl)
              1700000000000 (remindersAt 1700000000000)) as (C & _ & D).
  - repeat constructor; by eexists.
  - split; [exact C|exact D].
Defined.

End WorkerBacklogProofs.
